(** * DNN-Accelerator host driver: HAL allocator, status polling,
      register programmer, driver facade and runtime wrapper.

    Shallow embedding of
      04_software/hal/src/hal_mem.c, hal_io.c, hal_config.c, hal_base.c,
      04_software/driver/src/accel.c, accel_config.c,
      04_software/runtime/include/accel/runtime.hpp.

    Conventions.  The target is LP64 Linux: [size_t], [uintptr_t] and
    pointers are 64-bit words, modelled as [Z] with the wrap-around
    written out ([wrap]).  A pointer is its numeric value and [NULL] is 0.
    The singly linked block list of the allocator is a Rocq list in link
    order; a node pointer is the index of the node in that list. *)

From Stdlib Require Import String ZArith List Bool Lia Permutation.
Import ListNotations.
Open Scope Z_scope.

(* ================================================================== *)
(** ** Machine words *)

Definition SIZE_BITS : Z := 64.
Definition wrap (z : Z) : Z := z mod 2 ^ SIZE_BITS.
(** [(size_t)-1] *)
Definition SIZE_MAX : Z := 2 ^ SIZE_BITS - 1.
Definition NULL : Z := 0.

(* ================================================================== *)
(** ** hal_base.h *)

Definition HAL_STATUS_READY : Z := 1.
Definition HAL_STATUS_BUSY : Z := 2.
Definition HAL_STATUS_COMPLETE : Z := 4.
Definition HAL_STATUS_ERROR : Z := 8.

Definition HAL_ACCEL_MEM_BASE : Z := 805306368.          (* 0x30000000 *)
Definition HAL_ACCEL_MEM_SIZE : Z := 256 * 1024 * 1024.  (* 256MB *)

(* ================================================================== *)
(** ** hal_config.h : the instruction register *)

(** [hal_lsu_config_t] *)
Record hal_lsu_config_t : Type := mk_lsu {
  lsu_opcode : Z;
  lsu_src_addr : Z;
  lsu_dst_addr : Z;
  lsu_length : Z;
  lsu_control : Z;
  lsu_status : Z
}.

(** [hal_systolic_config_t] *)
Record hal_systolic_config_t : Type := mk_systolic {
  sa_opcode : Z;
  sa_in_height : Z;
  sa_in_width : Z;
  sa_in_channels : Z;
  sa_out_height : Z;
  sa_out_width : Z;
  sa_out_channels : Z;
  sa_stride : Z;
  sa_control : Z;
  sa_status : Z
}.

(** [hal_img2col_config_t] *)
Record hal_img2col_config_t : Type := mk_img2col {
  i2c_opcode : Z;
  i2c_in_height : Z;
  i2c_in_width : Z;
  i2c_in_channels : Z;
  i2c_kernel_size : Z;
  i2c_stride : Z;
  i2c_pad : Z;
  i2c_control : Z;
  i2c_status : Z
}.

(** The [ir_data] union of [hal_controller_ir_t], by the member that was
    last stored. *)
Inductive ir_data_t : Type :=
| IrLsu (lsu : hal_lsu_config_t)
| IrSystolic (systolic_array : hal_systolic_config_t)
| IrImg2col (img2col : hal_img2col_config_t).

(** [hal_controller_ir_t] *)
Record hal_controller_ir_t : Type := mk_ir {
  ir_opcode : Z;
  ir_src_addr : Z;
  ir_dst_addr : Z;
  ir_length : Z;
  ir_control : Z;
  ir_status : Z;
  ir_data : ir_data_t
}.

(* ================================================================== *)
(** ** hal_mem.c : the device allocator *)

(** hal_mem.h *)
Definition HAL_MEM_ALIGN : Z := 64.

(** [struct mem_block]; the [next] link is the list structure. *)
Record mem_block : Type := mk_block {
  addr : Z;      (**r virtual address of block *)
  size : Z;      (**r size of block *)
  used : bool    (**r whether block is in use *)
}.

(** [sizeof(struct mem_block)] on LP64: pointer 8, size_t 8, bool 1 (+7
    padding), pointer 8. *)
Definition sizeof_mem_block : Z := 32.

(** [struct hal_mem_context] *)
Record hal_mem_context : Type := mk_mem {
  base_addr : Z;
  total_size : Z;
  blocks : list mem_block
}.

(** [static size_t align_size(size_t size)]:
    [(size + HAL_MEM_ALIGN - 1) & ~(HAL_MEM_ALIGN - 1)] in [size_t]
    arithmetic. *)
Definition align_size (sz : Z) : Z :=
  Z.land (wrap (sz + HAL_MEM_ALIGN - 1)) (wrap (Z.lnot (HAL_MEM_ALIGN - 1))).

(** The block list [hal_mem_init] builds: one unused block spanning the
    window. *)
Definition fresh_mem (base sz : Z) : hal_mem_context :=
  {| base_addr := base; total_size := sz;
     blocks := [ {| addr := base; size := sz; used := false |} ] |}.

(** The best-fit scan of [hal_mem_alloc] (lines 94-107).  [i] is the
    position of the head of [bs] in the whole list, [best_fit] the index of
    the node the C pointer [best_fit] designates. *)
Fixpoint find_best_fit (bs : list mem_block) (i : nat) (sz : Z)
         (best_fit : option nat) (best_size : Z) : option nat :=
  match bs with
  | [] => best_fit
  | block :: next =>
      if negb (used block) && (sz <=? size block) then
        if size block <? best_size
        then find_best_fit next (S i) sz (Some i) (size block)
        else find_best_fit next (S i) sz best_fit best_size
      else find_best_fit next (S i) sz best_fit best_size
  end.

(** The two nodes a split leaves in place of [best_fit] (lines 120-126,
    129). *)
Definition split_block (best_fit : mem_block) (sz : Z) : list mem_block :=
  [ {| addr := addr best_fit; size := sz; used := true |};
    {| addr := wrap (addr best_fit + sz);
       size := wrap (size best_fit - sz);
       used := false |} ].

Definition mark_used (b : mem_block) : mem_block :=
  {| addr := addr b; size := size b; used := true |}.

Definition set_blocks (m : hal_mem_context) (bs : list mem_block)
  : hal_mem_context :=
  {| base_addr := base_addr m; total_size := total_size m; blocks := bs |}.

(** Body of [hal_mem_alloc] after the NULL and zero-size checks.
    [malloc_ok] is the outcome of the host [malloc] of the node a split
    needs (line 115); it is consulted only when the split is taken. *)
Definition mem_alloc (m : hal_mem_context) (sz0 : Z) (malloc_ok : bool)
  : Z * hal_mem_context :=
  let sz := align_size sz0 in
  match find_best_fit (blocks m) 0 sz None SIZE_MAX with
  | None => (NULL, m)
  | Some i =>
      match nth_error (blocks m) i with
      | None => (NULL, m)
      | Some best_fit =>
          if wrap (sz + sizeof_mem_block + HAL_MEM_ALIGN) <? size best_fit then
            if malloc_ok then
              (addr best_fit,
               set_blocks m (firstn i (blocks m) ++ split_block best_fit sz
                             ++ skipn (S i) (blocks m)))
            else (NULL, m)
          else
            (addr best_fit,
             set_blocks m (firstn i (blocks m) ++ [mark_used best_fit]
                           ++ skipn (S i) (blocks m)))
      end
  end.

(** The search loop of [hal_mem_free] (lines 143-146): index of the first
    node whose address is [ptr]. *)
Fixpoint find_block (bs : list mem_block) (ptr : Z) (i : nat) : option nat :=
  match bs with
  | [] => None
  | block :: next =>
      if addr block =? ptr then Some i else find_block next ptr (S i)
  end.

Definition add_size (b : mem_block) (n : Z) : mem_block :=
  {| addr := addr b; size := wrap (size b + n); used := used b |}.

(** The forward merge loop (lines 155-160): [block] absorbs every unused
    node that follows it directly. *)
Fixpoint merge_next (block : mem_block) (next : list mem_block)
  : mem_block * list mem_block :=
  match next with
  | n :: rest =>
      if negb (used n) then merge_next (add_size block (size n)) rest
      else (block, next)
  | [] => (block, [])
  end.

Definition mark_unused (b : mem_block) : mem_block :=
  {| addr := addr b; size := size b; used := false |}.

(** Body of [hal_mem_free] after the NULL checks. *)
Definition mem_free (m : hal_mem_context) (ptr : Z) : hal_mem_context :=
  match find_block (blocks m) ptr 0 with
  | None => m
  | Some i =>
      match nth_error (blocks m) i with
      | None => m
      | Some block =>
          if negb (used block) then m
          else
            let '(block', rest) :=
              merge_next (mark_unused block) (skipn (S i) (blocks m)) in
            match i with
            | O => set_blocks m (block' :: rest)
            | S j =>
                match nth_error (blocks m) j with
                | None => m
                | Some prev =>
                    if negb (used prev) then
                      set_blocks m (firstn j (blocks m)
                                    ++ add_size prev (size block') :: rest)
                    else
                      set_blocks m (firstn i (blocks m) ++ block' :: rest)
                end
            end
      end
  end.

(** The accumulation loop of [hal_mem_available] (lines 193-198). *)
Fixpoint available_loop (bs : list mem_block) (available : Z) : Z :=
  match bs with
  | [] => available
  | block :: next =>
      available_loop next
        (if negb (used block) then wrap (available + size block)
         else available)
  end.

Definition mem_available (m : hal_mem_context) : Z :=
  available_loop (blocks m) 0.

(** Body of [hal_virt_to_phys] after the NULL checks. *)
Definition mem_virt_to_phys (m : hal_mem_context) (vaddr : Z) : Z :=
  if (vaddr <? base_addr m) || (wrap (base_addr m + total_size m) <=? vaddr)
  then 0
  else wrap (HAL_ACCEL_MEM_BASE + (vaddr - base_addr m)).

(* ================================================================== *)
(** ** The HAL context *)

(** What the HAL does that the outside can see: a read of the status word
    by the polling loop, a sleep, a store of a whole instruction register
    into the mapped register window. *)
Inductive hal_event : Type :=
| EvPoll (st : Z)
| EvSleep (usec : Z)
| EvRegWrite (ir : hal_controller_ir_t).

(** [struct hal_context].  [mapped_memory] is [None] for a NULL pointer and
    otherwise holds the register window as seen through the
    [hal_controller_ir_t*] cast; [mem_ctx] is [None] for NULL.

    Three ghost fields stand for the world around the struct: [device k s]
    is the status word after the [k]-th sleep of this context when it was
    [s] before (hardware or a test double calling [hal_set_status]; the
    identity when nothing else touches the struct), [clock] counts the
    sleeps so far, [trace] lists the events so far, oldest first. *)
Record hal_context : Type := mk_hal {
  fd : Z;
  status : Z;
  mapped_memory : option hal_controller_ir_t;
  accel_memory_base : Z;
  accel_memory_size : Z;
  mem_ctx : option hal_mem_context;
  device : nat -> Z -> Z;
  clock : nat;
  trace : list hal_event
}.

Definition set_status (c : hal_context) (s : Z) : hal_context :=
  mk_hal (fd c) s (mapped_memory c) (accel_memory_base c)
         (accel_memory_size c) (mem_ctx c) (device c) (clock c) (trace c).

Definition set_mapped_memory (c : hal_context)
           (r : option hal_controller_ir_t) : hal_context :=
  mk_hal (fd c) (status c) r (accel_memory_base c)
         (accel_memory_size c) (mem_ctx c) (device c) (clock c) (trace c).

Definition set_mem_ctx (c : hal_context) (m : option hal_mem_context)
  : hal_context :=
  mk_hal (fd c) (status c) (mapped_memory c) (accel_memory_base c)
         (accel_memory_size c) m (device c) (clock c) (trace c).

Definition log_event (c : hal_context) (e : hal_event) : hal_context :=
  mk_hal (fd c) (status c) (mapped_memory c) (accel_memory_base c)
         (accel_memory_size c) (mem_ctx c) (device c) (clock c)
         (trace c ++ [e]).

(** [usleep(usec)]: the device acts on the status word while the host
    sleeps. *)
Definition usleep (usec : Z) (c : hal_context) : hal_context :=
  mk_hal (fd c) (device c (clock c) (status c)) (mapped_memory c)
         (accel_memory_base c) (accel_memory_size c) (mem_ctx c)
         (device c) (S (clock c)) (trace c ++ [EvSleep usec]).

(** *** The entry points, on a possibly NULL context pointer *)

(** [hal_mem_init]; [malloc_ctx] and [malloc_block] are the outcomes of its
    two host allocations. *)
Definition hal_mem_init (c : hal_context) (base sz : Z)
           (malloc_ctx malloc_block : bool) : bool * hal_context :=
  if negb malloc_ctx then (false, c)
  else if negb malloc_block then (false, c)
  else (true, set_mem_ctx c (Some (fresh_mem base sz))).

Definition hal_mem_cleanup (ctx : option hal_context) : option hal_context :=
  match ctx with
  | None => None
  | Some c =>
      match mem_ctx c with
      | None => ctx
      | Some _ => Some (set_mem_ctx c None)
      end
  end.

Definition hal_mem_alloc (ctx : option hal_context) (sz : Z)
           (malloc_ok : bool) : Z * option hal_context :=
  match ctx with
  | None => (NULL, ctx)
  | Some c =>
      match mem_ctx c with
      | None => (NULL, ctx)
      | Some m =>
          if sz =? 0 then (NULL, ctx)
          else
            let '(p, m') := mem_alloc m sz malloc_ok in
            (p, Some (set_mem_ctx c (Some m')))
      end
  end.

Definition hal_mem_free (ctx : option hal_context) (ptr : Z)
  : option hal_context :=
  match ctx with
  | None => ctx
  | Some c =>
      match mem_ctx c with
      | None => ctx
      | Some m =>
          if ptr =? NULL then ctx
          else Some (set_mem_ctx c (Some (mem_free m ptr)))
      end
  end.

Definition hal_virt_to_phys (ctx : option hal_context) (vaddr : Z) : Z :=
  match ctx with
  | None => 0
  | Some c =>
      match mem_ctx c with
      | None => 0
      | Some m => mem_virt_to_phys m vaddr
      end
  end.

Definition hal_mem_available (ctx : option hal_context) : Z :=
  match ctx with
  | None => 0
  | Some c =>
      match mem_ctx c with
      | None => 0
      | Some m => mem_available m
      end
  end.

(* ================================================================== *)
(** ** hal_io.c : status bits and the polling wait *)

Definition hal_is_ready (ctx : option hal_context) : bool :=
  match ctx with
  | None => false
  | Some c => negb (Z.land (status c) HAL_STATUS_READY =? 0)
  end.

Definition hal_is_busy (ctx : option hal_context) : bool :=
  match ctx with
  | None => false
  | Some c => negb (Z.land (status c) HAL_STATUS_BUSY =? 0)
  end.

Definition hal_is_error (ctx : option hal_context) : bool :=
  match ctx with
  | None => false
  | Some c => negb (Z.land (status c) HAL_STATUS_ERROR =? 0)
  end.

Definition hal_get_status (ctx : option hal_context) : Z :=
  match ctx with
  | None => 0
  | Some c => status c
  end.

(** [void hal_set_status(hal_context_t* ctx, uint32_t status)]: the
    argument reaches the function as a [uint32_t], that is, reduced
    modulo 2^32. *)
Definition hal_set_status (ctx : option hal_context) (s : Z)
  : option hal_context :=
  match ctx with
  | None => None
  | Some c => Some (set_status c (s mod 2 ^ 32))
  end.

(** [int retries = 100] *)
Definition MAX_RETRIES : nat := 100.

(** The loop [while (retries-- > 0) { if (hal_is_ready(ctx)) return true;
    usleep(1000); } return false;] with [retries] iterations left. *)
Fixpoint wait_loop (retries : nat) (c : hal_context) : bool * hal_context :=
  match retries with
  | O => (false, c)
  | S retries' =>
      let c1 := log_event c (EvPoll (status c)) in
      if hal_is_ready (Some c1) then (true, c1)
      else wait_loop retries' (usleep 1000 c1)
  end.

Definition hal_wait_for_ready (ctx : option hal_context)
  : bool * option hal_context :=
  match ctx with
  | None => (false, None)
  | Some c =>
      let '(r, c') := wait_loop MAX_RETRIES c in (r, Some c')
  end.

(* ================================================================== *)
(** ** hal_config.c : the register programmer *)

(** [static bool write_config(ctx, config)]; the
    [memcpy] of [sizeof(hal_controller_ir_t)] bytes replaces the whole
    record in the window. *)
Definition write_config (ctx : option hal_context)
           (config : option hal_controller_ir_t)
  : bool * option hal_context :=
  match ctx, config with
  | None, _ => (false, ctx)
  | Some _, None => (false, ctx)
  | Some _, Some ir_new =>
      match hal_wait_for_ready ctx with
      | (false, ctx1) => (false, ctx1)
      | (true, None) => (false, None)
      | (true, Some c1) =>
          match mapped_memory c1 with
          | None => (false, Some c1)
          | Some _ =>
              (true,
               Some (log_event (set_mapped_memory c1 (Some ir_new))
                               (EvRegWrite ir_new)))
          end
      end
  end.

(** [hal_controller_ir_t ir = {0}] with one member of the union stored. *)
Definition ir_with (d : ir_data_t) : hal_controller_ir_t :=
  {| ir_opcode := 0; ir_src_addr := 0; ir_dst_addr := 0; ir_length := 0;
     ir_control := 0; ir_status := 0; ir_data := d |}.

(** The three entry points copy from [config] without testing it, so it
    is a record here, not a pointer. *)
Definition hal_configure_lsu (ctx : option hal_context)
           (config : hal_lsu_config_t) : bool * option hal_context :=
  write_config ctx (Some (ir_with (IrLsu config))).

Definition hal_configure_systolic (ctx : option hal_context)
           (config : hal_systolic_config_t) : bool * option hal_context :=
  write_config ctx (Some (ir_with (IrSystolic config))).

Definition hal_configure_img2col (ctx : option hal_context)
           (config : hal_img2col_config_t) : bool * option hal_context :=
  write_config ctx (Some (ir_with (IrImg2col config))).

(* ================================================================== *)
(** ** hal_base.c : context lifecycle *)

(** What the operating system answers to the calls of [hal_init]. *)
Record os_env : Type := mk_os {
  os_malloc_ctx : bool;                         (**r [malloc] of the context *)
  os_open : string -> Z;                        (**r [open]: fd, negative on failure *)
  os_mmap_regs : option hal_controller_ir_t;    (**r register window, [None] for [MAP_FAILED] *)
  os_mmap_mem : option Z;                       (**r accelerator memory, [None] for [MAP_FAILED] *)
  os_malloc_mem_ctx : bool;                     (**r first [malloc] of [hal_mem_init] *)
  os_malloc_block : bool;                       (**r second [malloc] of [hal_mem_init] *)
  os_device : nat -> Z -> Z                     (**r the device behind the mapping *)
}.

Definition hal_init (os : os_env) (device_path : string)
  : option hal_context :=
  if negb (os_malloc_ctx os) then None
  else
    let fd0 := os_open os device_path in
    if fd0 <? 0 then None
    else
      match os_mmap_regs os with
      | None => None
      | Some regs =>
          match os_mmap_mem os with
          | None => None
          | Some base =>
              let ctx :=
                {| fd := fd0; status := HAL_STATUS_READY;
                   mapped_memory := Some regs;
                   accel_memory_base := base;
                   accel_memory_size := HAL_ACCEL_MEM_SIZE;
                   mem_ctx := None;
                   device := os_device os; clock := O; trace := [] |} in
              match hal_mem_init ctx base HAL_ACCEL_MEM_SIZE
                                 (os_malloc_mem_ctx os) (os_malloc_block os) with
              | (false, _) => None
              | (true, ctx') => Some ctx'
              end
          end
      end.

(* ================================================================== *)
(** ** accel_types.h, accel_config.h *)

Inductive accel_op_type_t : Type :=
| ACCEL_OP_NONE
| ACCEL_OP_MATMUL
| ACCEL_OP_CONV2D.

Inductive accel_status_t : Type :=
| ACCEL_STATUS_OK
| ACCEL_STATUS_ERROR
| ACCEL_STATUS_INVALID_PARAM
| ACCEL_STATUS_NO_MEMORY
| ACCEL_STATUS_TIMEOUT
| ACCEL_STATUS_BUSY
| ACCEL_STATUS_NOT_INITIALIZED.

(** [accel_buffer_t]; the C field [size] is [buf_size] here. *)
Record accel_buffer_t : Type := mk_buffer {
  host_addr : Z;
  dev_addr : Z;
  buf_size : Z
}.

(** [accel_op_params_t] *)
Record accel_op_params_t : Type := mk_params {
  op_type : accel_op_type_t;
  input : accel_buffer_t;
  output : accel_buffer_t;
  weights : accel_buffer_t;
  flags : Z
}.

Definition ACCEL_CONFIG_ENABLE_DMA : Z := Z.shiftl 1 0.
Definition ACCEL_CONFIG_SYNC_MODE : Z := Z.shiftl 1 1.
Definition ACCEL_CONFIG_HIGH_PRIORITY : Z := Z.shiftl 1 2.

(** [accel_config_t]; the C field [flags] is [cfg_flags] here. *)
Record accel_config_t : Type := mk_config {
  cfg_flags : Z;
  num_channels : Z;
  max_transfer : Z;
  timeout_ms : Z
}.

(* ================================================================== *)
(** ** accel.c, accel_config.c : the driver facade *)

(** The global [g_ctx]. *)
Record g_ctx_t : Type := mk_g {
  hal : option hal_context;
  config : accel_config_t;
  last_error : string;
  initialized : bool
}.

(** [g_ctx = {0}] *)
Definition g_ctx_zero : g_ctx_t :=
  {| hal := None;
     config := {| cfg_flags := 0; num_channels := 0; max_transfer := 0;
                  timeout_ms := 0 |};
     last_error := EmptyString;
     initialized := false |}.

Definition set_hal (g : g_ctx_t) (h : option hal_context) : g_ctx_t :=
  mk_g h (config g) (last_error g) (initialized g).
Definition set_config (g : g_ctx_t) (c : accel_config_t) : g_ctx_t :=
  mk_g (hal g) c (last_error g) (initialized g).
Definition set_last_error (g : g_ctx_t) (e : string) : g_ctx_t :=
  mk_g (hal g) (config g) e (initialized g).
Definition set_initialized (g : g_ctx_t) (b : bool) : g_ctx_t :=
  mk_g (hal g) (config g) (last_error g) b.

Definition HAL_OP_MATMUL : Z := 1.
Definition HAL_OP_CONV : Z := 2.

Definition convert_hal_status (hal_status : Z) : accel_status_t :=
  if negb (Z.land hal_status HAL_STATUS_ERROR =? 0) then ACCEL_STATUS_ERROR
  else if negb (Z.land hal_status HAL_STATUS_BUSY =? 0) then ACCEL_STATUS_BUSY
  else ACCEL_STATUS_OK.

Definition accel_init (os : os_env) (g : g_ctx_t)
           (device_path : option string) : accel_status_t * g_ctx_t :=
  match device_path with
  | None => (ACCEL_STATUS_INVALID_PARAM, g)
  | Some path =>
      if initialized g then (ACCEL_STATUS_OK, g)
      else
        match hal_init os path with
        | None =>
            (ACCEL_STATUS_ERROR,
             set_last_error (set_hal g None) "Failed to initialize HAL")
        | Some h => (ACCEL_STATUS_OK, set_initialized (set_hal g (Some h)) true)
        end
  end.

Definition accel_cleanup (g : g_ctx_t) : g_ctx_t :=
  if initialized g then g_ctx_zero else g.

(** [accel_alloc_buffer]; [malloc_desc] is the outcome of the host
    [malloc] of the descriptor, [malloc_node] that of the list node inside
    [hal_mem_alloc]. *)
Definition accel_alloc_buffer (g : g_ctx_t) (sz : Z)
           (malloc_desc malloc_node : bool)
  : option accel_buffer_t * g_ctx_t :=
  if negb (initialized g) then (None, g)
  else if negb malloc_desc then
    (None, set_last_error g "Failed to allocate buffer descriptor")
  else
    let '(p, h') := hal_mem_alloc (hal g) sz malloc_node in
    if p =? NULL then
      (None, set_last_error (set_hal g h') "Failed to allocate device memory")
    else
      (Some {| host_addr := p; dev_addr := hal_virt_to_phys h' p;
               buf_size := sz |},
       set_hal g h').

Definition accel_free_buffer (g : g_ctx_t) (buffer : option accel_buffer_t)
  : g_ctx_t :=
  match buffer with
  | None => g
  | Some b =>
      if initialized g then
        if negb (host_addr b =? NULL)
        then set_hal g (hal_mem_free (hal g) (host_addr b))
        else g
      else g
  end.

(** [hal_systolic_config_t systolic_cfg = {0}] with [opcode] and [control]
    stored. *)
Definition systolic_cfg_of (opcode control : Z) : hal_systolic_config_t :=
  {| sa_opcode := opcode; sa_in_height := 0; sa_in_width := 0;
     sa_in_channels := 0; sa_out_height := 0; sa_out_width := 0;
     sa_out_channels := 0; sa_stride := 0; sa_control := control;
     sa_status := 0 |}.

(** [hal_lsu_config_t lsu_cfg = {0}] with [src_addr], [dst_addr] and
    [length] stored. *)
Definition lsu_cfg_of (src dst len : Z) : hal_lsu_config_t :=
  {| lsu_opcode := 0; lsu_src_addr := src; lsu_dst_addr := dst;
     lsu_length := len; lsu_control := 0; lsu_status := 0 |}.

(** The part of [accel_submit_op] after the [switch] (lines 140-148). *)
Definition submit_lsu (g : g_ctx_t) (params : accel_op_params_t)
  : accel_status_t * g_ctx_t :=
  let lsu_cfg := lsu_cfg_of (dev_addr (input params))
                            (dev_addr (output params))
                            (buf_size (input params)) in
  match hal_configure_lsu (hal g) lsu_cfg with
  | (false, h') => (ACCEL_STATUS_ERROR, set_hal g h')
  | (true, h') => (ACCEL_STATUS_OK, set_hal g h')
  end.

Definition accel_submit_op (g : g_ctx_t) (params : option accel_op_params_t)
  : accel_status_t * g_ctx_t :=
  if negb (initialized g) then (ACCEL_STATUS_NOT_INITIALIZED, g)
  else
    match params with
    | None => (ACCEL_STATUS_INVALID_PARAM, g)
    | Some p =>
        match op_type p with
        | ACCEL_OP_MATMUL =>
            match hal_configure_systolic (hal g)
                    (systolic_cfg_of HAL_OP_MATMUL (flags p)) with
            | (false, h') => (ACCEL_STATUS_ERROR, set_hal g h')
            | (true, h') => submit_lsu (set_hal g h') p
            end
        | ACCEL_OP_CONV2D =>
            match hal_configure_systolic (hal g)
                    (systolic_cfg_of HAL_OP_CONV (flags p)) with
            | (false, h') => (ACCEL_STATUS_ERROR, set_hal g h')
            | (true, h') => submit_lsu (set_hal g h') p
            end
        | ACCEL_OP_NONE => (ACCEL_STATUS_INVALID_PARAM, g)
        end
    end.

(** [accel_wait_complete]; the parameter [timeout_ms] does not occur in
    the body. *)
Definition accel_wait_complete (g : g_ctx_t) (timeout : Z)
  : accel_status_t * g_ctx_t :=
  if negb (initialized g) then (ACCEL_STATUS_NOT_INITIALIZED, g)
  else
    match hal_wait_for_ready (hal g) with
    | (false, h') =>
        (ACCEL_STATUS_TIMEOUT,
         set_last_error (set_hal g h') "Operation timed out")
    | (true, h') =>
        (convert_hal_status (hal_get_status h'), set_hal g h')
    end.

Definition accel_get_error (g : g_ctx_t) : string := last_error g.

Definition accel_configure (g : g_ctx_t) (cfg : option accel_config_t)
  : accel_status_t * g_ctx_t :=
  if negb (initialized g) then (ACCEL_STATUS_NOT_INITIALIZED, g)
  else
    match cfg with
    | None => (ACCEL_STATUS_INVALID_PARAM, g)
    | Some c => (ACCEL_STATUS_OK, set_config g c)
    end.

(** [accel_get_config]; [out] tells whether the destination pointer is
    non-NULL, the second component of the result is what is stored
    through it. *)
Definition accel_get_config (g : g_ctx_t) (out : bool)
  : accel_status_t * option accel_config_t * g_ctx_t :=
  if negb (initialized g) then (ACCEL_STATUS_NOT_INITIALIZED, None, g)
  else if negb out then (ACCEL_STATUS_INVALID_PARAM, None, g)
  else (ACCEL_STATUS_OK, Some (config g), g).

Definition accel_reset_config (g : g_ctx_t) : accel_status_t * g_ctx_t :=
  if negb (initialized g) then (ACCEL_STATUS_NOT_INITIALIZED, g)
  else
    (ACCEL_STATUS_OK,
     set_config g {| cfg_flags := ACCEL_CONFIG_ENABLE_DMA;
                     num_channels := 1;
                     max_transfer := 16777216;   (* 0x1000000 *)
                     timeout_ms := 1000 |}).

(* ================================================================== *)
(** ** runtime.hpp : the runtime wrapper *)

(** A call that returns or throws [std::runtime_error]. *)
Inductive outcome : Type :=
| Returned
| Thrown (what : string).

Definition SubmitAndWait (g : g_ctx_t) (params : accel_op_params_t)
  : outcome * g_ctx_t :=
  match accel_submit_op g (Some params) with
  | (ACCEL_STATUS_OK, g1) =>
      match accel_wait_complete g1 0 with   (* Wait indefinitely *)
      | (ACCEL_STATUS_OK, g2) => (Returned, g2)
      | (_, g2) =>
          (Thrown (String.append "Operation failed: " (accel_get_error g2)), g2)
      end
  | (_, g1) =>
      (Thrown (String.append "Failed to submit operation: "
                             (accel_get_error g1)), g1)
  end.

(** [Runtime::MatrixMultiply]; a [Buffer] is the descriptor its [buffer_]
    points to. *)
Definition MatrixMultiply (g : g_ctx_t)
           (input_b weights_b output_b : accel_buffer_t)
  : outcome * g_ctx_t :=
  SubmitAndWait g {| op_type := ACCEL_OP_MATMUL; input := input_b;
                     output := output_b; weights := weights_b; flags := 0 |}.

Definition Convolution2D (g : g_ctx_t)
           (input_b weights_b output_b : accel_buffer_t)
  : outcome * g_ctx_t :=
  SubmitAndWait g {| op_type := ACCEL_OP_CONV2D; input := input_b;
                     output := output_b; weights := weights_b; flags := 0 |}.

(* ================================================================== *)
(** ** Sequences of allocator calls *)

(** One call of the allocator API as a client issues it. *)
Inductive mem_op : Type :=
| Alloc (sz : Z) (malloc_ok : bool)
| Free (ptr : Z).

(** Removes the first occurrence of [p]. *)
Fixpoint remove_one (p : Z) (l : list Z) : list Z :=
  match l with
  | [] => []
  | q :: l' => if q =? p then l' else q :: remove_one p l'
  end.

(** The client keeps the pointers it was handed and has not yet freed
    ([live]); a failed [hal_mem_alloc] hands out nothing. *)
Definition mem_step (st : option hal_context * list Z) (op : mem_op)
  : option hal_context * list Z :=
  let '(ctx, live) := st in
  match op with
  | Alloc sz ok =>
      let '(p, ctx') := hal_mem_alloc ctx sz ok in
      (ctx', if p =? NULL then live else p :: live)
  | Free ptr => (hal_mem_free ctx ptr, remove_one ptr live)
  end.

Definition run_ops (ops : list mem_op) (st : option hal_context * list Z)
  : option hal_context * list Z :=
  fold_left mem_step ops st.

(** The context right after a successful [hal_mem_init] over the window
    [[base, base + sz)], with no pointer handed out yet. *)
Definition fresh_ctx (c : hal_context) (base sz : Z)
  : option hal_context * list Z :=
  (Some (snd (hal_mem_init c base sz true true)), []).

Definition ctx_blocks (ctx : option hal_context) : list mem_block :=
  match ctx with
  | Some c =>
      match mem_ctx c with
      | Some m => blocks m
      | None => []
      end
  | None => []
  end.

(** The same sequences on the allocator state alone. *)
Definition mem_step_core (m : hal_mem_context) (op : mem_op)
  : hal_mem_context :=
  match op with
  | Alloc sz ok => if sz =? 0 then m else snd (mem_alloc m sz ok)
  | Free ptr => if ptr =? NULL then m else mem_free m ptr
  end.

(** The pointers the client holds after [op], given those it held
    before and the allocator state [m] the call ran in. *)
Definition live_step_core (m : hal_mem_context) (live : list Z) (op : mem_op)
  : list Z :=
  match op with
  | Alloc sz ok =>
      if sz =? 0 then live
      else if fst (mem_alloc m sz ok) =? NULL then live
           else fst (mem_alloc m sz ok) :: live
  | Free ptr => remove_one ptr live
  end.

Definition step_core (st : hal_mem_context * list Z) (op : mem_op)
  : hal_mem_context * list Z :=
  (mem_step_core (fst st) op, live_step_core (fst st) (snd st) op).

(** A request for which neither the rounding nor the split threshold
    leaves [size_t]. *)
Definition request_ok (op : mem_op) : Prop :=
  match op with
  | Alloc sz _ =>
      0 <= sz /\
      sz + (HAL_MEM_ALIGN - 1) + sizeof_mem_block + HAL_MEM_ALIGN
      < 2 ^ SIZE_BITS
  | Free _ => True
  end.

(* ================================================================== *)
(** ** Properties of block lists *)

Fixpoint sum_sizes (bs : list mem_block) : Z :=
  match bs with
  | [] => 0
  | b :: rest => size b + sum_sizes rest
  end.

(** Addresses of the blocks in use, in list order. *)
Definition used_addrs (bs : list mem_block) : list Z :=
  map addr (filter used bs).

(** The blocks tile [[a, e)] in list order: each starts where the previous
    one ends. *)
Fixpoint contiguous (a : Z) (bs : list mem_block) (e : Z) : Prop :=
  match bs with
  | [] => a = e
  | b :: rest => addr b = a /\ 0 <= size b /\ contiguous (a + size b) rest e
  end.

(** No two neighbours in the list are both unused. *)
Fixpoint no_adjacent_free (bs : list mem_block) : bool :=
  match bs with
  | b1 :: ((b2 :: _) as tl) => (used b1 || used b2) && no_adjacent_free tl
  | _ => true
  end.

Definition head_free (bs : list mem_block) : bool :=
  match bs with
  | [] => false
  | b :: _ => negb (used b)
  end.

Definition last_free (bs : list mem_block) : bool :=
  negb (used (last bs (mk_block 0 0 true))).

Definition aligned (a : Z) : Prop := a mod HAL_MEM_ALIGN = 0.

(** The client's pointers are exactly the addresses of the blocks in use,
    the blocks tile the window, and no two blocks share an address. *)
Definition balanced (base total : Z) (st : hal_mem_context * list Z) : Prop :=
  contiguous base (blocks (fst st)) (base + total) /\
  NoDup (map addr (blocks (fst st))) /\
  Permutation (snd st) (used_addrs (blocks (fst st))).

(** An unused block large enough for a request of [sz] bytes. *)
Definition fits (sz : Z) (b : mem_block) : Prop :=
  used b = false /\ sz <= size b.

(** Rounding up to the alignment boundary, as a number. *)
Definition round_up (sz : Z) : Z :=
  HAL_MEM_ALIGN * ((sz + HAL_MEM_ALIGN - 1) / HAL_MEM_ALIGN).

(** The freeing step as the specification words it: the located block
    absorbs the block right after it if that one is unused, once. *)
Definition merge_next_once (block : mem_block) (next : list mem_block)
  : mem_block * list mem_block :=
  match next with
  | n :: rest =>
      if negb (used n) then (add_size block (size n), rest)
      else (block, next)
  | [] => (block, [])
  end.

(** [mem_free] with [merge_next_once] in place of the loop [merge_next]. *)
Definition mem_free_spec (m : hal_mem_context) (ptr : Z) : hal_mem_context :=
  match find_block (blocks m) ptr 0 with
  | None => m
  | Some i =>
      match nth_error (blocks m) i with
      | None => m
      | Some block =>
          if negb (used block) then m
          else
            let '(block', rest) :=
              merge_next_once (mark_unused block) (skipn (S i) (blocks m)) in
            match i with
            | O => set_blocks m (block' :: rest)
            | S j =>
                match nth_error (blocks m) j with
                | None => m
                | Some prev =>
                    if negb (used prev) then
                      set_blocks m (firstn j (blocks m)
                                    ++ add_size prev (size block') :: rest)
                    else
                      set_blocks m (firstn i (blocks m) ++ block' :: rest)
                end
            end
      end
  end.

Definition hal_mem_free_spec (ctx : option hal_context) (ptr : Z)
  : option hal_context :=
  match ctx with
  | None => ctx
  | Some c =>
      match mem_ctx c with
      | None => ctx
      | Some m =>
          if ptr =? NULL then ctx
          else Some (set_mem_ctx c (Some (mem_free_spec m ptr)))
      end
  end.

(* ================================================================== *)
(** ** Observations of a wait *)

(** The status word [k] sleeps after the clock read [clk] with the word
    at [s]. *)
Fixpoint status_at (dev : nat -> Z -> Z) (clk : nat) (s : Z) (k : nat) : Z :=
  match k with
  | O => s
  | S k' => status_at dev (S clk) (dev clk s) k'
  end.

Definition ready_word (s : Z) : bool :=
  negb (Z.land s HAL_STATUS_READY =? 0).

(** The events of [k] rounds of poll-then-sleep. *)
Fixpoint poll_rounds (dev : nat -> Z -> Z) (clk : nat) (s : Z) (k : nat)
  : list hal_event :=
  match k with
  | O => []
  | S k' =>
      EvPoll s :: EvSleep 1000 :: poll_rounds dev (S clk) (dev clk s) k'
  end.

(** The context after [k] rounds of poll-then-sleep. *)
Definition slept (c : hal_context) (k : nat) : hal_context :=
  mk_hal (fd c) (status_at (device c) (clock c) (status c) k)
         (mapped_memory c) (accel_memory_base c) (accel_memory_size c)
         (mem_ctx c) (device c) (clock c + k)%nat
         (trace c ++ poll_rounds (device c) (clock c) (status c) k).

Definition is_reg_write (e : hal_event) : bool :=
  match e with
  | EvRegWrite _ => true
  | _ => false
  end.

Definition is_poll (e : hal_event) : bool :=
  match e with
  | EvPoll _ => true
  | _ => false
  end.

Definition ctx_trace (ctx : option hal_context) : list hal_event :=
  match ctx with
  | Some c => trace c
  | None => []
  end.

Definition reg_window (ctx : option hal_context)
  : option hal_controller_ir_t :=
  match ctx with
  | Some c => mapped_memory c
  | None => None
  end.

(** The register writes a context has seen. *)
Definition reg_writes (ctx : option hal_context) : list hal_event :=
  filter is_reg_write (ctx_trace ctx).

(** The number of status polls a context has seen. *)
Definition polls (ctx : option hal_context) : nat :=
  length (filter is_poll (ctx_trace ctx)).

(* ================================================================== *)
(** ** test_hal_mem.c : the fragmentation scenario *)



(* ================================================================== *)
(** ** Concrete contexts for worked examples *)

(** A device whose status word nobody else writes. *)
Definition idle_device : nat -> Z -> Z := fun _ s => s.

(** A device that shows BUSY until its [n]-th sleep is over and READY
    from then on. *)
Definition ready_after (n : nat) : nat -> Z -> Z :=
  fun k _ => if Nat.ltb (S k) n then HAL_STATUS_BUSY else HAL_STATUS_READY.

Definition blank_ir : hal_controller_ir_t := ir_with (IrLsu (lsu_cfg_of 0 0 0)).

(** An open context over the reference window with status [st] and device
    [dev], allocator not yet initialised. *)
Definition sample_context (st : Z) (dev : nat -> Z -> Z) : hal_context :=
  {| fd := 3; status := st; mapped_memory := Some blank_ir;
     accel_memory_base := 4096; accel_memory_size := HAL_ACCEL_MEM_SIZE;
     mem_ctx := None; device := dev; clock := O; trace := [] |}.

(** An initialised driver session around a context. *)
Definition sample_session (c : hal_context) : g_ctx_t :=
  {| hal := Some c; config := config g_ctx_zero;
     last_error := EmptyString; initialized := true |}.

(** An operating system that grants every request of [hal_init] and maps
    the accelerator memory at 4096. *)
Definition sample_os : os_env :=
  {| os_malloc_ctx := true; os_open := fun _ => 3;
     os_mmap_regs := Some blank_ir; os_mmap_mem := Some 4096;
     os_malloc_mem_ctx := true; os_malloc_block := true;
     os_device := idle_device |}.

(* ================================================================== *)
(** ** Accounting *)

(** Total size of the blocks in use. *)
Definition used_total (bs : list mem_block) : Z :=
  sum_sizes (filter used bs).

(** What a run of non-overflowing requests keeps true of the allocator
    state over the window [[base, base + total)]. *)
Definition mem_wf (base total : Z) (m : hal_mem_context) : Prop :=
  base_addr m = base /\ total_size m = total /\
  contiguous base (blocks m) (base + total) /\
  NoDup (map addr (blocks m)) /\
  no_adjacent_free (blocks m) = true.



(* ================================================================== *)
(** ** Sequences of driver calls *)

Definition ctx_mem (ctx : option hal_context) : option hal_mem_context :=
  match ctx with
  | Some c => mem_ctx c
  | None => None
  end.

(** One call of the driver API (accel.h, accel_config.h). *)
Inductive accel_call : Type :=
| CallInit (device_path : option string)
| CallCleanup
| CallAllocBuffer (sz : Z) (malloc_desc malloc_node : bool)
| CallFreeBuffer (buffer : option accel_buffer_t)
| CallSubmitOp (params : option accel_op_params_t)
| CallWaitComplete (timeout : Z)
| CallConfigure (cfg : option accel_config_t)
| CallGetConfig (out : bool)
| CallResetConfig.

(** [os] answers every [accel_init] of the run. *)
Definition accel_step (os : os_env) (g : g_ctx_t) (call : accel_call)
  : g_ctx_t :=
  match call with
  | CallInit device_path => snd (accel_init os g device_path)
  | CallCleanup => accel_cleanup g
  | CallAllocBuffer sz md mn => snd (accel_alloc_buffer g sz md mn)
  | CallFreeBuffer b => accel_free_buffer g b
  | CallSubmitOp p => snd (accel_submit_op g p)
  | CallWaitComplete t => snd (accel_wait_complete g t)
  | CallConfigure cfg => snd (accel_configure g cfg)
  | CallGetConfig out => snd (accel_get_config g out)
  | CallResetConfig => snd (accel_reset_config g)
  end.

Definition run_accel (os : os_env) (calls : list accel_call) (g : g_ctx_t)
  : g_ctx_t :=
  fold_left (accel_step os) calls g.

(** [uint32_t] *)
Definition UINT32_MAX : Z := 2 ^ 32 - 1.

(** The size handed to [accel_alloc_buffer] is a [uint32_t]. *)
Definition call_ok (call : accel_call) : Prop :=
  match call with
  | CallAllocBuffer sz _ _ => 0 <= sz <= UINT32_MAX
  | _ => True
  end.

(** A live session whose allocator is well formed over the window at
    [base], with every block on the alignment boundary. *)
Definition session_wf (base : Z) (g : g_ctx_t) : Prop :=
  initialized g = true /\
  exists m,
    ctx_mem (hal g) = Some m /\
    mem_wf base HAL_ACCEL_MEM_SIZE m /\
    Forall (fun b => aligned (addr b)) (blocks m).

(** A session that is torn down, or else live and well formed. *)
Definition session_ok (base : Z) (g : g_ctx_t) : Prop :=
  initialized g = true -> session_wf base g.


(** The operating system grants everything [hal_init] asks for and maps
    the accelerator memory at [base]. *)
Definition os_grants (os : os_env) (path : string) (base : Z) : Prop :=
  os_malloc_ctx os = true /\ 0 <= os_open os path /\
  os_mmap_regs os <> None /\ os_mmap_mem os = Some base /\
  os_malloc_mem_ctx os = true /\ os_malloc_block os = true.

(** The records [accel_submit_op] stores for [p]. *)
Definition systolic_ir_of (p : accel_op_params_t) : hal_controller_ir_t :=
  ir_with (IrSystolic
             (systolic_cfg_of
                (match op_type p with
                 | ACCEL_OP_CONV2D => HAL_OP_CONV
                 | _ => HAL_OP_MATMUL
                 end)
                (flags p))).

Definition lsu_ir_of (p : accel_op_params_t) : hal_controller_ir_t :=
  ir_with (IrLsu (lsu_cfg_of (dev_addr (input p)) (dev_addr (output p))
                             (buf_size (input p)))).

(** The defaults [accel_reset_config] stores. *)
Definition default_config : accel_config_t :=
  {| cfg_flags := ACCEL_CONFIG_ENABLE_DMA; num_channels := 1;
     max_transfer := 16777216; timeout_ms := 1000 |}.

(** A call of the register programmer that went through: [r] is what it
    returned on [ctx] when asked to store [ir]. *)
Definition programmed (ctx : option hal_context)
           (r : bool * option hal_context) (ir : hal_controller_ir_t)
  : Prop :=
  fst r = true /\
  reg_window (snd r) = Some ir /\
  ctx_trace (snd r) =
    ctx_trace (snd (hal_wait_for_ready ctx)) ++ [EvRegWrite ir] /\
  reg_writes (snd r) = reg_writes ctx ++ [EvRegWrite ir] /\
  hal_get_status (snd r) = hal_get_status (snd (hal_wait_for_ready ctx)) /\
  ctx_mem (snd r) = ctx_mem ctx.

(** A call of the register programmer that was turned down before any
    store. *)
Definition turned_down (ctx : option hal_context)
           (r : bool * option hal_context) : Prop :=
  fst r = false /\
  reg_window (snd r) = reg_window ctx /\
  reg_writes (snd r) = reg_writes ctx /\
  ctx_mem (snd r) = ctx_mem ctx.

(* ================================================================== *)
(** ** buffer.hpp, runtime.hpp : construction and destruction *)

(** [Runtime::Runtime(const std::string&)]; [c_str()] is never NULL. *)
Definition Runtime_ctor (os : os_env) (g : g_ctx_t) (device_path : string)
  : outcome * g_ctx_t :=
  match accel_init os g (Some device_path) with
  | (ACCEL_STATUS_OK, g1) =>
      match accel_reset_config g1 with
      | (ACCEL_STATUS_OK, g2) => (Returned, g2)
      | (_, g2) =>
          (Thrown (String.append "Failed to reset configuration: "
                                 (accel_get_error g2)), g2)
      end
  | (_, g1) =>
      (Thrown (String.append "Failed to initialize runtime: "
                             (accel_get_error g1)), g1)
  end.

(** [Runtime::~Runtime()] *)
Definition Runtime_dtor (g : g_ctx_t) : g_ctx_t := accel_cleanup g.

(** [Runtime::Configure] with all four arguments given. *)
Definition Configure (g : g_ctx_t) (fl nch maxt tmo : Z)
  : outcome * g_ctx_t :=
  match accel_configure g (Some {| cfg_flags := fl; num_channels := nch;
                                   max_transfer := maxt;
                                   timeout_ms := tmo |}) with
  | (ACCEL_STATUS_OK, g1) => (Returned, g1)
  | (_, g1) =>
      (Thrown (String.append "Failed to configure runtime: "
                             (accel_get_error g1)), g1)
  end.

(** [Buffer::Buffer(size_t size)]: the [size_t] argument is narrowed to
    the [uint32_t] parameter of [accel_alloc_buffer].  The first component
    is the member [buffer_]. *)
Definition Buffer_ctor (g : g_ctx_t) (sz : Z) (malloc_desc malloc_node : bool)
  : option accel_buffer_t * outcome * g_ctx_t :=
  match accel_alloc_buffer g (sz mod 2 ^ 32) malloc_desc malloc_node with
  | (Some b, g1) => (Some b, Returned, g1)
  | (None, g1) =>
      (None,
       Thrown (String.append "Failed to allocate buffer: "
                             (accel_get_error g1)), g1)
  end.

(** [Buffer::~Buffer()] *)
Definition Buffer_dtor (g : g_ctx_t) (buffer_ : option accel_buffer_t)
  : g_ctx_t :=
  match buffer_ with
  | Some b => accel_free_buffer g (Some b)
  | None => g
  end.

(** [Buffer::size()] on a handle whose [buffer_] is not NULL. *)
Definition Buffer_size (b : accel_buffer_t) : Z := buf_size b.

(* ================================================================== *)
(** * Proofs *)

(** ** Words and rounding *)

Ltac word_lia :=
  unfold SIZE_MAX, SIZE_BITS, sizeof_mem_block, HAL_MEM_ALIGN, NULL in *; lia.

Lemma wrap_small (z : Z) : 0 <= z < 2 ^ SIZE_BITS -> wrap z = z.
Proof. intros H. unfold wrap. apply Z.mod_small. exact H. Qed.

Lemma wrap_range (z : Z) : 0 <= wrap z < 2 ^ SIZE_BITS.
Proof. unfold wrap. apply Z.mod_pos_bound. reflexivity. Qed.

Lemma land_align_mask (x : Z) :
  0 <= x < 2 ^ SIZE_BITS ->
  Z.land x (wrap (Z.lnot (HAL_MEM_ALIGN - 1))) = HAL_MEM_ALIGN * (x / HAL_MEM_ALIGN).
Proof.
  intros Hx.
  replace (wrap (Z.lnot (HAL_MEM_ALIGN - 1))) with (Z.shiftl (Z.ones 58) 6)
    by reflexivity.
  replace (HAL_MEM_ALIGN * (x / HAL_MEM_ALIGN)) with (Z.shiftl (Z.shiftr x 6) 6).
  2:{ rewrite Z.shiftl_mul_pow2, Z.shiftr_div_pow2 by lia.
      change (2 ^ 6) with HAL_MEM_ALIGN. lia. }
  apply Z.bits_inj'. intros n Hn.
  rewrite Z.land_spec.
  destruct (Z.ltb_spec n 6) as [Hlt | Hge].
  - rewrite !Z.shiftl_spec_low by lia. apply andb_false_r.
  - rewrite !Z.shiftl_spec by lia.
    rewrite Z.shiftr_spec by lia.
    replace (n - 6 + 6) with n by lia.
    destruct (Z.ltb_spec n 64) as [Hlt64 | Hge64].
    + rewrite Z.ones_spec_low by lia. apply andb_true_r.
    + rewrite Z.ones_spec_high by lia. rewrite andb_false_r.
      symmetry. destruct (Z.eq_dec x 0) as [-> | Hnz].
      * apply Z.testbit_0_l.
      * apply Z.bits_above_log2; [lia |].
        assert (Z.log2 x < 64); [| lia].
        apply Z.log2_lt_pow2; [lia |]. unfold SIZE_BITS in Hx. lia.
Qed.

Lemma align_size_eq (sz : Z) :
  align_size sz = HAL_MEM_ALIGN * (wrap (sz + HAL_MEM_ALIGN - 1) / HAL_MEM_ALIGN).
Proof. unfold align_size. apply land_align_mask. apply wrap_range. Qed.

Lemma align_size_aligned (sz : Z) : aligned (align_size sz).
Proof.
  unfold aligned. rewrite align_size_eq.
  rewrite Z.mul_comm. apply Z.mod_mul. discriminate.
Qed.

Lemma align_size_range (sz : Z) : 0 <= align_size sz < 2 ^ SIZE_BITS.
Proof.
  rewrite align_size_eq.
  pose proof (wrap_range (sz + HAL_MEM_ALIGN - 1)) as Hw.
  unfold HAL_MEM_ALIGN in *.
  pose proof (Z.mul_div_le (wrap (sz + 64 - 1)) 64 ltac:(lia)).
  assert (0 <= wrap (sz + 64 - 1) / 64) by (apply Z.div_pos; lia).
  lia.
Qed.

Lemma round_up_bounds (sz : Z) : sz <= round_up sz < sz + HAL_MEM_ALIGN.
Proof.
  unfold round_up, HAL_MEM_ALIGN.
  pose proof (Z.mod_pos_bound (sz + 64 - 1) 64 ltac:(lia)).
  pose proof (Z.div_mod (sz + 64 - 1) 64 ltac:(lia)).
  lia.
Qed.

Lemma align_size_round_up (sz : Z) :
  0 <= sz -> sz + HAL_MEM_ALIGN - 1 < 2 ^ SIZE_BITS ->
  align_size sz = round_up sz.
Proof.
  intros H0 H1. rewrite align_size_eq. unfold round_up.
  rewrite wrap_small; [reflexivity |]. unfold HAL_MEM_ALIGN in *. lia.
Qed.

(** ** Nodes addressed by index *)

Lemma nth_error_mid {A} (pre : list A) (b : A) (post : list A) :
  nth_error (pre ++ b :: post) (length pre) = Some b.
Proof. induction pre as [| x pre IH]; simpl; auto. Qed.

Lemma firstn_mid {A} (pre : list A) (post : list A) :
  firstn (length pre) (pre ++ post) = pre.
Proof. induction pre as [| x pre IH]; simpl; [destruct post | f_equal]; auto. Qed.

Lemma skipn_mid {A} (pre : list A) (b : A) (post : list A) :
  skipn (S (length pre)) (pre ++ b :: post) = post.
Proof. induction pre as [| x pre IH]; simpl; auto. Qed.

Lemma nth_error_last_of_pre {A} (pre : list A) (p b : A) (post : list A) :
  nth_error ((pre ++ [p]) ++ b :: post) (length pre) = Some p.
Proof. rewrite <- app_assoc. apply nth_error_mid. Qed.

Lemma firstn_pre_of_pre {A} (pre : list A) (p b : A) (post : list A) :
  firstn (length pre) ((pre ++ [p]) ++ b :: post) = pre.
Proof. rewrite <- app_assoc. apply firstn_mid. Qed.

Lemma list_snoc_cases {A} (l : list A) :
  l = [] \/ exists l' x, l = l' ++ [x].
Proof.
  destruct l as [| a l]; [left; reflexivity | right].
  destruct (@exists_last _ (a :: l)) as [l' [x Hx]]; [discriminate |].
  exists l', x. exact Hx.
Qed.

(** ** The search loops *)

Lemma find_block_some (bs : list mem_block) (ptr : Z) (i k : nat) :
  find_block bs ptr i = Some k ->
  exists pre b post,
    bs = pre ++ b :: post /\ k = (i + length pre)%nat /\ addr b = ptr /\
    Forall (fun x => addr x <> ptr) pre.
Proof.
  revert i. induction bs as [| b bs IH]; intros i H; simpl in H.
  - discriminate.
  - destruct (Z.eqb_spec (addr b) ptr) as [He | Hn].
    + inversion H; subst k. exists [], b, bs. simpl.
      repeat split; auto; lia.
    + destruct (IH _ H) as (pre & b' & post & -> & -> & Ha & Hf).
      exists (b :: pre), b', post. simpl. repeat split; auto; lia.
Qed.

Lemma find_block_none (bs : list mem_block) (ptr : Z) (i : nat) :
  find_block bs ptr i = None -> Forall (fun x => addr x <> ptr) bs.
Proof.
  revert i. induction bs as [| b bs IH]; intros i H; simpl in H.
  - constructor.
  - destruct (Z.eqb_spec (addr b) ptr) as [He | Hn]; [discriminate |].
    constructor; eauto.
Qed.

Lemma find_best_fit_spec (bs : list mem_block) (i : nat) (sz : Z)
      (best : option nat) (bsz : Z) :
  (find_best_fit bs i sz best bsz = best /\
   forall x, In x bs -> fits sz x -> bsz <= size x)
  \/
  (exists pre b post,
      bs = pre ++ b :: post /\
      find_best_fit bs i sz best bsz = Some (i + length pre)%nat /\
      fits sz b /\ size b < bsz /\
      forall x, In x bs -> fits sz x -> size b <= size x).
Proof.
  revert i best bsz. induction bs as [| b bs IH]; intros i best bsz; simpl.
  - left. split; [reflexivity | intros x []].
  - destruct (used b) eqn:Hu; simpl.
    + destruct (IH (S i) best bsz) as [[He Hall] | (pre & b' & post & -> & He & Hf & Hlt & Hmin)].
      * left. split; [exact He |].
        intros x [<- | Hin] [Hx1 Hx2]; [congruence | apply Hall; [auto | split; auto]].
      * right. exists (b :: pre), b', post. simpl.
        rewrite He. repeat split; auto; try (f_equal; lia); try apply Hf.
        intros x [<- | Hin] [Hx1 Hx2]; [congruence | apply Hmin; [auto | split; auto]].
    + destruct (Z.leb_spec sz (size b)) as [Hle | Hgt].
      * destruct (Z.ltb_spec (size b) bsz) as [Hlt | Hge].
        -- destruct (IH (S i) (Some i) (size b))
             as [[He Hall] | (pre & b' & post & -> & He & Hf & Hlt' & Hmin)].
           ++ right. exists [], b, bs. simpl. rewrite He.
              repeat split; auto; try (f_equal; lia).
              intros x [<- | Hin] Hx; [lia | apply Hall; auto].
           ++ right. exists (b :: pre), b', post. simpl. rewrite He.
              repeat split; auto; try (f_equal; lia); try apply Hf; try lia.
              intros x [<- | Hin] Hx; [lia | apply Hmin; auto].
        -- destruct (IH (S i) best bsz)
             as [[He Hall] | (pre & b' & post & -> & He & Hf & Hlt' & Hmin)].
           ++ left. split; [exact He |].
              intros x [<- | Hin] Hx; [lia | apply Hall; auto].
           ++ right. exists (b :: pre), b', post. simpl. rewrite He.
              repeat split; auto; try (f_equal; lia); try apply Hf.
              intros x [<- | Hin] Hx; [lia | apply Hmin; auto].
      * destruct (IH (S i) best bsz)
          as [[He Hall] | (pre & b' & post & -> & He & Hf & Hlt' & Hmin)].
        -- left. split; [exact He |].
           intros x [<- | Hin] [Hx1 Hx2]; [lia | apply Hall; [auto | split; auto]].
        -- right. exists (b :: pre), b', post. simpl. rewrite He.
           repeat split; auto; try (f_equal; lia); try apply Hf.
           intros x [<- | Hin] [Hx1 Hx2]; [lia | apply Hmin; [auto | split; auto]].
Qed.

(** ** The shape of one allocation and of one release *)

Lemma mem_alloc_cases (m : hal_mem_context) (sz0 : Z) (ok : bool) :
  let sz := align_size sz0 in
  ((forall x, In x (blocks m) -> fits sz x -> SIZE_MAX <= size x) /\
   mem_alloc m sz0 ok = (NULL, m))
  \/
  exists pre best post,
    blocks m = pre ++ best :: post /\ fits sz best /\ size best < SIZE_MAX /\
    (forall x, In x (blocks m) -> fits sz x -> size best <= size x) /\
    ((wrap (sz + sizeof_mem_block + HAL_MEM_ALIGN) < size best /\ ok = true /\
      mem_alloc m sz0 ok =
        (addr best, set_blocks m (pre ++ split_block best sz ++ post)))
     \/
     (wrap (sz + sizeof_mem_block + HAL_MEM_ALIGN) < size best /\ ok = false /\
      mem_alloc m sz0 ok = (NULL, m))
     \/
     (size best <= wrap (sz + sizeof_mem_block + HAL_MEM_ALIGN) /\
      mem_alloc m sz0 ok =
        (addr best, set_blocks m (pre ++ [mark_used best] ++ post)))).
Proof.
  intros sz. unfold mem_alloc. fold sz.
  destruct (find_best_fit_spec (blocks m) 0 sz None SIZE_MAX)
    as [[He Hall] | (pre & b & post & Hbs & He & Hf & Hlt & Hmin)].
  - left. rewrite He. split; auto.
  - right. exists pre, b, post.
    split; [exact Hbs |]. split; [exact Hf |]. split; [exact Hlt |].
    split; [exact Hmin |].
    rewrite He. simpl Nat.add. rewrite Hbs.
    rewrite nth_error_mid, firstn_mid, skipn_mid.
    destruct (Z.ltb_spec (wrap (sz + sizeof_mem_block + HAL_MEM_ALIGN)) (size b))
      as [Hs | Hs].
    + destruct ok.
      * left. repeat split; auto.
      * right; left. auto.
    + right; right. split; auto.
Qed.

Lemma mem_free_cases (m : hal_mem_context) (ptr : Z) :
  (mem_free m ptr = m /\
   (Forall (fun x => addr x <> ptr) (blocks m) \/
    exists pre b post,
      blocks m = pre ++ b :: post /\ addr b = ptr /\ used b = false /\
      Forall (fun x => addr x <> ptr) pre))
  \/
  exists pre b post b' rest,
    blocks m = pre ++ b :: post /\ addr b = ptr /\ used b = true /\
    Forall (fun x => addr x <> ptr) pre /\
    merge_next (mark_unused b) post = (b', rest) /\
    ((last_free pre = false /\
      mem_free m ptr = set_blocks m (pre ++ b' :: rest))
     \/
     (exists pre' prev,
         pre = pre' ++ [prev] /\ used prev = false /\
         mem_free m ptr =
           set_blocks m (pre' ++ add_size prev (size b') :: rest))).
Proof.
  unfold mem_free.
  destruct (find_block (blocks m) ptr 0) as [i |] eqn:Hfind.
  2:{ left. split; auto. left. eapply find_block_none; eauto. }
  destruct (find_block_some _ _ _ _ Hfind)
    as (pre & b & post & Hbs & Hi & Ha & Hpre).
  simpl in Hi. subst i. rewrite Hbs. rewrite nth_error_mid.
  destruct (used b) eqn:Hu; cbn [negb].
  2:{ left. split; auto. right. exists pre, b, post. auto. }
  right. rewrite skipn_mid.
  destruct (merge_next (mark_unused b) post) as [b' rest] eqn:Hm.
  exists pre, b, post, b', rest. repeat split; auto.
  destruct (list_snoc_cases pre) as [-> | (pre' & prev & ->)].
  - left. simpl. split; reflexivity.
  - rewrite length_app. simpl. rewrite Nat.add_1_r.
    rewrite nth_error_last_of_pre.
    destruct (used prev) eqn:Hp; cbn [negb].
    + left. split.
      * unfold last_free. rewrite last_last. rewrite Hp. reflexivity.
      * replace (S (length pre')) with (length (pre' ++ [prev]))
          by (rewrite length_app; simpl; lia).
        rewrite firstn_mid. reflexivity.
    + right. exists pre', prev. repeat split; auto.
      rewrite firstn_pre_of_pre. reflexivity.
Qed.

Lemma merge_next_shape (post : list mem_block) :
  forall b b' rest,
    merge_next b post = (b', rest) ->
    exists frees,
      post = frees ++ rest /\
      Forall (fun x => used x = false) frees /\
      head_free rest = false /\
      addr b' = addr b /\ used b' = used b.
Proof.
  induction post as [| n post IH]; intros b b' rest H; simpl in H.
  - inversion H; subst. exists []. repeat split; auto.
  - destruct (used n) eqn:Hn; simpl in H.
    + inversion H; subst. exists []. simpl. rewrite Hn. repeat split; auto.
    + destruct (IH _ _ _ H) as (frees & -> & Hf & Hh & Ha & Hu).
      exists (n :: frees). repeat split; auto.
Qed.

(** ** No two neighbouring unused blocks *)

Lemma naf_cons (b : mem_block) (l : list mem_block) :
  no_adjacent_free (b :: l) =
  no_adjacent_free l && negb (negb (used b) && head_free l).
Proof.
  destruct l as [| b2 l]; simpl.
  - rewrite andb_false_r. reflexivity.
  - destruct (used b), (used b2); simpl;
      rewrite ?andb_true_r, ?andb_false_r; reflexivity.
Qed.

Lemma last_free_cons (b : mem_block) (l : list mem_block) :
  last_free (b :: l) = match l with [] => negb (used b) | _ => last_free l end.
Proof. destruct l; reflexivity. Qed.

Lemma naf_app (l1 l2 : list mem_block) :
  no_adjacent_free (l1 ++ l2) =
  no_adjacent_free l1 && no_adjacent_free l2
  && negb (last_free l1 && head_free l2).
Proof.
  induction l1 as [| b l1 IH].
  - simpl. rewrite andb_true_r. reflexivity.
  - rewrite <- app_comm_cons. rewrite !naf_cons, IH. rewrite last_free_cons.
    destruct l1 as [| b2 l1].
    + simpl. destruct (no_adjacent_free l2), (used b), (head_free l2); reflexivity.
    + simpl head_free.
      destruct (no_adjacent_free (b2 :: l1)), (no_adjacent_free l2),
        (last_free (b2 :: l1)), (head_free l2), (used b), (used b2); reflexivity.
Qed.

Lemma naf_alloc_split (pre post : list mem_block) (best : mem_block) (sz : Z) :
  used best = false ->
  no_adjacent_free (pre ++ best :: post) = true ->
  no_adjacent_free (pre ++ split_block best sz ++ post) = true.
Proof.
  intros Hu. unfold split_block. simpl app.
  rewrite !naf_app, !naf_cons. simpl. rewrite Hu. simpl.
  destruct (no_adjacent_free pre), (no_adjacent_free post), (last_free pre),
    (head_free post); simpl; auto.
Qed.

Lemma naf_alloc_mark (pre post : list mem_block) (best : mem_block) :
  no_adjacent_free (pre ++ best :: post) = true ->
  no_adjacent_free (pre ++ [mark_used best] ++ post) = true.
Proof.
  simpl app. rewrite !naf_app, !naf_cons. simpl.
  destruct (no_adjacent_free pre), (no_adjacent_free post), (last_free pre),
    (head_free post), (used best); simpl; auto.
Qed.

Lemma naf_suffix (frees rest : list mem_block) :
  no_adjacent_free (frees ++ rest) = true -> no_adjacent_free rest = true.
Proof.
  rewrite naf_app.
  destruct (no_adjacent_free frees), (no_adjacent_free rest); simpl; auto.
Qed.

Lemma mem_alloc_naf (m : hal_mem_context) (sz0 : Z) (ok : bool) :
  no_adjacent_free (blocks m) = true ->
  no_adjacent_free (blocks (snd (mem_alloc m sz0 ok))) = true.
Proof.
  intros H.
  destruct (mem_alloc_cases m sz0 ok)
    as [[_ ->] | (pre & best & post & Hbs & [Hu Hle] & _ & _ &
                  [(_ & _ & ->) | [(_ & _ & ->) | (_ & ->)]])];
    simpl; auto; rewrite Hbs in H.
  - apply naf_alloc_split; auto.
  - apply (naf_alloc_mark pre post best); auto.
Qed.

Ltac split_andb :=
  repeat match goal with
         | H : _ && _ = true |- _ => apply andb_prop in H; destruct H
         end.

Lemma mem_free_naf (m : hal_mem_context) (ptr : Z) :
  no_adjacent_free (blocks m) = true ->
  no_adjacent_free (blocks (mem_free m ptr)) = true.
Proof.
  intros H.
  destruct (mem_free_cases m ptr)
    as [[-> _] | (pre & b & post & b' & rest & Hbs & _ & Hu & _ & Hm &
                  [[Hl ->] | (pre' & prev & -> & Hp & ->)])]; auto;
    destruct (merge_next_shape _ _ _ _ Hm) as (frees & -> & _ & Hh & _ & Hu');
    rewrite Hbs in H; simpl blocks.
  - rewrite naf_app, naf_cons in H. split_andb.
    rewrite naf_app, naf_cons.
    rewrite (naf_suffix frees rest) by assumption.
    rewrite Hl, Hh. rewrite !andb_false_r, !andb_true_r. assumption.
  - rewrite <- app_assoc in H. simpl in H.
    rewrite naf_app, !naf_cons in H. split_andb.
    rewrite naf_app, naf_cons.
    rewrite (naf_suffix frees rest) by assumption.
    rewrite Hh. simpl. rewrite Hp. simpl.
    match goal with H : no_adjacent_free pre' = true |- _ => rewrite H end.
    match goal with
    | H : negb (last_free pre' && _) = true |- _ =>
        simpl in H; rewrite Hp in H; simpl in H
    end.
    destruct (last_free pre'); [discriminate | reflexivity].
Qed.

(** ** The blocks tile the window *)

Lemma contiguous_app (l1 l2 : list mem_block) (a e : Z) :
  contiguous a (l1 ++ l2) e <->
  exists mid, contiguous a l1 mid /\ contiguous mid l2 e.
Proof.
  revert a. induction l1 as [| b l1 IH]; intros a; simpl.
  - split.
    + intros H. exists a. auto.
    + intros (mid & -> & H). exact H.
  - rewrite IH. split.
    + intros (Ha & Hs & mid & H1 & H2). exists mid. auto.
    + intros (mid & (Ha & Hs & H1) & H2). repeat split; auto. exists mid. auto.
Qed.

Lemma contiguous_le (l : list mem_block) (a e : Z) :
  contiguous a l e -> a <= e.
Proof.
  revert a. induction l as [| b l IH]; intros a; simpl.
  - lia.
  - intros (_ & Hs & H). apply IH in H. lia.
Qed.

Lemma contiguous_sum (l : list mem_block) (a e : Z) :
  contiguous a l e -> a + sum_sizes l = e.
Proof.
  revert a. induction l as [| b l IH]; intros a; simpl.
  - lia.
  - intros (_ & Hs & H). apply IH in H. lia.
Qed.

Lemma contiguous_sizes (l : list mem_block) (a e : Z) :
  contiguous a l e -> Forall (fun b => a <= addr b /\ 0 <= size b /\ addr b + size b <= e) l.
Proof.
  revert a. induction l as [| b l IH]; intros a; simpl.
  - constructor.
  - intros (Ha & Hs & H). constructor.
    + pose proof (contiguous_le _ _ _ H). lia.
    + eapply Forall_impl; [| apply IH; exact H]. simpl. intros x. lia.
Qed.

Lemma mem_alloc_contiguous (m : hal_mem_context) (sz0 : Z) (ok : bool) (a e : Z) :
  0 <= a -> e < 2 ^ SIZE_BITS ->
  contiguous a (blocks m) e ->
  contiguous a (blocks (snd (mem_alloc m sz0 ok))) e.
Proof.
  intros Ha He H.
  destruct (mem_alloc_cases m sz0 ok)
    as [[_ ->] | (pre & best & post & Hbs & [Hu Hle] & _ & _ &
                  [(_ & _ & ->) | [(_ & _ & ->) | (_ & ->)]])];
    simpl; auto; rewrite Hbs in H;
    apply contiguous_app in H; destruct H as (mid & H1 & Hb & Hs & H2);
    apply contiguous_app; exists mid; (split; [exact H1 |]).
  - pose proof (contiguous_le _ _ _ H1).
    pose proof (contiguous_le _ _ _ H2).
    pose proof (align_size_range sz0).
    simpl. rewrite Hb.
    rewrite (wrap_small (mid + align_size sz0)) by lia.
    rewrite (wrap_small (size best - align_size sz0)) by lia.
    repeat split; try lia.
    replace (mid + align_size sz0 + (size best - align_size sz0))
      with (mid + size best) by lia.
    exact H2.
  - simpl. auto.
Qed.

Lemma merge_next_contiguous (post : list mem_block) :
  forall b b' rest a e,
    0 <= a -> e < 2 ^ SIZE_BITS ->
    contiguous a (b :: post) e ->
    merge_next b post = (b', rest) ->
    contiguous a (b' :: rest) e.
Proof.
  induction post as [| n post IH]; intros b b' rest a e Ha He H Hm;
    simpl in Hm.
  - inversion Hm; subst. exact H.
  - destruct (used n); simpl in Hm.
    + inversion Hm; subst. exact H.
    + apply (IH _ _ _ a e Ha He) in Hm; auto.
      simpl in H. destruct H as (Hb & Hs & Hn & Hns & H).
      pose proof (contiguous_le _ _ _ H).
      simpl. rewrite (wrap_small (size b + size n)) by lia.
      repeat split; try lia.
      replace (a + (size b + size n)) with (a + size b + size n) by lia.
      exact H.
Qed.

Lemma mem_free_contiguous (m : hal_mem_context) (ptr : Z) (a e : Z) :
  0 <= a -> e < 2 ^ SIZE_BITS ->
  contiguous a (blocks m) e ->
  contiguous a (blocks (mem_free m ptr)) e.
Proof.
  intros Ha He H.
  destruct (mem_free_cases m ptr)
    as [[-> _] | (pre & b & post & b' & rest & Hbs & _ & Hu & _ & Hm &
                  [[Hl ->] | (pre' & prev & -> & Hp & ->)])]; auto;
    rewrite Hbs in H; simpl blocks.
  - apply contiguous_app in H. destruct H as (mid & H1 & H2).
    apply contiguous_app. exists mid. split; [exact H1 |].
    pose proof (contiguous_le _ _ _ H1).
    eapply merge_next_contiguous; [| | | exact Hm]; auto; lia.
  - rewrite <- app_assoc in H.
    apply contiguous_app in H. destruct H as (mid & H1 & Hpv & Hps & H2).
    apply contiguous_app. exists mid. split; [exact H1 |].
    pose proof (contiguous_le _ _ _ H1).
    assert (H3 : contiguous (mid + size prev) (b' :: rest) e).
    { eapply merge_next_contiguous; [| | | exact Hm]; auto; lia. }
    simpl in H3. destruct H3 as (Hb' & Hs' & H3).
    pose proof (contiguous_le _ _ _ H3).
    simpl. rewrite (wrap_small (size prev + size b')) by lia.
    repeat split; try lia.
    replace (mid + (size prev + size b')) with (mid + size prev + size b')
      by lia.
    exact H3.
Qed.

(** ** Block addresses stay on the alignment boundary *)

Lemma aligned_add (x y : Z) : aligned x -> aligned y -> aligned (x + y).
Proof.
  unfold aligned. intros Hx Hy.
  rewrite Z.add_mod by discriminate. rewrite Hx, Hy. reflexivity.
Qed.

Lemma mem_alloc_aligned (m : hal_mem_context) (sz0 : Z) (ok : bool) (a e : Z) :
  0 <= a -> e < 2 ^ SIZE_BITS ->
  contiguous a (blocks m) e ->
  Forall (fun b => aligned (addr b)) (blocks m) ->
  Forall (fun b => aligned (addr b)) (blocks (snd (mem_alloc m sz0 ok))).
Proof.
  intros Ha He Hc H.
  destruct (mem_alloc_cases m sz0 ok)
    as [[_ ->] | (pre & best & post & Hbs & [Hu Hle] & _ & _ &
                  [(_ & _ & ->) | [(_ & _ & ->) | (_ & ->)]])];
    simpl; auto; rewrite Hbs in H, Hc;
    apply Forall_app in H; destruct H as [H1 H2];
    inversion H2 as [| ? ? Hb H3]; subst;
    apply Forall_app; (split; [exact H1 |]).
  - apply contiguous_app in Hc. destruct Hc as (mid & Hc1 & Hb' & Hs & Hc2).
    pose proof (contiguous_le _ _ _ Hc1).
    pose proof (contiguous_le _ _ _ Hc2).
    pose proof (align_size_range sz0).
    repeat constructor; simpl; auto.
    rewrite wrap_small by lia.
    apply aligned_add; [exact Hb | apply align_size_aligned].
  - constructor; simpl; auto.
Qed.

Lemma mem_free_aligned (m : hal_mem_context) (ptr : Z) :
  Forall (fun b => aligned (addr b)) (blocks m) ->
  Forall (fun b => aligned (addr b)) (blocks (mem_free m ptr)).
Proof.
  intros H.
  destruct (mem_free_cases m ptr)
    as [[-> _] | (pre & b & post & b' & rest & Hbs & _ & Hu & _ & Hm &
                  [[Hl ->] | (pre' & prev & -> & Hp & ->)])]; auto;
    destruct (merge_next_shape _ _ _ _ Hm) as (frees & -> & _ & _ & Hab & _);
    rewrite Hbs in H; simpl blocks;
    repeat (rewrite Forall_app in H || rewrite Forall_cons_iff in H);
    repeat (rewrite Forall_app || rewrite Forall_cons_iff).
  - rewrite Hab. simpl. tauto.
  - simpl. tauto.
Qed.

(** ** Sequences of calls *)

Lemma mem_step_core_live (c : hal_context) (m : hal_mem_context)
      (live : list Z) (op : mem_op) :
  mem_step (Some (set_mem_ctx c (Some m)), live) op =
  (Some (set_mem_ctx c (Some (mem_step_core m op))),
   live_step_core m live op).
Proof.
  destruct op as [sz ok | ptr]; simpl.
  - destruct (sz =? 0); [reflexivity |].
    destruct (mem_alloc m sz ok) as [p m']. reflexivity.
  - destruct (ptr =? NULL); reflexivity.
Qed.

Lemma run_ops_live (ops : list mem_op) :
  forall (c : hal_context) (m : hal_mem_context) (live : list Z),
    run_ops ops (Some (set_mem_ctx c (Some m)), live) =
    (Some (set_mem_ctx c (Some (fst (fold_left step_core ops (m, live))))),
     snd (fold_left step_core ops (m, live))).
Proof.
  unfold run_ops.
  induction ops as [| op ops IH]; intros c m live; cbn [fold_left].
  - reflexivity.
  - rewrite mem_step_core_live. rewrite IH. reflexivity.
Qed.

Lemma run_ops_fresh (ops : list mem_op) (c : hal_context) (base total : Z) :
  fst (run_ops ops (fresh_ctx c base total)) =
  Some (set_mem_ctx c (Some (fold_left mem_step_core ops (fresh_mem base total)))).
Proof.
  unfold fresh_ctx.
  change (snd (hal_mem_init c base total true true))
    with (set_mem_ctx c (Some (fresh_mem base total))).
  rewrite run_ops_live. cbn [fst].
  f_equal. f_equal. f_equal.
  generalize (@nil Z). generalize (fresh_mem base total).
  induction ops as [| op ops IH]; intros m live; cbn [fold_left].
  - reflexivity.
  - apply IH.
Qed.

Lemma run_core_naf (ops : list mem_op) :
  forall m,
    no_adjacent_free (blocks m) = true ->
    no_adjacent_free (blocks (fold_left mem_step_core ops m)) = true.
Proof.
  induction ops as [| op ops IH]; intros m H; simpl; auto.
  apply IH. destruct op as [sz ok | ptr]; simpl.
  - destruct (sz =? 0); auto. apply mem_alloc_naf; auto.
  - destruct (ptr =? NULL); auto. apply mem_free_naf; auto.
Qed.

Section Window.

(** A window [[base, base + total)] that lies in the address space. *)
Variables base total : Z.
Hypothesis base_nonneg : 0 <= base.
Hypothesis total_nonneg : 0 <= total.
Hypothesis window_fits : base + total < 2 ^ SIZE_BITS.

Lemma run_core_contiguous (ops : list mem_op) :
  forall m,
    contiguous base (blocks m) (base + total) ->
    contiguous base (blocks (fold_left mem_step_core ops m)) (base + total).
Proof.
  induction ops as [| op ops IH]; intros m H; simpl; auto.
  apply IH. destruct op as [sz ok | ptr]; simpl.
  - destruct (sz =? 0); auto. apply mem_alloc_contiguous; auto.
  - destruct (ptr =? NULL); auto. apply mem_free_contiguous; auto.
Qed.

Lemma run_core_aligned (ops : list mem_op) :
  forall m,
    contiguous base (blocks m) (base + total) ->
    Forall (fun b => aligned (addr b)) (blocks m) ->
    Forall (fun b => aligned (addr b)) (blocks (fold_left mem_step_core ops m)).
Proof.
  induction ops as [| op ops IH]; intros m Hc H; simpl; auto.
  destruct op as [sz ok | ptr]; simpl.
  - destruct (sz =? 0); auto.
    apply IH.
    + apply mem_alloc_contiguous; auto.
    + apply (mem_alloc_aligned m sz ok base (base + total)); auto.
  - destruct (ptr =? NULL); auto.
    apply IH.
    + apply mem_free_contiguous; auto.
    + apply mem_free_aligned; auto.
Qed.

Lemma fresh_contiguous :
  contiguous base (blocks (fresh_mem base total)) (base + total).
Proof. simpl. auto. Qed.

End Window.

(** ** The release loop against its one-step description *)

Lemma naf_skipn (k : nat) :
  forall l, no_adjacent_free l = true -> no_adjacent_free (skipn k l) = true.
Proof.
  induction k as [| k IH]; intros l H; [exact H |].
  destruct l as [| b l]; [reflexivity |].
  simpl skipn. apply IH. rewrite naf_cons in H. split_andb. assumption.
Qed.

Lemma merge_next_once_eq (post : list mem_block) (b : mem_block) :
  no_adjacent_free post = true ->
  merge_next b post = merge_next_once b post.
Proof.
  destruct post as [| n rest]; intros H; [reflexivity |].
  simpl. destruct (used n) eqn:Hn; [reflexivity |]. simpl.
  rewrite naf_cons in H. rewrite Hn in H. split_andb.
  destruct rest as [| n2 rest]; [reflexivity |].
  simpl in *. destruct (used n2); [reflexivity | discriminate].
Qed.

Lemma mem_free_eq_spec (m : hal_mem_context) (ptr : Z) :
  no_adjacent_free (blocks m) = true ->
  mem_free m ptr = mem_free_spec m ptr.
Proof.
  intros H. unfold mem_free, mem_free_spec.
  destruct (find_block (blocks m) ptr 0) as [i |]; [| reflexivity].
  destruct (nth_error (blocks m) i) as [b |]; [| reflexivity].
  destruct (negb (used b)); [reflexivity |].
  rewrite merge_next_once_eq by (apply naf_skipn; exact H).
  reflexivity.
Qed.

(** C2.  After any sequence of [hal_mem_alloc] and [hal_mem_free] calls on
    a freshly initialised allocator (any window, any request sizes, any
    pointers, any outcome of the host [malloc]) no two neighbouring blocks
    of the list are both unused; and in every such state [hal_mem_free]
    does what its one-step description says: mark the located block
    unused, absorb the block right after it if that one is unused, then be
    absorbed by the block right before it if that one is unused. *)
Theorem C2_no_adjacent_free_blocks :
  forall (c : hal_context) (base total : Z) (ops : list mem_op),
    let ctx := fst (run_ops ops (fresh_ctx c base total)) in
    no_adjacent_free (ctx_blocks ctx) = true /\
    forall ptr, hal_mem_free ctx ptr = hal_mem_free_spec ctx ptr.
Proof.
  intros c base total ops ctx. subst ctx. rewrite run_ops_fresh.
  assert (H : no_adjacent_free
                (blocks (fold_left mem_step_core ops (fresh_mem base total)))
              = true)
    by (apply run_core_naf; reflexivity).
  split; [exact H |].
  intros ptr. unfold hal_mem_free, hal_mem_free_spec. simpl.
  destruct (ptr =? NULL); [reflexivity |].
  rewrite mem_free_eq_spec by exact H. reflexivity.
Qed.

(** Over a window with a 64-byte-aligned base that lies in the address
    space, every non-NULL address [hal_mem_alloc] returns after any
    sequence of earlier calls is 64-byte aligned, and the span from it of
    what [align_size] makes of the requested size lies inside the window.
    That span covers the bytes asked for whenever the rounding stays
    inside [size_t]. *)
Lemma alloc_aligned_in_window :
  forall (c : hal_context) (base total : Z) (ops : list mem_op)
         (sz : Z) (ok : bool),
    0 <= base -> aligned base -> 0 <= total ->
    base + total < 2 ^ SIZE_BITS ->
    let ctx := fst (run_ops ops (fresh_ctx c base total)) in
    let p := fst (hal_mem_alloc ctx sz ok) in
    p <> NULL ->
    (aligned p /\ base <= p /\ p + align_size sz <= base + total) /\
    (0 <= sz -> sz + (HAL_MEM_ALIGN - 1) < 2 ^ SIZE_BITS ->
     sz <= align_size sz).
Proof.
  intros c base total ops sz ok Hb Hal Ht Hw ctx p Hp. split.
  2:{ intros H0 H1. rewrite align_size_round_up by word_lia.
      apply round_up_bounds. }
  revert Hp. subst p ctx.
  rewrite run_ops_fresh.
  set (m := fold_left mem_step_core ops (fresh_mem base total)).
  assert (Hc : contiguous base (blocks m) (base + total)).
  { apply (run_core_contiguous base total Hb Hw). apply fresh_contiguous. exact Ht. }
  assert (Ha : Forall (fun b => aligned (addr b)) (blocks m)).
  { apply (run_core_aligned base total Hb Hw).
    - apply fresh_contiguous. exact Ht.
    - repeat constructor. exact Hal. }
  unfold hal_mem_alloc. simpl mem_ctx. cbv iota beta.
  destruct (sz =? 0); [simpl; congruence |].
  destruct (mem_alloc_cases m sz ok)
    as [[_ He] | (pre & best & post & Hbs & [Hu Hle] & _ & _ &
                  [(_ & _ & He) | [(_ & _ & He) | (_ & He)]])];
    rewrite He; simpl; try congruence; intros _;
    apply contiguous_sizes in Hc; rewrite Hbs in Hc, Ha;
    apply Forall_app in Hc; destruct Hc as [_ Hc];
    apply Forall_app in Ha; destruct Ha as [_ Ha];
    inversion Hc; inversion Ha; subst; split; auto; lia.
Qed.

(** Three calls, then a 100-byte request at the reference window size. *)
Lemma alloc_aligned_in_window_example :
  let c := sample_context HAL_STATUS_READY idle_device in
  let ops := [Alloc 300 true; Alloc 64 true; Free 4096] in
  let ctx := fst (run_ops ops (fresh_ctx c 4096 HAL_ACCEL_MEM_SIZE)) in
  let p := fst (hal_mem_alloc ctx 100 true) in
  p = 4096 /\
  aligned p /\ 4096 <= p /\ p + align_size 100 <= 4096 + HAL_ACCEL_MEM_SIZE.
Proof.
  intros c ops ctx p. split; [reflexivity |].
  apply (alloc_aligned_in_window c 4096 HAL_ACCEL_MEM_SIZE ops 100 true).
  - lia.
  - reflexivity.
  - unfold HAL_ACCEL_MEM_SIZE. lia.
  - reflexivity.
  - vm_compute. discriminate.
Defined.

(** For a request whose rounding stays inside [size_t], the span of the
    request rounded up to 64 from a non-NULL address [hal_mem_alloc]
    returns lies inside the window, and covers the bytes asked for. *)
Lemma alloc_span_in_window_without_overflow :
  forall (c : hal_context) (base total : Z) (ops : list mem_op)
         (sz : Z) (ok : bool),
    0 <= base -> aligned base -> 0 <= total ->
    base + total < 2 ^ SIZE_BITS ->
    0 <= sz -> sz + (HAL_MEM_ALIGN - 1) < 2 ^ SIZE_BITS ->
    let ctx := fst (run_ops ops (fresh_ctx c base total)) in
    let p := fst (hal_mem_alloc ctx sz ok) in
    p <> NULL ->
    aligned p /\ base <= p /\ p + round_up sz <= base + total /\
    sz <= round_up sz.
Proof.
  intros c base total ops sz ok Hb Hal Ht Hw Hsz Hno ctx p Hp.
  destruct (alloc_aligned_in_window c base total ops sz ok Hb Hal Ht Hw Hp)
    as ((H1 & H2 & H3) & _).
  fold ctx in H1, H2, H3. fold p in H1, H2, H3.
  rewrite align_size_round_up in H3 by word_lia.
  pose proof (round_up_bounds sz). repeat split; auto; lia.
Qed.

(** C7.  On a freshly initialised allocator over the 1024-byte window at
    the 64-byte-aligned base 4096, [hal_mem_alloc] asked for [SIZE_MAX]
    bytes does not refuse: it returns 4096, which is not NULL and is
    aligned, although neither the request nor the request rounded up to
    64 (which is 2^64) fits between 4096 and 4096 + 1024.  In [size_t]
    arithmetic [align_size] makes 0 of the request, and the call books an
    empty used block at 4096 in front of the untouched 1024 bytes. *)
Theorem C7_oversized_request_leaves_window :
  let c := sample_context HAL_STATUS_READY idle_device in
  let ctx := fst (run_ops [] (fresh_ctx c 4096 1024)) in
  let r := hal_mem_alloc ctx SIZE_MAX true in
  aligned 4096 /\
  fst r = 4096 /\ fst r <> NULL /\ aligned (fst r) /\
  ~ (fst r + SIZE_MAX <= 4096 + 1024) /\
  round_up SIZE_MAX = 2 ^ SIZE_BITS /\
  ~ (fst r + round_up SIZE_MAX <= 4096 + 1024) /\
  align_size SIZE_MAX = 0 /\
  ctx_blocks (snd r) = [mk_block 4096 0 true; mk_block 4096 1024 false].
Proof.
  intros c ctx r.
  assert (Hr : fst r = 4096) by (vm_compute; reflexivity).
  assert (Hu : round_up SIZE_MAX = 2 ^ SIZE_BITS) by (vm_compute; reflexivity).
  rewrite Hr, Hu.
  repeat split; try (vm_compute; reflexivity).
  - vm_compute. discriminate.
  - unfold SIZE_MAX, SIZE_BITS. lia.
  - unfold SIZE_BITS. lia.
Qed.

(** ** What the client holds against what the list marks used *)

Lemma used_addrs_app (l1 l2 : list mem_block) :
  used_addrs (l1 ++ l2) = used_addrs l1 ++ used_addrs l2.
Proof. unfold used_addrs. rewrite filter_app, map_app. reflexivity. Qed.

Lemma used_addrs_unused (l : list mem_block) :
  Forall (fun x => used x = false) l -> used_addrs l = [].
Proof.
  induction 1 as [| b l Hb _ IH]; [reflexivity |].
  unfold used_addrs in *. simpl. rewrite Hb. exact IH.
Qed.

Lemma used_addrs_nil (l : list mem_block) :
  used_addrs l = [] -> Forall (fun x => used x = false) l.
Proof.
  induction l as [| b l IH]; intros H; [constructor |].
  unfold used_addrs in *. simpl in H.
  destruct (used b) eqn:Hb; [discriminate |].
  constructor; auto.
Qed.

Lemma used_addrs_in (l : list mem_block) (p : Z) :
  In p (used_addrs l) -> exists b, In b l /\ used b = true /\ addr b = p.
Proof.
  unfold used_addrs. intros H. apply in_map_iff in H.
  destruct H as (b & Ha & Hin). apply filter_In in Hin.
  exists b. tauto.
Qed.

Lemma remove_one_notin (p : Z) (l : list Z) :
  ~ In p l -> remove_one p l = l.
Proof.
  induction l as [| q l IH]; intros H; [reflexivity |].
  simpl. destruct (Z.eqb_spec q p) as [-> | Hn].
  - exfalso. apply H. left. reflexivity.
  - f_equal. apply IH. intros Hin. apply H. right. exact Hin.
Qed.

Lemma remove_one_in (p : Z) (l : list Z) :
  In p l -> Permutation l (p :: remove_one p l).
Proof.
  induction l as [| q l IH]; intros H; [destruct H |].
  simpl. destruct (Z.eqb_spec q p) as [-> | Hn].
  - reflexivity.
  - destruct H as [-> | H]; [congruence |].
    rewrite (IH H) at 1. apply perm_swap.
Qed.

Lemma remove_one_perm (p : Z) (l l1 l2 : list Z) :
  Permutation l (l1 ++ p :: l2) ->
  Permutation (remove_one p l) (l1 ++ l2).
Proof.
  intros H.
  assert (Hin : In p l).
  { apply (Permutation_in p (Permutation_sym H)).
    apply in_elt. }
  eapply Permutation_cons_app_inv.
  eapply Permutation_trans; [| exact H].
  apply Permutation_sym. apply remove_one_in. exact Hin.
Qed.

Lemma sum_sizes_nonneg (bs : list mem_block) :
  Forall (fun b => 0 <= size b) bs -> 0 <= sum_sizes bs.
Proof. induction 1; simpl; lia. Qed.

Lemma available_loop_unused (bs : list mem_block) :
  forall acc,
    0 <= acc ->
    Forall (fun b => 0 <= size b) bs ->
    Forall (fun b => used b = false) bs ->
    acc + sum_sizes bs < 2 ^ SIZE_BITS ->
    available_loop bs acc = acc + sum_sizes bs.
Proof.
  induction bs as [| b bs IH]; intros acc Ha Hs Hu Hlt;
    cbn [available_loop sum_sizes] in *.
  - lia.
  - inversion Hs as [| ? ? Hs1 Hs2]; inversion Hu as [| ? ? Hu1 Hu2]; subst.
    pose proof (sum_sizes_nonneg bs Hs2).
    rewrite Hu1. cbn [negb].
    rewrite wrap_small by lia.
    rewrite IH; auto; lia.
Qed.

Lemma nodup_insert_after (l1 l2 : list Z) (x y : Z) :
  NoDup (l1 ++ x :: l2) ->
  ~ In y l1 -> y <> x -> ~ In y l2 ->
  NoDup (l1 ++ x :: y :: l2).
Proof.
  intros H H1 Hx H2.
  induction l1 as [| a l1 IH]; simpl in *.
  - inversion H; subst. constructor.
    + simpl. intros [-> | Hin]; [congruence | contradiction].
    + constructor; auto.
  - inversion H; subst. constructor.
    + intros Hin. apply H4.
      apply in_app_or in Hin. apply in_or_app.
      destruct Hin as [Hin | [<- | [<- | Hin]]]; simpl; auto.
      exfalso. apply H1. left. reflexivity.
    + apply IH; auto.
Qed.

Lemma nodup_drop_middle (l1 l2 l3 : list Z) :
  NoDup (l1 ++ l2 ++ l3) -> NoDup (l1 ++ l3).
Proof.
  induction l2 as [| a l2 IH]; intros H; [exact H |].
  apply IH. simpl in H. apply NoDup_remove_1 in H. exact H.
Qed.

Lemma used_addrs_cons (b : mem_block) (l : list mem_block) :
  used_addrs (b :: l) =
  if used b then addr b :: used_addrs l else used_addrs l.
Proof. unfold used_addrs. simpl. destruct (used b); reflexivity. Qed.

Lemma contiguous_prefix_below (l : list mem_block) (a e : Z) :
  contiguous a l e -> forall x, In x (map addr l) -> a <= x /\ (x < e \/ x = e).
Proof.
  intros H x Hin. apply in_map_iff in Hin. destruct Hin as (b & <- & Hin).
  apply contiguous_sizes in H. rewrite Forall_forall in H.
  specialize (H b Hin). lia.
Qed.

Lemma contiguous_addr_lt (l : list mem_block) (a e : Z) (y : Z) :
  contiguous a l e -> y < a -> ~ In y (map addr l).
Proof.
  intros H Hy Hin. apply (contiguous_prefix_below _ _ _ H) in Hin. lia.
Qed.

Lemma contiguous_addr_gt (l : list mem_block) (a e : Z) (y : Z) :
  contiguous a l e -> e < y -> ~ In y (map addr l).
Proof.
  intros H Hy Hin. apply (contiguous_prefix_below _ _ _ H) in Hin. lia.
Qed.

Lemma mem_alloc_balanced (base total : Z) (m : hal_mem_context)
      (live : list Z) (sz : Z) (ok : bool) :
  0 < base -> base + total < 2 ^ SIZE_BITS ->
  0 < sz ->
  sz + (HAL_MEM_ALIGN - 1) + sizeof_mem_block + HAL_MEM_ALIGN < 2 ^ SIZE_BITS ->
  balanced base total (m, live) ->
  balanced base total
    (snd (mem_alloc m sz ok),
     if fst (mem_alloc m sz ok) =? NULL then live
     else fst (mem_alloc m sz ok) :: live).
Proof.
  intros Hb Hw Hsz Hbig (Hc & Hn & Hp). simpl in Hc, Hn, Hp.
  assert (Hc' := mem_alloc_contiguous m sz ok base (base + total)
                   ltac:(lia) Hw Hc).
  assert (Hr : align_size sz = round_up sz).
  { apply align_size_round_up; unfold HAL_MEM_ALIGN, sizeof_mem_block in *; lia. }
  pose proof (round_up_bounds sz) as Hrb.
  assert (Hthr : wrap (align_size sz + sizeof_mem_block + HAL_MEM_ALIGN)
                 = align_size sz + sizeof_mem_block + HAL_MEM_ALIGN).
  { apply wrap_small. rewrite Hr.
    unfold HAL_MEM_ALIGN, sizeof_mem_block in *. lia. }
  unfold balanced. cbn [fst snd]. split; [exact Hc' |]. clear Hc'.
  destruct (mem_alloc_cases m sz ok)
    as [[_ He] | (pre & best & post & Hbs & [Hu Hle] & _ & _ & Hcase)].
  { rewrite He. simpl. auto. }
  rewrite Hthr in Hcase. rewrite Hbs in Hc, Hn, Hp.
  apply contiguous_app in Hc. destruct Hc as (mid & Hc1 & Hba & Hbsz & Hc2).
  pose proof (contiguous_le _ _ _ Hc1) as Hle1.
  pose proof (contiguous_le _ _ _ Hc2) as Hle2.
  assert (Hnn : (addr best =? NULL) = false)
    by (apply Z.eqb_neq; unfold NULL; lia).
  rewrite used_addrs_app, used_addrs_cons, Hu in Hp.
  destruct Hcase as [(Hs & _ & He) | [(_ & _ & He) | (_ & He)]];
    rewrite He; cbn [fst snd blocks set_blocks]; try rewrite Hnn.
  - split.
    + unfold split_block. rewrite map_app. simpl.
      rewrite map_app in Hn. simpl in Hn.
      rewrite wrap_small by lia.
      apply nodup_insert_after; auto.
      * apply (contiguous_addr_gt _ _ _ _ Hc1). word_lia.
      * word_lia.
      * apply (contiguous_addr_lt _ _ _ _ Hc2). word_lia.
    + unfold split_block. simpl app.
      rewrite used_addrs_app, !used_addrs_cons. simpl.
      apply Permutation_cons_app. exact Hp.
  - simpl. rewrite Hbs. split; [exact Hn |].
    rewrite used_addrs_app, used_addrs_cons, Hu. exact Hp.
  - split.
    + rewrite map_app in *. simpl in *. exact Hn.
    + simpl app. rewrite used_addrs_app, used_addrs_cons. simpl.
      apply Permutation_cons_app. exact Hp.
Qed.

Lemma balanced_live_nonnull (base total : Z) (m : hal_mem_context)
      (live : list Z) :
  0 < base -> balanced base total (m, live) -> ~ In NULL live.
Proof.
  intros Hb (Hc & _ & Hp) Hin. simpl in *.
  apply (Permutation_in _ Hp) in Hin.
  apply used_addrs_in in Hin. destruct Hin as (b & Hin & _ & Ha).
  apply contiguous_sizes in Hc. rewrite Forall_forall in Hc.
  specialize (Hc b Hin). unfold NULL in Ha. lia.
Qed.

Lemma mem_free_balanced (base total : Z) (m : hal_mem_context)
      (live : list Z) (ptr : Z) :
  0 < base -> base + total < 2 ^ SIZE_BITS ->
  balanced base total (m, live) ->
  balanced base total (mem_free m ptr, remove_one ptr live).
Proof.
  intros Hb Hw (Hc & Hn & Hp). simpl in Hc, Hn, Hp.
  assert (Hc' := mem_free_contiguous m ptr base (base + total)
                   ltac:(lia) Hw Hc).
  unfold balanced. cbn [fst snd]. split; [exact Hc' |]. clear Hc'.
  destruct (mem_free_cases m ptr)
    as [[-> Hwhy] | (pre & b & post & b' & rest & Hbs & Ha & Hu & Hpre & Hm &
                     Hcase)].
  - (* nothing released: [ptr] is not an address in use *)
    split; [exact Hn |].
    rewrite remove_one_notin; [exact Hp |].
    intros Hin. apply (Permutation_in _ Hp) in Hin.
    apply used_addrs_in in Hin. destruct Hin as (x & Hin & Hux & Hax).
    destruct Hwhy as [Hall | (pre & b & post & Hbs & Ha & Hu & Hpre)].
    + rewrite Forall_forall in Hall. apply (Hall x Hin). exact Hax.
    + rewrite Hbs in Hin, Hn. apply in_app_or in Hin.
      destruct Hin as [Hin | [<- | Hin]].
      * rewrite Forall_forall in Hpre. apply (Hpre x Hin). exact Hax.
      * congruence.
      * rewrite map_app in Hn. simpl in Hn. apply NoDup_remove_2 in Hn.
        apply Hn. apply in_or_app. right. rewrite Ha, <- Hax.
        apply in_map. exact Hin.
  - destruct (merge_next_shape _ _ _ _ Hm)
      as (frees & -> & Hfrees & _ & Hab & Hub).
    simpl in Hab, Hub.
    rewrite Hbs in Hn, Hp.
    rewrite used_addrs_app, used_addrs_cons, Hu, used_addrs_app in Hp.
    rewrite (used_addrs_unused frees Hfrees) in Hp. simpl in Hp.
    rewrite Ha in Hp.
    destruct Hcase as [[_ ->] | (pre' & prev & -> & Hpv & ->)];
      cbn [blocks set_blocks].
    + split.
      * rewrite map_app in *. simpl in *. rewrite map_app in Hn.
        rewrite Hab.
        change (map addr pre ++ addr b :: map addr rest)
          with (map addr pre ++ [addr b] ++ map addr rest).
        rewrite app_assoc.
        apply (nodup_drop_middle _ (map addr frees)).
        rewrite <- app_assoc. simpl. exact Hn.
      * rewrite used_addrs_app, used_addrs_cons, Hub.
        apply remove_one_perm. exact Hp.
    + split.
      * rewrite !map_app in *. simpl in *. rewrite map_app in Hn.
        rewrite <- app_assoc in Hn. simpl in Hn.
        change (map addr pre' ++ addr prev :: map addr rest)
          with (map addr pre' ++ [addr prev] ++ map addr rest).
        rewrite app_assoc.
        apply (nodup_drop_middle _ (addr b :: map addr frees)).
        rewrite <- app_assoc. simpl. exact Hn.
      * rewrite used_addrs_app, used_addrs_cons in Hp.
        rewrite Hpv in Hp. change (used_addrs []) with (@nil Z) in Hp.
        rewrite app_nil_r in Hp.
        rewrite used_addrs_app, used_addrs_cons.
        cbn [add_size used]. rewrite Hpv.
        apply remove_one_perm. exact Hp.
Qed.

Lemma step_core_balanced (base total : Z) (st : hal_mem_context * list Z)
      (op : mem_op) :
  0 < base -> base + total < 2 ^ SIZE_BITS ->
  request_ok op ->
  balanced base total st -> balanced base total (step_core st op).
Proof.
  intros Hb Hw Hop H. destruct st as [m live].
  unfold step_core. cbn [fst snd].
  destruct op as [sz ok | ptr]; cbn [mem_step_core live_step_core].
  - destruct Hop as [H0 Hbig].
    destruct (Z.eqb_spec sz 0) as [-> | Hnz]; [exact H |].
    apply mem_alloc_balanced; auto. lia.
  - destruct (Z.eqb_spec ptr NULL) as [-> | Hnz].
    + rewrite remove_one_notin; [exact H |].
      eapply balanced_live_nonnull; eauto.
    + apply mem_free_balanced; auto.
Qed.

Lemma run_core_balanced (base total : Z) (ops : list mem_op) :
  0 < base -> base + total < 2 ^ SIZE_BITS ->
  Forall request_ok ops ->
  forall st,
    balanced base total st ->
    balanced base total (fold_left step_core ops st).
Proof.
  intros Hb Hw Hops. induction Hops as [| op ops Hop _ IH]; intros st H.
  - exact H.
  - cbn [fold_left]. apply IH. apply step_core_balanced; auto.
Qed.

(** The first half of C1 holds without any condition on the calls: the
    block sizes always add up to the size of the window. *)
Lemma block_sizes_sum_to_window :
  forall (c : hal_context) (base total : Z) (ops : list mem_op),
    0 <= base -> 0 <= total -> base + total < 2 ^ SIZE_BITS ->
    sum_sizes (ctx_blocks (fst (run_ops ops (fresh_ctx c base total))))
    = total.
Proof.
  intros c base total ops Hb Ht Hw. rewrite run_ops_fresh. simpl.
  assert (Hc := run_core_contiguous base total Hb Hw ops
                  (fresh_mem base total) (fresh_contiguous base total Ht)).
  apply contiguous_sum in Hc. lia.
Qed.

(** The second half of C1 holds as long as no request overflows the
    rounding or the split threshold: once the client has released every
    pointer it was handed, [hal_mem_available] is the window size. *)
Lemma available_restored_without_overflow :
  forall (c : hal_context) (base total : Z) (ops : list mem_op),
    0 < base -> 0 <= total -> base + total < 2 ^ SIZE_BITS ->
    Forall request_ok ops ->
    let st := run_ops ops (fresh_ctx c base total) in
    snd st = [] -> hal_mem_available (fst st) = total.
Proof.
  intros c base total ops Hb Ht Hw Hops st. subst st.
  unfold fresh_ctx.
  change (snd (hal_mem_init c base total true true))
    with (set_mem_ctx c (Some (fresh_mem base total))).
  rewrite run_ops_live. cbn [fst snd].
  assert (H : balanced base total
                (fold_left step_core ops (fresh_mem base total, []))).
  { apply run_core_balanced; auto.
    split; [| split]; cbn [fst snd].
    - apply fresh_contiguous. exact Ht.
    - simpl. repeat constructor. intros [].
    - reflexivity. }
  destruct (fold_left step_core ops (fresh_mem base total, []))
    as [m live]. destruct H as (Hc & _ & Hp). cbn [fst snd] in *.
  intros ->. apply Permutation_nil in Hp.
  apply used_addrs_nil in Hp.
  unfold hal_mem_available, mem_available. simpl mem_ctx. cbv iota beta.
  pose proof (contiguous_sum _ _ _ Hc) as Hsum.
  apply contiguous_sizes in Hc.
  rewrite available_loop_unused; auto; try lia.
  eapply Forall_impl; [| exact Hc]. simpl. intros x. lia.
Qed.

(** C1 on the code.  Over a 1024-byte window at 4096, a request of
    [SIZE_MAX] bytes is rounded by [align_size] to 0 and succeeds with a
    used block of size 0 at 4096; a request of 64 bytes then returns 4096
    as well.  The client releases both pointers, the second release finds
    the (already unused) empty block first and does nothing, and with no
    pointer left outstanding [hal_mem_available] is 960 although the block
    sizes still add up to 1024. *)
Theorem C1_oversized_request_strands_block :
  forall c : hal_context,
    let s0 := fresh_ctx c 4096 1024 in
    let s1 := mem_step s0 (Alloc SIZE_MAX true) in
    let s2 := mem_step s1 (Alloc 64 true) in
    let s3 := mem_step s2 (Free 4096) in
    let s4 := mem_step s3 (Free 4096) in
    align_size SIZE_MAX = 0 /\
    snd s1 = [4096] /\ snd s2 = [4096; 4096] /\
    snd s3 = [4096] /\ snd s4 = [] /\
    ctx_blocks (fst s4) =
      [ mk_block 4096 0 false; mk_block 4096 64 true;
        mk_block 4160 960 false ] /\
    sum_sizes (ctx_blocks (fst s4)) = 1024 /\
    hal_mem_available (fst s4) = 960.
Proof.
  intros c. repeat split; vm_compute; reflexivity.
Qed.

(** ** Best fit *)

(** C3, as the code has it.  In every state an initialised allocator can
    reach over a window that lies in the address space at a non-NULL
    base, and for
    every request [sz > 0] small enough that neither the rounding nor the
    split threshold leaves [size_t]:
    - [align_size] rounds [sz] up to the next multiple of 64;
    - if no unused block is as large as the rounded request the call
      returns NULL and changes nothing;
    - otherwise the block chosen is an unused block of least size among
      those at least as large as the rounded request; if its size exceeds
      the rounded request by more than [sizeof(struct mem_block)] plus the
      alignment, then, when the host [malloc] of the new node succeeds,
      it is replaced by a used block of exactly the rounded size followed
      by an unused remainder and its address is returned, and, when that
      [malloc] fails, the call returns NULL and changes nothing; if it
      does not exceed it, the block is marked used whole and its address
      is returned. *)
Theorem C3_alloc_best_fit :
  forall (c : hal_context) (base total : Z) (ops : list mem_op)
         (sz : Z) (ok : bool),
    0 < base -> 0 <= total -> base + total < 2 ^ SIZE_BITS ->
    0 < sz ->
    sz + (HAL_MEM_ALIGN - 1) + sizeof_mem_block + HAL_MEM_ALIGN < 2 ^ SIZE_BITS ->
    let ctx := fst (run_ops ops (fresh_ctx c base total)) in
    let bs := ctx_blocks ctx in
    let rsz := round_up sz in
    let p := fst (hal_mem_alloc ctx sz ok) in
    let ctx' := snd (hal_mem_alloc ctx sz ok) in
    align_size sz = rsz /\
    ((forall b, In b bs -> ~ fits rsz b) -> p = NULL /\ ctx' = ctx) /\
    (forall b0, In b0 bs -> fits rsz b0 ->
       exists pre best post,
         bs = pre ++ best :: post /\ fits rsz best /\
         (forall x, In x bs -> fits rsz x -> size best <= size x) /\
         if rsz + sizeof_mem_block + HAL_MEM_ALIGN <? size best then
           if ok then
             p = addr best /\
             ctx_blocks ctx' =
               pre ++ [ mk_block (addr best) rsz true;
                        mk_block (addr best + rsz) (size best - rsz) false ]
                   ++ post
           else p = NULL /\ ctx' = ctx
         else
           p = addr best /\
           ctx_blocks ctx' = pre ++ [ mk_block (addr best) (size best) true ]
                                 ++ post).
Proof.
  intros c base total ops sz ok Hb Ht Hw Hsz Hbig ctx bs rsz p ctx'.
  subst p ctx' bs ctx. rewrite run_ops_fresh.
  set (m := fold_left mem_step_core ops (fresh_mem base total)).
  assert (Hc : contiguous base (blocks m) (base + total)).
  { apply (run_core_contiguous base total); [lia | exact Hw |].
    apply fresh_contiguous. exact Ht. }
  apply contiguous_sizes in Hc. rewrite Forall_forall in Hc.
  assert (Hr : align_size sz = rsz).
  { apply align_size_round_up; unfold HAL_MEM_ALIGN, sizeof_mem_block in *; lia. }
  pose proof (round_up_bounds sz) as Hrb. fold rsz in Hrb.
  assert (Hthr : wrap (rsz + sizeof_mem_block + HAL_MEM_ALIGN)
                 = rsz + sizeof_mem_block + HAL_MEM_ALIGN).
  { apply wrap_small. unfold HAL_MEM_ALIGN, sizeof_mem_block in *. lia. }
  split; [exact Hr |].
  unfold hal_mem_alloc. simpl mem_ctx. cbv iota beta.
  replace (sz =? 0) with false by (symmetry; apply Z.eqb_neq; lia).
  simpl ctx_blocks.
  destruct (mem_alloc_cases m sz ok)
    as [[Hnone He] | (pre & best & post & Hbs & Hfit & Hmax & Hmin & Hcase)];
    rewrite Hr in *.
  - rewrite He. simpl. split; [auto |].
    intros b0 Hin Hf. exfalso.
    specialize (Hnone b0 Hin Hf). specialize (Hc b0 Hin).
    unfold SIZE_MAX in Hnone. lia.
  - split.
    + intros Hno. exfalso. apply (Hno best); [| exact Hfit].
      rewrite Hbs. apply in_elt.
    + intros _ _ _. exists pre, best, post.
      split; [exact Hbs |]. split; [exact Hfit |]. split; [exact Hmin |].
      assert (Hbest : base <= addr best /\ 0 <= size best /\
                      addr best + size best <= base + total).
      { apply Hc. rewrite Hbs. apply in_elt. }
      destruct Hfit as [Hu Hle].
      rewrite Hthr in Hcase.
      destruct Hcase as [(Hs & -> & He) | [(Hs & -> & He) | (Hs & He)]];
        rewrite He; simpl.
      * rewrite (proj2 (Z.ltb_lt _ _) Hs).
        rewrite (wrap_small (addr best + rsz)) by lia.
        rewrite (wrap_small (size best - rsz)) by lia.
        split; reflexivity.
      * rewrite (proj2 (Z.ltb_lt _ _) Hs). split; reflexivity.
      * rewrite (proj2 (Z.ltb_ge _ _) Hs). split; reflexivity.
Qed.

(** A run of C3 on the fresh reference window: a 100-byte request is
    rounded to 128 and split off the single block. *)
Lemma C3_alloc_best_fit_witness :
  let c := sample_context HAL_STATUS_READY idle_device in
  let ctx := fst (run_ops [] (fresh_ctx c 4096 HAL_ACCEL_MEM_SIZE)) in
  align_size 100 = 128 /\
  fst (hal_mem_alloc ctx 100 true) = 4096 /\
  ctx_blocks (snd (hal_mem_alloc ctx 100 true)) =
    [ mk_block 4096 128 true;
      mk_block 4224 (HAL_ACCEL_MEM_SIZE - 128) false ].
Proof.
  intros c ctx.
  assert (H1 : 0 < 4096) by lia.
  assert (H2 : 0 <= HAL_ACCEL_MEM_SIZE) by (unfold HAL_ACCEL_MEM_SIZE; lia).
  assert (H3 : 4096 + HAL_ACCEL_MEM_SIZE < 2 ^ SIZE_BITS) by reflexivity.
  assert (H4 : 0 < 100) by lia.
  assert (H5 : 100 + (HAL_MEM_ALIGN - 1) + sizeof_mem_block + HAL_MEM_ALIGN
               < 2 ^ SIZE_BITS) by reflexivity.
  destruct (C3_alloc_best_fit c 4096 HAL_ACCEL_MEM_SIZE [] 100 true
                              H1 H2 H3 H4 H5) as (Ha & _ & _).
  split; [exact Ha |]. split; reflexivity.
Defined.

(** C3 as stated fails when the host cannot allocate the node a split
    needs: over a fresh 1024-byte window a 64-byte request finds an unused
    block that is large enough, and still the call returns NULL and marks
    nothing. *)
Lemma C3_malloc_failure_counterexample :
  let c := sample_context HAL_STATUS_READY idle_device in
  let ctx := fst (fresh_ctx c 4096 1024) in
  (exists b, In b (ctx_blocks ctx) /\ fits (round_up 64) b) /\
  hal_mem_alloc ctx 64 false = (NULL, ctx).
Proof.
  intros c ctx. split.
  - exists (mk_block 4096 1024 false). split.
    + left. reflexivity.
    + split; [reflexivity | vm_compute; discriminate].
  - reflexivity.
Qed.

(** ** The fragmentation scenario *)




Lemma hal_mem_alloc_core (c : hal_context) (m m' : hal_mem_context)
      (sz p : Z) (ok : bool) :
  sz <> 0 -> mem_alloc m sz ok = (p, m') ->
  hal_mem_alloc (Some (set_mem_ctx c (Some m))) sz ok =
  (p, Some (set_mem_ctx c (Some m'))).
Proof.
  intros Hsz He. unfold hal_mem_alloc. simpl mem_ctx. cbv iota beta.
  rewrite (proj2 (Z.eqb_neq sz 0) Hsz). rewrite He. reflexivity.
Qed.

Lemma hal_mem_free_core (c : hal_context) (m : hal_mem_context) (ptr : Z) :
  ptr <> NULL ->
  hal_mem_free (Some (set_mem_ctx c (Some m))) ptr =
  Some (set_mem_ctx c (Some (mem_free m ptr))).
Proof.
  intros Hp. unfold hal_mem_free. simpl mem_ctx. cbv iota beta.
  rewrite (proj2 (Z.eqb_neq ptr NULL) Hp). reflexivity.
Qed.




(** ** The polling wait *)

Lemma slept_step (c : hal_context) (k : nat) :
  slept (usleep 1000 (log_event c (EvPoll (status c)))) k = slept c (S k).
Proof.
  unfold slept, usleep, log_event. simpl.
  rewrite <- !app_assoc. simpl.
  replace (S (clock c + k)) with (clock c + S k)%nat by lia.
  reflexivity.
Qed.

Lemma slept_zero (c : hal_context) : slept c 0 = c.
Proof.
  unfold slept. simpl. rewrite Nat.add_0_r, app_nil_r.
  destruct c; reflexivity.
Qed.

Lemma wait_loop_timeout (n : nat) :
  forall c,
    (forall k, (k < n)%nat ->
       ready_word (status_at (device c) (clock c) (status c) k) = false) ->
    wait_loop n c = (false, slept c n).
Proof.
  induction n as [| n IH]; intros c H.
  - simpl. rewrite slept_zero. reflexivity.
  - simpl. pose proof (H O ltac:(lia)) as H0. simpl in H0.
    unfold ready_word in H0. rewrite H0.
    rewrite IH.
    + rewrite slept_step. reflexivity.
    + intros k Hk. simpl. apply (H (S k)). lia.
Qed.

Lemma wait_loop_ready (n : nat) :
  forall c k,
    (k < n)%nat ->
    ready_word (status_at (device c) (clock c) (status c) k) = true ->
    (forall j, (j < k)%nat ->
       ready_word (status_at (device c) (clock c) (status c) j) = false) ->
    wait_loop n c =
    (true,
     log_event (slept c k)
               (EvPoll (status_at (device c) (clock c) (status c) k))).
Proof.
  induction n as [| n IH]; intros c k Hk Hr Hn; [lia |].
  simpl. destruct k as [| k].
  - simpl in Hr. unfold ready_word in Hr. rewrite Hr.
    rewrite slept_zero. reflexivity.
  - pose proof (Hn O ltac:(lia)) as H0. simpl in H0.
    unfold ready_word in H0. rewrite H0.
    rewrite (IH _ k).
    + rewrite slept_step. reflexivity.
    + lia.
    + exact Hr.
    + intros j Hj. simpl. apply (Hn (S j)). lia.
Qed.

Lemma wait_loop_polls (n : nat) :
  forall c,
    (polls (Some (snd (wait_loop n c))) <= polls (Some c) + n)%nat.
Proof.
  unfold polls.
  induction n as [| n IH]; intros c; simpl.
  - lia.
  - destruct (negb (Z.land (status c) HAL_STATUS_READY =? 0)).
    + simpl. rewrite filter_app, length_app. simpl. lia.
    + specialize (IH (usleep 1000 (log_event c (EvPoll (status c))))).
      simpl in IH. rewrite !filter_app, !length_app in IH. simpl in IH. lia.
Qed.

Lemma wait_loop_window (n : nat) :
  forall c,
    mapped_memory (snd (wait_loop n c)) = mapped_memory c /\
    filter is_reg_write (trace (snd (wait_loop n c))) =
    filter is_reg_write (trace c).
Proof.
  induction n as [| n IH]; intros c; simpl.
  - auto.
  - destruct (negb (Z.land (status c) HAL_STATUS_READY =? 0)).
    + simpl. rewrite filter_app. simpl. rewrite app_nil_r. auto.
    + destruct (IH (usleep 1000 (log_event c (EvPoll (status c))))) as [H1 H2].
      rewrite H1, H2. simpl. rewrite !filter_app. simpl.
      rewrite !app_nil_r. auto.
Qed.

(** C6.  [hal_wait_for_ready] is a total function.  With the status words
    [seen 0], [seen 1], ... that the context shows at the successive polls:
    if none of the first 100 has the READY bit the call returns false
    after exactly 100 polls, each followed by a 1000 microsecond sleep; if
    poll [k < 100] is the first that shows READY the call returns true
    right at that poll, after [k] sleeps; whatever the context, the call
    makes at most 100 polls; on a NULL context it returns false at once. *)
Theorem C6_wait_for_ready_bounded :
  forall c : hal_context,
    let seen := status_at (device c) (clock c) (status c) in
    ((forall k, (k < MAX_RETRIES)%nat -> ready_word (seen k) = false) ->
     hal_wait_for_ready (Some c) = (false, Some (slept c MAX_RETRIES)))
    /\
    (forall k,
        (k < MAX_RETRIES)%nat -> ready_word (seen k) = true ->
        (forall j, (j < k)%nat -> ready_word (seen j) = false) ->
        hal_wait_for_ready (Some c) =
        (true, Some (log_event (slept c k) (EvPoll (seen k)))))
    /\
    (polls (snd (hal_wait_for_ready (Some c)))
     <= polls (Some c) + MAX_RETRIES)%nat
    /\
    hal_wait_for_ready None = (false, None).
Proof.
  intros c seen. unfold hal_wait_for_ready. repeat split.
  - intros H. rewrite wait_loop_timeout by exact H. reflexivity.
  - intros k Hk Hr Hn. rewrite (wait_loop_ready _ c k Hk Hr Hn). reflexivity.
  - pose proof (wait_loop_polls MAX_RETRIES c) as H.
    destruct (wait_loop MAX_RETRIES c) as [r c']. exact H.
Qed.

Lemma status_at_idle (clk : nat) (s : Z) (k : nat) :
  status_at idle_device clk s k = s.
Proof. revert clk. induction k as [| k IH]; intros clk; simpl; auto. Qed.

(** Two runs of C6: a context that stays BUSY times out after 100 polls
    and 100 sleeps; a context whose device turns READY during the third
    sleep is seen ready at the fourth poll. *)
Lemma C6_wait_for_ready_bounded_witness :
  (fst (hal_wait_for_ready
          (Some (sample_context HAL_STATUS_BUSY idle_device))) = false /\
   polls (snd (hal_wait_for_ready
                 (Some (sample_context HAL_STATUS_BUSY idle_device)))) = 100%nat)
  /\
  hal_wait_for_ready (Some (sample_context HAL_STATUS_BUSY (ready_after 3))) =
  (true,
   Some (log_event (slept (sample_context HAL_STATUS_BUSY (ready_after 3)) 3)
                   (EvPoll HAL_STATUS_READY))).
Proof.
  split.
  - destruct (C6_wait_for_ready_bounded
                (sample_context HAL_STATUS_BUSY idle_device)) as (H & _).
    rewrite H.
    + split; reflexivity.
    + intros k _. simpl. rewrite status_at_idle. reflexivity.
  - destruct (C6_wait_for_ready_bounded
                (sample_context HAL_STATUS_BUSY (ready_after 3)))
      as (_ & H & _).
    apply (H 3%nat).
    + unfold MAX_RETRIES. lia.
    + reflexivity.
    + intros j Hj.
      destruct j as [| [| [| j]]]; try reflexivity. lia.
Defined.

(** ** The register programmer *)

Lemma wait_for_ready_window (ctx : option hal_context) :
  reg_window (snd (hal_wait_for_ready ctx)) = reg_window ctx /\
  reg_writes (snd (hal_wait_for_ready ctx)) = reg_writes ctx.
Proof.
  destruct ctx as [c |]; [| split; reflexivity].
  unfold hal_wait_for_ready, reg_window, reg_writes, ctx_trace.
  pose proof (wait_loop_window MAX_RETRIES c) as H.
  destruct (wait_loop MAX_RETRIES c) as [r c']. exact H.
Qed.

Lemma write_config_timeout (ctx : option hal_context)
      (ir : hal_controller_ir_t) :
  fst (hal_wait_for_ready ctx) = false ->
  write_config ctx (Some ir) = (false, snd (hal_wait_for_ready ctx)).
Proof.
  intros H. unfold write_config.
  destruct ctx as [c |]; [| reflexivity].
  destruct (hal_wait_for_ready (Some c)) as [[|] ctx1];
    cbn [fst snd] in *; [discriminate | reflexivity].
Qed.

(** C4.  When the wait [hal_wait_for_ready] times out on a context, each
    of [hal_configure_lsu], [hal_configure_systolic] and
    [hal_configure_img2col] returns false and leaves the context exactly
    as the wait left it: the register window holds what it held before
    the call and no register write was made. *)
Theorem C4_configure_no_write_on_timeout :
  forall (ctx : option hal_context) (lsu : hal_lsu_config_t)
         (sa : hal_systolic_config_t) (i2c : hal_img2col_config_t),
    fst (hal_wait_for_ready ctx) = false ->
    let waited := snd (hal_wait_for_ready ctx) in
    hal_configure_lsu ctx lsu = (false, waited) /\
    hal_configure_systolic ctx sa = (false, waited) /\
    hal_configure_img2col ctx i2c = (false, waited) /\
    reg_window waited = reg_window ctx /\
    reg_writes waited = reg_writes ctx.
Proof.
  intros ctx lsu sa i2c H waited. subst waited.
  unfold hal_configure_lsu, hal_configure_systolic, hal_configure_img2col.
  rewrite !write_config_timeout by exact H.
  repeat split; apply wait_for_ready_window.
Qed.

(** A run of C4: a context that stays BUSY keeps its register window
    through a failed LSU configuration. *)
Lemma C4_configure_no_write_on_timeout_witness :
  let ctx := Some (sample_context HAL_STATUS_BUSY idle_device) in
  let cfg := lsu_cfg_of 4096 8192 64 in
  fst (hal_wait_for_ready ctx) = false /\
  hal_configure_lsu ctx cfg = (false, snd (hal_wait_for_ready ctx)) /\
  reg_window (snd (hal_wait_for_ready ctx)) = reg_window ctx.
Proof.
  intros ctx cfg.
  assert (H : fst (hal_wait_for_ready ctx) = false)
    by (vm_compute; reflexivity).
  destruct (C4_configure_no_write_on_timeout ctx cfg
              (systolic_cfg_of 0 0)
              (mk_img2col 0 0 0 0 0 0 0 0 0) H) as (Hl & _ & _ & Hw & _).
  split; [exact H |]. split; [exact Hl | exact Hw].
Defined.

(** ** The driver facade *)

(** C8.  Before [accel_init] (the session flag is clear) each of
    [accel_submit_op], [accel_wait_complete], [accel_configure],
    [accel_get_config] and [accel_reset_config] returns NOT_INITIALIZED
    and leaves the whole session, the HAL context and its event trace
    included, as it was; with the flag set, [accel_submit_op] on a NULL
    parameter pointer returns INVALID_PARAM and likewise changes
    nothing. *)
Theorem C8_facade_guards :
  forall (g : g_ctx_t) (params : option accel_op_params_t) (timeout : Z)
         (cfg : option accel_config_t) (out : bool),
    (initialized g = false ->
     accel_submit_op g params = (ACCEL_STATUS_NOT_INITIALIZED, g) /\
     accel_wait_complete g timeout = (ACCEL_STATUS_NOT_INITIALIZED, g) /\
     accel_configure g cfg = (ACCEL_STATUS_NOT_INITIALIZED, g) /\
     accel_get_config g out = (ACCEL_STATUS_NOT_INITIALIZED, None, g) /\
     accel_reset_config g = (ACCEL_STATUS_NOT_INITIALIZED, g))
    /\
    (initialized g = true ->
     accel_submit_op g None = (ACCEL_STATUS_INVALID_PARAM, g)).
Proof.
  intros g params timeout cfg out.
  unfold accel_submit_op, accel_wait_complete, accel_configure,
    accel_get_config, accel_reset_config.
  split; intros ->; simpl; repeat split; reflexivity.
Qed.

(** Two runs of C8: the zeroed session, and an initialised one handed a
    NULL parameter pointer. *)
Lemma C8_facade_guards_witness :
  accel_submit_op g_ctx_zero None = (ACCEL_STATUS_NOT_INITIALIZED, g_ctx_zero)
  /\
  accel_submit_op
    (sample_session (sample_context HAL_STATUS_READY idle_device)) None
  = (ACCEL_STATUS_INVALID_PARAM,
     sample_session (sample_context HAL_STATUS_READY idle_device)).
Proof.
  split.
  - apply (C8_facade_guards g_ctx_zero None 0 None false). reflexivity.
  - apply (C8_facade_guards
             (sample_session (sample_context HAL_STATUS_READY idle_device))
             None 0 None false).
    reflexivity.
Defined.

(** C10.  [accel_submit_op] does not depend on the [weights] field of its
    parameter record: replacing it by any other buffer gives the same
    status and the same session, register window and event trace
    included.  The runtime wrapper passes the weights buffer it is given
    into that field, so [MatrixMultiply] and [Convolution2D] do not depend
    on their weights argument either. *)
Theorem C10_weights_never_read :
  forall (g : g_ctx_t) (p : accel_op_params_t)
         (w w1 w2 i o : accel_buffer_t),
    accel_submit_op g (Some p) =
    accel_submit_op g
      (Some (mk_params (op_type p) (input p) (output p) w (flags p)))
    /\ MatrixMultiply g i w1 o = MatrixMultiply g i w2 o
    /\ Convolution2D g i w1 o = Convolution2D g i w2 o.
Proof.
  intros g p w w1 w2 i o. repeat split.
Qed.

(** [accel_wait_complete] never looks at its timeout: every value, 0
    included, gives the result of the fixed budget of 100 polls.  Were
    the status word of an initialised session BUSY, with a device that
    shows READY only after 150 sleeps, the call with timeout 0 would
    return TIMEOUT after 100 polls and 100 sleeps and record
    "Operation timed out".  No call of the driver brings the status word
    there: see [run_accel_ready]. *)
Lemma wait_complete_ignores_timeout :
  (forall (g : g_ctx_t) (timeout : Z),
      accel_wait_complete g timeout = accel_wait_complete g 0)
  /\
  let c := sample_context HAL_STATUS_BUSY (ready_after 150) in
  let r := accel_wait_complete (sample_session c) 0 in
  fst r = ACCEL_STATUS_TIMEOUT /\
  polls (hal (snd r)) = 100%nat /\
  option_map clock (hal (snd r)) = Some 100%nat /\
  accel_get_error (snd r) = "Operation timed out"%string /\
  ready_word (status_at (device c) (clock c) (status c) 150) = true.
Proof.
  split; [reflexivity |].
  repeat split; vm_compute; reflexivity.
Qed.

(* ================================================================== *)
(** * Further properties of the allocator *)

(** ** Evaluating a release at a known position *)

Lemma find_block_hit (pre post : list mem_block) (b : mem_block) (p : Z) :
  forall i,
    Forall (fun x => addr x <> p) pre -> addr b = p ->
    find_block (pre ++ b :: post) p i = Some (i + length pre)%nat.
Proof.
  induction pre as [| x pre IH]; intros i Hpre Hb; simpl.
  - rewrite (proj2 (Z.eqb_eq _ _) Hb). f_equal. lia.
  - inversion Hpre as [| ? ? Hx Hrest]; subst.
    rewrite (proj2 (Z.eqb_neq _ _) Hx).
    rewrite IH by auto. f_equal. lia.
Qed.

Lemma find_block_miss (l : list mem_block) (p : Z) :
  forall i, Forall (fun x => addr x <> p) l -> find_block l p i = None.
Proof.
  induction l as [| x l IH]; intros i H; simpl; [reflexivity |].
  inversion H as [| ? ? Hx Hrest]; subst.
  rewrite (proj2 (Z.eqb_neq _ _) Hx). apply IH. exact Hrest.
Qed.

Lemma set_blocks_same (m : hal_mem_context) : set_blocks m (blocks m) = m.
Proof. destruct m; reflexivity. Qed.

Lemma mem_free_absent (m : hal_mem_context) (p : Z) :
  Forall (fun x => addr x <> p) (blocks m) -> mem_free m p = m.
Proof.
  intros H. unfold mem_free. rewrite find_block_miss by exact H. reflexivity.
Qed.

Lemma mem_free_unused (m : hal_mem_context) (pre post : list mem_block)
      (b : mem_block) (p : Z) :
  blocks m = pre ++ b :: post ->
  Forall (fun x => addr x <> p) pre -> addr b = p -> used b = false ->
  mem_free m p = m.
Proof.
  intros Hbs Hpre Ha Hu. unfold mem_free. rewrite Hbs.
  rewrite find_block_hit by auto. cbn [Nat.add].
  rewrite nth_error_mid. rewrite Hu. reflexivity.
Qed.

(** A used block found at [p], with a used block (or nothing) before it:
    the release leaves the block, merged forward, in its place. *)
Lemma mem_free_found (m : hal_mem_context) (pre post : list mem_block)
      (b : mem_block) (p : Z) :
  blocks m = pre ++ b :: post ->
  Forall (fun x => addr x <> p) pre -> addr b = p -> used b = true ->
  last_free pre = false ->
  mem_free m p =
  set_blocks m (pre ++ fst (merge_next (mark_unused b) post)
                    :: snd (merge_next (mark_unused b) post)).
Proof.
  intros Hbs Hpre Ha Hu Hl. unfold mem_free. rewrite Hbs.
  rewrite find_block_hit by auto. cbn [Nat.add].
  rewrite nth_error_mid. rewrite Hu. cbn [negb].
  rewrite skipn_mid.
  destruct (merge_next (mark_unused b) post) as [b' rest]. cbn [fst snd].
  destruct (list_snoc_cases pre) as [-> | (pre' & prev & ->)].
  - reflexivity.
  - rewrite length_app. simpl length. rewrite Nat.add_1_r.
    rewrite nth_error_last_of_pre.
    unfold last_free in Hl. rewrite last_last in Hl.
    destruct (used prev); [| discriminate]. cbn [negb].
    replace (S (length pre')) with (length (pre' ++ [prev]))
      by (rewrite length_app; simpl; lia).
    rewrite firstn_mid. reflexivity.
Qed.

Lemma merge_next_stop (b : mem_block) (post : list mem_block) :
  head_free post = false -> merge_next b post = (b, post).
Proof.
  destruct post as [| n post]; simpl; [reflexivity |].
  destruct (used n); [reflexivity | discriminate].
Qed.

(** ** Well-formed allocator states *)

Lemma mem_alloc_fields (m : hal_mem_context) (sz : Z) (ok : bool) :
  base_addr (snd (mem_alloc m sz ok)) = base_addr m /\
  total_size (snd (mem_alloc m sz ok)) = total_size m.
Proof.
  destruct (mem_alloc_cases m sz ok)
    as [[_ ->] | (pre & best & post & _ & _ & _ & _ &
                  [(_ & _ & ->) | [(_ & _ & ->) | (_ & ->)]])];
    simpl; auto.
Qed.

Lemma mem_free_fields (m : hal_mem_context) (ptr : Z) :
  base_addr (mem_free m ptr) = base_addr m /\
  total_size (mem_free m ptr) = total_size m.
Proof.
  destruct (mem_free_cases m ptr)
    as [[-> _] | (pre & b & post & b' & rest & _ & _ & _ & _ & _ &
                  [[_ ->] | (pre' & prev & _ & _ & ->)])];
    simpl; auto.
Qed.

Lemma mem_step_core_fields (m : hal_mem_context) (op : mem_op) :
  base_addr (mem_step_core m op) = base_addr m /\
  total_size (mem_step_core m op) = total_size m.
Proof.
  destruct op as [sz ok | ptr]; simpl.
  - destruct (sz =? 0); [auto | apply mem_alloc_fields].
  - destruct (ptr =? NULL); [auto | apply mem_free_fields].
Qed.

Lemma run_core_fields (ops : list mem_op) :
  forall m,
    base_addr (fold_left mem_step_core ops m) = base_addr m /\
    total_size (fold_left mem_step_core ops m) = total_size m.
Proof.
  induction ops as [| op ops IH]; intros m; simpl; [auto |].
  destruct (IH (mem_step_core m op)) as [H1 H2].
  destruct (mem_step_core_fields m op) as [H3 H4].
  split; congruence.
Qed.

Lemma fold_step_core_fst (ops : list mem_op) :
  forall m live,
    fst (fold_left step_core ops (m, live)) = fold_left mem_step_core ops m.
Proof.
  induction ops as [| op ops IH]; intros m live; cbn [fold_left].
  - reflexivity.
  - apply IH.
Qed.

Lemma run_core_wf (base total : Z) (ops : list mem_op) :
  0 < base -> 0 <= total -> base + total < 2 ^ SIZE_BITS ->
  Forall request_ok ops ->
  mem_wf base total (fold_left mem_step_core ops (fresh_mem base total)).
Proof.
  intros Hb Ht Hw Hops.
  assert (Hbal : balanced base total
                   (fold_left step_core ops (fresh_mem base total, []))).
  { apply run_core_balanced; auto.
    split; [| split]; cbn [fst snd].
    - apply fresh_contiguous. exact Ht.
    - simpl. repeat constructor. intros [].
    - reflexivity. }
  destruct Hbal as (Hc & Hn & _). rewrite fold_step_core_fst in Hc, Hn.
  destruct (run_core_fields ops (fresh_mem base total)) as [Hf1 Hf2].
  repeat split; auto.
  apply run_core_naf. reflexivity.
Qed.

Lemma nodup_pre_ne (pre post : list mem_block) (b : mem_block) :
  NoDup (map addr (pre ++ b :: post)) ->
  Forall (fun x => addr x <> addr b) pre /\
  Forall (fun x => addr x <> addr b) post.
Proof.
  intros H. rewrite map_app in H. simpl in H.
  apply NoDup_remove_2 in H.
  split; apply Forall_forall; intros x Hin Heq; apply H; apply in_or_app;
    [left | right]; rewrite <- Heq; apply in_map; exact Hin.
Qed.

Lemma naf_around_free (pre post : list mem_block) (b : mem_block) :
  used b = false ->
  no_adjacent_free (pre ++ b :: post) = true ->
  last_free pre = false /\ head_free post = false.
Proof.
  intros Hu H. rewrite naf_app, naf_cons in H. simpl in H. rewrite Hu in H.
  simpl in H. split_andb.
  destruct (last_free pre), (head_free post); simpl in *;
    try discriminate; auto.
Qed.

Lemma mem_alloc_free_core (base total : Z) (m m' : hal_mem_context)
      (sz p : Z) (ok : bool) :
  0 < base -> base + total < 2 ^ SIZE_BITS ->
  mem_wf base total m ->
  mem_alloc m sz ok = (p, m') -> p <> NULL ->
  mem_free m' p = m.
Proof.
  intros Hb Hw (_ & _ & Hc & Hn & Hnaf) He Hp.
  pose proof (align_size_range sz) as Hr.
  destruct (mem_alloc_cases m sz ok)
    as [[_ He'] | (pre & best & post & Hbs & [Hu Hle] & _ & _ & Hcase)].
  { rewrite He' in He. inversion He. congruence. }
  rewrite Hbs in Hc, Hn, Hnaf.
  destruct (nodup_pre_ne _ _ _ Hn) as [Hpre _].
  destruct (naf_around_free _ _ _ Hu Hnaf) as [Hl Hh].
  apply contiguous_app in Hc. destruct Hc as (mid & Hc1 & Hba & Hbsz & Hc2).
  pose proof (contiguous_le _ _ _ Hc1).
  pose proof (contiguous_le _ _ _ Hc2).
  assert (Hbest : best = mk_block (addr best) (size best) false)
    by (destruct best; simpl in *; congruence).
  destruct Hcase as [(_ & _ & He') | [(_ & _ & He') | (_ & He')]];
    rewrite He' in He; inversion He; subst p m'; clear He.
  - rewrite (mem_free_found _ pre
               (mk_block (wrap (addr best + align_size sz))
                         (wrap (size best - align_size sz)) false :: post)
               (mk_block (addr best) (align_size sz) true) (addr best));
      auto.
    cbn [merge_next used negb]. rewrite merge_next_stop by exact Hh.
    cbn [fst snd]. unfold add_size, mark_unused. cbn [addr size used].
    rewrite (wrap_small (size best - align_size sz)) by lia.
    replace (align_size sz + (size best - align_size sz)) with (size best)
      by lia.
    rewrite (wrap_small (size best)) by lia.
    rewrite <- Hbest. unfold set_blocks. cbn [base_addr total_size].
    rewrite <- Hbs. destruct m; reflexivity.
  - congruence.
  - rewrite (mem_free_found _ pre post (mark_used best) (addr best)); auto.
    rewrite merge_next_stop by exact Hh. cbn [fst snd].
    unfold mark_unused, mark_used. cbn [addr size used].
    rewrite <- Hbest. unfold set_blocks. cbn [base_addr total_size].
    rewrite <- Hbs. destruct m; reflexivity.
Qed.

(** ** Release undoes allocation *)

(** X1.  In any state reached from a fresh allocator by non-overflowing
    requests (over a window at a non-NULL base inside the address space),
    a successful [hal_mem_alloc] of any size followed at once by
    [hal_mem_free] of the pointer it returned gives back the context as it
    was before the allocation: same blocks, same sizes, same flags. *)
Theorem X1_alloc_free_round_trip :
  forall (c : hal_context) (base total : Z) (ops : list mem_op)
         (sz : Z) (ok : bool),
    0 < base -> 0 <= total -> base + total < 2 ^ SIZE_BITS ->
    Forall request_ok ops ->
    let ctx := fst (run_ops ops (fresh_ctx c base total)) in
    let r := hal_mem_alloc ctx sz ok in
    fst r <> NULL ->
    hal_mem_free (snd r) (fst r) = ctx.
Proof.
  intros c base total ops sz ok Hb Ht Hw Hops ctx r. subst r ctx.
  rewrite run_ops_fresh.
  set (m := fold_left mem_step_core ops (fresh_mem base total)).
  assert (Hwf : mem_wf base total m) by (apply run_core_wf; auto).
  destruct (Z.eqb_spec sz 0) as [-> | Hnz].
  { simpl. congruence. }
  destruct (mem_alloc m sz ok) as [p m'] eqn:He.
  rewrite (hal_mem_alloc_core c m m' sz p ok Hnz He). cbn [fst snd].
  intros Hp. rewrite hal_mem_free_core by exact Hp.
  rewrite (mem_alloc_free_core base total m m' sz p ok); auto.
Qed.

(** A run of X1 on the reference window, after two earlier requests. *)
Lemma X1_alloc_free_round_trip_witness :
  let c := sample_context HAL_STATUS_READY idle_device in
  let ops := [Alloc 300 true; Alloc 64 true] in
  let ctx := fst (run_ops ops (fresh_ctx c 4096 HAL_ACCEL_MEM_SIZE)) in
  fst (hal_mem_alloc ctx 1000 true) = 4480 /\
  hal_mem_free (snd (hal_mem_alloc ctx 1000 true))
               (fst (hal_mem_alloc ctx 1000 true)) = ctx.
Proof.
  intros c ops ctx. split; [reflexivity |].
  apply (X1_alloc_free_round_trip c 4096 HAL_ACCEL_MEM_SIZE ops 1000 true).
  - lia.
  - unfold HAL_ACCEL_MEM_SIZE. lia.
  - reflexivity.
  - repeat constructor; try (simpl; lia); reflexivity.
  - vm_compute. discriminate.
Defined.

(** ** Releases that do nothing *)

Lemma mem_free_twice (base total : Z) (m : hal_mem_context) (p : Z) :
  mem_wf base total m ->
  mem_free (mem_free m p) p = mem_free m p.
Proof.
  intros (_ & _ & _ & Hn & _).
  destruct (mem_free_cases m p)
    as [[He _] | (pre & b & post & b' & rest & Hbs & Ha & Hu & Hpre & Hm &
                  Hcase)].
  { rewrite He. exact He. }
  destruct (merge_next_shape _ _ _ _ Hm)
    as (frees & Hpost & _ & _ & Hab & Hub).
  simpl in Hab, Hub.
  destruct Hcase as [[_ He] | (pre' & prev & Hpre' & _ & He)]; rewrite He.
  - apply (mem_free_unused _ pre rest b'); auto. congruence.
  - apply mem_free_absent. cbn [blocks set_blocks].
    rewrite Hbs in Hn. destruct (nodup_pre_ne _ _ _ Hn) as [_ Hpost'].
    rewrite Hpost in Hpost'. apply Forall_app in Hpost'.
    destruct Hpost' as [_ Hrest].
    rewrite Hpre' in Hpre. apply Forall_app in Hpre.
    destruct Hpre as [Hp1 Hp2]. inversion Hp2; subst.
    apply Forall_app. split; [exact Hp1 |].
    constructor; [simpl; assumption |].
    eapply Forall_impl; [| exact Hrest]. simpl. intros x Hx. congruence.
Qed.

(** X2.  In any state reached by non-overflowing requests, releasing the
    same pointer a second time changes nothing; releasing NULL changes
    nothing; releasing an address that is the address of no block changes
    nothing. *)
Theorem X2_free_noops :
  forall (c : hal_context) (base total : Z) (ops : list mem_op) (ptr : Z),
    0 < base -> 0 <= total -> base + total < 2 ^ SIZE_BITS ->
    Forall request_ok ops ->
    let ctx := fst (run_ops ops (fresh_ctx c base total)) in
    hal_mem_free (hal_mem_free ctx ptr) ptr = hal_mem_free ctx ptr /\
    hal_mem_free ctx NULL = ctx /\
    (Forall (fun b => addr b <> ptr) (ctx_blocks ctx) ->
     hal_mem_free ctx ptr = ctx).
Proof.
  intros c base total ops ptr Hb Ht Hw Hops ctx. subst ctx.
  rewrite run_ops_fresh.
  set (m := fold_left mem_step_core ops (fresh_mem base total)).
  assert (Hwf : mem_wf base total m) by (apply run_core_wf; auto).
  split; [| split].
  - destruct (Z.eqb_spec ptr NULL) as [-> | Hnz]; [reflexivity |].
    rewrite hal_mem_free_core by exact Hnz.
    rewrite hal_mem_free_core by exact Hnz.
    rewrite (mem_free_twice base total) by exact Hwf. reflexivity.
  - reflexivity.
  - simpl ctx_blocks. intros Hnone.
    destruct (Z.eqb_spec ptr NULL) as [-> | Hnz]; [reflexivity |].
    rewrite hal_mem_free_core by exact Hnz.
    rewrite mem_free_absent by exact Hnone. reflexivity.
Qed.

(** A run of X2: a block is released twice; the second release finds
    nothing to do. *)
Lemma X2_free_noops_witness :
  let c := sample_context HAL_STATUS_READY idle_device in
  let ops := [Alloc 300 true; Alloc 64 true] in
  let ctx := fst (run_ops ops (fresh_ctx c 4096 HAL_ACCEL_MEM_SIZE)) in
  ctx_blocks (hal_mem_free ctx 4096) =
    [ mk_block 4096 320 false; mk_block 4416 64 true;
      mk_block 4480 (HAL_ACCEL_MEM_SIZE - 384) false ] /\
  hal_mem_free (hal_mem_free ctx 4096) 4096 = hal_mem_free ctx 4096.
Proof.
  intros c ops ctx. split; [reflexivity |].
  assert (H1 : 0 < 4096) by lia.
  assert (H2 : 0 <= HAL_ACCEL_MEM_SIZE) by (unfold HAL_ACCEL_MEM_SIZE; lia).
  assert (H3 : 4096 + HAL_ACCEL_MEM_SIZE < 2 ^ SIZE_BITS) by reflexivity.
  assert (H4 : Forall request_ok ops)
    by (repeat constructor; try (simpl; lia); reflexivity).
  destruct (X2_free_noops c 4096 HAL_ACCEL_MEM_SIZE ops 4096 H1 H2 H3 H4)
    as (H & _ & _).
  exact H.
Defined.

(** ** Requests that are refused *)

Lemma run_core_tiled (base total : Z) (ops : list mem_op) :
  0 <= base -> 0 <= total -> base + total < 2 ^ SIZE_BITS ->
  contiguous base
    (blocks (fold_left mem_step_core ops (fresh_mem base total)))
    (base + total).
Proof.
  intros Hb Ht Hw.
  apply (run_core_contiguous base total Hb Hw). apply fresh_contiguous.
  exact Ht.
Qed.

Lemma set_mem_ctx_twice (c : hal_context) (m1 m2 : option hal_mem_context) :
  set_mem_ctx (set_mem_ctx c m1) m2 = set_mem_ctx c m2.
Proof. reflexivity. Qed.

(** X3.  In every state an initialised allocator can reach, whatever the
    earlier calls, [hal_mem_alloc] returns NULL and leaves the context as
    it is for a request of 0 bytes and for a request larger than the whole
    window (as long as its rounding stays inside [size_t]); on a NULL
    context and on a context whose allocator [hal_mem_cleanup] has torn
    down it returns NULL for every size. *)
Theorem X3_alloc_refused :
  forall (c : hal_context) (base total : Z) (ops : list mem_op)
         (sz : Z) (ok : bool),
    0 <= base -> 0 <= total -> base + total < 2 ^ SIZE_BITS ->
    let ctx := fst (run_ops ops (fresh_ctx c base total)) in
    hal_mem_alloc ctx 0 ok = (NULL, ctx) /\
    hal_mem_alloc None sz ok = (NULL, None) /\
    hal_mem_alloc (hal_mem_cleanup ctx) sz ok = (NULL, hal_mem_cleanup ctx) /\
    (total < sz -> sz + (HAL_MEM_ALIGN - 1) < 2 ^ SIZE_BITS ->
     hal_mem_alloc ctx sz ok = (NULL, ctx)).
Proof.
  intros c base total ops sz ok Hb Ht Hw ctx. subst ctx.
  rewrite run_ops_fresh.
  set (m := fold_left mem_step_core ops (fresh_mem base total)).
  assert (Hc : contiguous base (blocks m) (base + total))
    by (apply run_core_tiled; auto).
  repeat split.
  intros Hbig Hno.
  assert (Hnz : sz <> 0) by lia.
  destruct (mem_alloc_cases m sz ok)
    as [[_ He] | (pre & best & post & Hbs & [Hu Hle] & _ & _ & _)].
  - rewrite (hal_mem_alloc_core c m m sz NULL ok Hnz He). reflexivity.
  - exfalso.
    rewrite align_size_round_up in Hle by word_lia.
    pose proof (round_up_bounds sz).
    apply contiguous_sizes in Hc. rewrite Forall_forall in Hc.
    assert (Hin : In best (blocks m)) by (rewrite Hbs; apply in_elt).
    specialize (Hc best Hin). lia.
Qed.

(** A run of X3: one byte more than the reference window. *)
Lemma X3_alloc_refused_witness :
  let c := sample_context HAL_STATUS_READY idle_device in
  let ctx := fst (run_ops [Alloc 64 true]
                          (fresh_ctx c 4096 HAL_ACCEL_MEM_SIZE)) in
  hal_mem_alloc ctx (HAL_ACCEL_MEM_SIZE + 1) true = (NULL, ctx).
Proof.
  intros c ctx.
  apply (X3_alloc_refused c 4096 HAL_ACCEL_MEM_SIZE [Alloc 64 true]
                          (HAL_ACCEL_MEM_SIZE + 1) true).
  - lia.
  - unfold HAL_ACCEL_MEM_SIZE. lia.
  - reflexivity.
  - lia.
  - reflexivity.
Defined.

(** ** Accounting of the free space *)

Lemma used_total_app (l1 l2 : list mem_block) :
  used_total (l1 ++ l2) = used_total l1 + used_total l2.
Proof.
  unfold used_total. rewrite filter_app.
  induction (filter used l1) as [| b l IH]; simpl; lia.
Qed.

Lemma used_total_cons (b : mem_block) (l : list mem_block) :
  used_total (b :: l) = (if used b then size b else 0) + used_total l.
Proof. unfold used_total. simpl. destruct (used b); reflexivity. Qed.

Lemma used_total_unused (l : list mem_block) :
  Forall (fun x => used x = false) l -> used_total l = 0.
Proof.
  induction 1 as [| b l Hb _ IH]; [reflexivity |].
  rewrite used_total_cons, Hb, IH. reflexivity.
Qed.

Lemma used_total_bounds (l : list mem_block) :
  Forall (fun b => 0 <= size b) l -> 0 <= used_total l <= sum_sizes l.
Proof.
  induction 1 as [| b l Hb _ IH]; simpl; [unfold used_total; simpl; lia |].
  rewrite used_total_cons. destruct (used b); lia.
Qed.

Lemma available_loop_eq (bs : list mem_block) :
  forall acc,
    0 <= acc ->
    Forall (fun b => 0 <= size b) bs ->
    acc + sum_sizes bs < 2 ^ SIZE_BITS ->
    available_loop bs acc = acc + sum_sizes bs - used_total bs.
Proof.
  induction bs as [| b bs IH]; intros acc Ha Hs Hlt;
    cbn [available_loop sum_sizes] in *.
  - unfold used_total. simpl. lia.
  - inversion Hs as [| ? ? Hs1 Hs2]; subst.
    pose proof (sum_sizes_nonneg bs Hs2).
    rewrite used_total_cons.
    destruct (used b); cbn [negb].
    + rewrite IH; auto; lia.
    + rewrite wrap_small by lia. rewrite IH; auto; lia.
Qed.

Lemma mem_available_eq (base total : Z) (m : hal_mem_context) :
  0 <= base -> base + total < 2 ^ SIZE_BITS ->
  contiguous base (blocks m) (base + total) ->
  mem_available m = total - used_total (blocks m) /\
  0 <= used_total (blocks m) <= total.
Proof.
  intros Hb Hw Hc.
  pose proof (contiguous_sum _ _ _ Hc) as Hsum.
  assert (Hs : Forall (fun b => 0 <= size b) (blocks m)).
  { apply contiguous_sizes in Hc.
    eapply Forall_impl; [| exact Hc]. simpl. intros x. lia. }
  pose proof (used_total_bounds _ Hs).
  unfold mem_available. rewrite available_loop_eq; auto; lia.
Qed.

Lemma mem_alloc_used (base total : Z) (m : hal_mem_context)
      (sz : Z) (ok : bool) :
  0 < base -> base + total < 2 ^ SIZE_BITS ->
  contiguous base (blocks m) (base + total) ->
  (fst (mem_alloc m sz ok) <> NULL ->
   used_total (blocks m) + align_size sz
   <= used_total (blocks (snd (mem_alloc m sz ok)))) /\
  (fst (mem_alloc m sz ok) = NULL -> snd (mem_alloc m sz ok) = m).
Proof.
  intros Hb Hw Hc.
  destruct (mem_alloc_cases m sz ok)
    as [[_ He] | (pre & best & post & Hbs & [Hu Hle] & _ & _ & Hcase)].
  { rewrite He. simpl. split; [congruence | reflexivity]. }
  assert (Hnn : addr best <> NULL).
  { apply contiguous_sizes in Hc. rewrite Forall_forall in Hc.
    assert (Hin : In best (blocks m)) by (rewrite Hbs; apply in_elt).
    specialize (Hc best Hin). unfold NULL. lia. }
  destruct Hcase as [(_ & _ & He) | [(_ & _ & He) | (_ & He)]];
    rewrite He; cbn [fst snd blocks set_blocks].
  - split; [intros _ | congruence].
    rewrite Hbs. unfold split_block.
    rewrite !used_total_app, !used_total_cons. simpl.
    rewrite Hu. change (used_total []) with 0. lia.
  - split; [congruence | reflexivity].
  - split; [intros _ | congruence].
    rewrite Hbs. rewrite !used_total_app, !used_total_cons. simpl.
    rewrite Hu. change (used_total []) with 0. lia.
Qed.

Lemma mem_free_used (base total : Z) (m : hal_mem_context) (ptr : Z) :
  contiguous base (blocks m) (base + total) ->
  used_total (blocks (mem_free m ptr)) <= used_total (blocks m).
Proof.
  intros Hc.
  destruct (mem_free_cases m ptr)
    as [[-> _] | (pre & b & post & b' & rest & Hbs & Ha & Hu & Hpre & Hm &
                  Hcase)]; [lia |].
  destruct (merge_next_shape _ _ _ _ Hm)
    as (frees & -> & Hfrees & _ & _ & Hub).
  simpl in Hub.
  assert (Hsz : 0 <= size b).
  { apply contiguous_sizes in Hc. rewrite Forall_forall in Hc.
    assert (Hin : In b (blocks m)) by (rewrite Hbs; apply in_elt).
    specialize (Hc b Hin). lia. }
  rewrite Hbs.
  rewrite used_total_app, used_total_cons, used_total_app, Hu.
  rewrite (used_total_unused frees Hfrees).
  destruct Hcase as [[_ ->] | (pre' & prev & -> & Hpv & ->)];
    cbn [blocks set_blocks].
  - rewrite used_total_app, used_total_cons, Hub. lia.
  - rewrite !used_total_app, !used_total_cons. cbn [add_size used].
    rewrite Hpv. change (used_total []) with 0. lia.
Qed.

(** X4.  In every state an initialised allocator can reach over a window
    at a non-NULL base, whatever the earlier calls, [hal_mem_available] is
    the window size minus the total size of the blocks in use, so it lies
    between 0 and the window size; a successful [hal_mem_alloc] never
    raises it, and lowers it by at least the request rounded up to 64
    (which is at least the request) when that rounding stays inside
    [size_t]; a failed one leaves it as it is; [hal_mem_free] never
    lowers it. *)
Theorem X4_available_accounting :
  forall (c : hal_context) (base total : Z) (ops : list mem_op)
         (sz : Z) (ok : bool) (ptr : Z),
    0 < base -> 0 <= total -> base + total < 2 ^ SIZE_BITS ->
    let ctx := fst (run_ops ops (fresh_ctx c base total)) in
    let r := hal_mem_alloc ctx sz ok in
    hal_mem_available ctx = total - used_total (ctx_blocks ctx) /\
    0 <= hal_mem_available ctx <= total /\
    (fst r <> NULL ->
     hal_mem_available (snd r) <= hal_mem_available ctx) /\
    (fst r <> NULL ->
     0 <= sz -> sz + (HAL_MEM_ALIGN - 1) < 2 ^ SIZE_BITS ->
     sz <= round_up sz /\
     hal_mem_available (snd r) + round_up sz <= hal_mem_available ctx) /\
    (fst r = NULL -> hal_mem_available (snd r) = hal_mem_available ctx) /\
    hal_mem_available ctx <= hal_mem_available (hal_mem_free ctx ptr).
Proof.
  intros c base total ops sz ok ptr Hb Ht Hw ctx r. subst r ctx.
  rewrite run_ops_fresh.
  set (m := fold_left mem_step_core ops (fresh_mem base total)).
  assert (Hb0 : 0 <= base) by lia.
  assert (Hc : contiguous base (blocks m) (base + total))
    by (apply run_core_tiled; auto).
  destruct (mem_available_eq base total m Hb0 Hw Hc) as [Hav Hut].
  cbn [hal_mem_available ctx_blocks mem_ctx set_mem_ctx].
  split; [exact Hav |]. split; [lia |].
  assert (Hal : (fst (hal_mem_alloc (Some (set_mem_ctx c (Some m))) sz ok)
                 <> NULL ->
                 hal_mem_available
                   (snd (hal_mem_alloc (Some (set_mem_ctx c (Some m))) sz ok))
                 + align_size sz <= mem_available m) /\
                (fst (hal_mem_alloc (Some (set_mem_ctx c (Some m))) sz ok)
                 = NULL ->
                 hal_mem_available
                   (snd (hal_mem_alloc (Some (set_mem_ctx c (Some m))) sz ok))
                 = mem_available m)).
  { destruct (Z.eqb_spec sz 0) as [-> | Hnz].
    { simpl. split; [congruence | reflexivity]. }
    destruct (mem_alloc m sz ok) as [p m'] eqn:He.
    rewrite (hal_mem_alloc_core c m m' sz p ok Hnz He).
    cbn [fst snd hal_mem_available mem_ctx set_mem_ctx].
    pose proof (mem_alloc_contiguous m sz ok base (base + total) Hb0 Hw Hc)
      as Hc'.
    destruct (mem_alloc_used base total m sz ok Hb Hw Hc) as [Hu1 Hu2].
    rewrite He in Hc', Hu1, Hu2. cbn [fst snd] in *.
    destruct (mem_available_eq base total m' Hb0 Hw Hc') as [Hav' _].
    split.
    - intros Hp. specialize (Hu1 Hp). lia.
    - intros Hp. rewrite (Hu2 Hp). reflexivity. }
  destruct Hal as [Hal1 Hal2].
  split.
  { intros Hp. specialize (Hal1 Hp).
    pose proof (align_size_range sz). lia. }
  split.
  { intros Hp Hsz Hno. specialize (Hal1 Hp).
    rewrite align_size_round_up in Hal1 by word_lia.
    pose proof (round_up_bounds sz). lia. }
  split; [exact Hal2 |].
  destruct (Z.eqb_spec ptr NULL) as [-> | Hnz]; [simpl; lia |].
  rewrite hal_mem_free_core by exact Hnz.
  cbn [hal_mem_available mem_ctx set_mem_ctx].
  pose proof (mem_free_contiguous m ptr base (base + total) Hb0 Hw Hc) as Hc'.
  destruct (mem_available_eq base total _ Hb0 Hw Hc') as [Hav' _].
  pose proof (mem_free_used base total m ptr Hc). lia.
Qed.

(** A run of X4 on the reference window: 1000 bytes are rounded to 1024. *)
Lemma X4_available_accounting_witness :
  let c := sample_context HAL_STATUS_READY idle_device in
  let ctx := fst (run_ops [] (fresh_ctx c 4096 HAL_ACCEL_MEM_SIZE)) in
  hal_mem_available ctx = HAL_ACCEL_MEM_SIZE /\
  round_up 1000 = 1024 /\
  hal_mem_available (snd (hal_mem_alloc ctx 1000 true)) + round_up 1000
  <= hal_mem_available ctx.
Proof.
  intros c ctx. split; [reflexivity |]. split; [reflexivity |].
  assert (H1 : 0 < 4096) by lia.
  assert (H2 : 0 <= HAL_ACCEL_MEM_SIZE) by (unfold HAL_ACCEL_MEM_SIZE; lia).
  assert (H3 : 4096 + HAL_ACCEL_MEM_SIZE < 2 ^ SIZE_BITS) by reflexivity.
  destruct (X4_available_accounting c 4096 HAL_ACCEL_MEM_SIZE [] 1000 true 0
              H1 H2 H3) as (_ & _ & _ & H & _ & _).
  apply H.
  - vm_compute. discriminate.
  - lia.
  - reflexivity.
Defined.

(** ** Outstanding allocations do not collide *)

Lemma contiguous_ordered (bs : list mem_block) :
  forall a e i j b1 b2,
    contiguous a bs e ->
    (i < j)%nat ->
    nth_error bs i = Some b1 -> nth_error bs j = Some b2 ->
    addr b1 + size b1 <= addr b2.
Proof.
  induction bs as [| b bs IH]; intros a e i j b1 b2 Hc Hij H1 H2.
  - destruct i; discriminate.
  - destruct Hc as (Ha & Hs & Hc).
    destruct j as [| j]; [lia |]. simpl in H2.
    destruct i as [| i].
    + simpl in H1. inversion H1; subst b1.
      apply nth_error_In in H2.
      apply contiguous_sizes in Hc. rewrite Forall_forall in Hc.
      specialize (Hc b2 H2). lia.
    + simpl in H1. apply (IH _ _ i j b1 b2 Hc); auto. lia.
Qed.

Lemma nodup_used_addrs (bs : list mem_block) :
  NoDup (map addr bs) -> NoDup (used_addrs bs).
Proof.
  unfold used_addrs. induction bs as [| b bs IH]; intros H; simpl.
  - constructor.
  - simpl in H. inversion H as [| ? ? Hnin Hnd]; subst.
    destruct (used b); [| auto].
    simpl. constructor; [| auto].
    intros Hin. apply Hnin. apply in_map_iff in Hin.
    destruct Hin as (x & Hx & Hin). apply filter_In in Hin.
    apply in_map_iff. exists x. tauto.
Qed.

(** X5.  In any state reached by non-overflowing requests, the pointers
    the client holds (handed out and not yet released) are pairwise
    distinct, they are exactly the addresses of the blocks marked used,
    and blocks never overlap: a block ends at or before the start of every
    block after it in the list. *)
Theorem X5_outstanding_allocations_distinct :
  forall (c : hal_context) (base total : Z) (ops : list mem_op),
    0 < base -> 0 <= total -> base + total < 2 ^ SIZE_BITS ->
    Forall request_ok ops ->
    let st := run_ops ops (fresh_ctx c base total) in
    NoDup (snd st) /\
    (forall p,
        In p (snd st) <->
        exists b, In b (ctx_blocks (fst st)) /\ used b = true /\ addr b = p) /\
    (forall i j b1 b2,
        (i < j)%nat ->
        nth_error (ctx_blocks (fst st)) i = Some b1 ->
        nth_error (ctx_blocks (fst st)) j = Some b2 ->
        addr b1 + size b1 <= addr b2).
Proof.
  intros c base total ops Hb Ht Hw Hops st. subst st.
  unfold fresh_ctx.
  change (snd (hal_mem_init c base total true true))
    with (set_mem_ctx c (Some (fresh_mem base total))).
  rewrite run_ops_live. cbn [fst snd ctx_blocks mem_ctx set_mem_ctx].
  assert (H : balanced base total
                (fold_left step_core ops (fresh_mem base total, []))).
  { apply run_core_balanced; auto.
    split; [| split]; cbn [fst snd].
    - apply fresh_contiguous. exact Ht.
    - simpl. repeat constructor. intros [].
    - reflexivity. }
  destruct (fold_left step_core ops (fresh_mem base total, []))
    as [m live]. destruct H as (Hc & Hn & Hp). cbn [fst snd] in *.
  split; [| split].
  - apply (Permutation_NoDup (Permutation_sym Hp)).
    apply nodup_used_addrs. exact Hn.
  - intros p. split.
    + intros Hin. apply (Permutation_in _ Hp) in Hin.
      apply used_addrs_in. exact Hin.
    + intros (b & Hin & Hu & Ha).
      apply (Permutation_in _ (Permutation_sym Hp)).
      unfold used_addrs. apply in_map_iff. exists b. split; [exact Ha |].
      apply filter_In. auto.
  - intros i j b1 b2. apply (contiguous_ordered _ _ _ _ _ _ _ Hc).
Qed.

(** A run of X5: three blocks handed out, the middle one released. *)
Lemma X5_outstanding_allocations_distinct_witness :
  let c := sample_context HAL_STATUS_READY idle_device in
  let ops := [Alloc 100 true; Alloc 200 true; Alloc 300 true; Free 4224] in
  let st := run_ops ops (fresh_ctx c 4096 HAL_ACCEL_MEM_SIZE) in
  snd st = [4480; 4096] /\ NoDup (snd st).
Proof.
  intros c ops st. split; [reflexivity |].
  assert (H1 : 0 < 4096) by lia.
  assert (H2 : 0 <= HAL_ACCEL_MEM_SIZE) by (unfold HAL_ACCEL_MEM_SIZE; lia).
  assert (H3 : 4096 + HAL_ACCEL_MEM_SIZE < 2 ^ SIZE_BITS) by reflexivity.
  assert (H4 : Forall request_ok ops)
    by (repeat constructor; try (simpl; lia); reflexivity).
  destruct (X5_outstanding_allocations_distinct
              c 4096 HAL_ACCEL_MEM_SIZE ops H1 H2 H3 H4) as (H & _ & _).
  exact H.
Defined.

(** ** Address translation *)

Lemma mem_virt_to_phys_cases (m : hal_mem_context) (v : Z) :
  0 <= base_addr m -> 0 <= total_size m ->
  base_addr m + total_size m < 2 ^ SIZE_BITS ->
  HAL_ACCEL_MEM_BASE + total_size m <= 2 ^ SIZE_BITS ->
  (base_addr m <= v < base_addr m + total_size m ->
   mem_virt_to_phys m v = HAL_ACCEL_MEM_BASE + (v - base_addr m)) /\
  (v < base_addr m \/ base_addr m + total_size m <= v ->
   mem_virt_to_phys m v = 0).
Proof.
  intros Hb Ht Hw Hd. unfold mem_virt_to_phys.
  rewrite (wrap_small (base_addr m + total_size m)) by lia.
  split; intros H.
  - rewrite (proj2 (Z.ltb_ge _ _)) by lia.
    rewrite (proj2 (Z.leb_gt _ _)) by lia. cbn [orb].
    apply wrap_small. unfold HAL_ACCEL_MEM_BASE in *. lia.
  - destruct H as [H | H].
    + rewrite (proj2 (Z.ltb_lt _ _) H). reflexivity.
    + rewrite (proj2 (Z.leb_le _ _) H). rewrite orb_true_r. reflexivity.
Qed.

(** X7.  In every state an initialised allocator can reach, over a window
    inside the address space whose image fits above the device base,
    [hal_virt_to_phys] maps an address inside the window to the device
    base plus its offset, which lies in the device range; it returns 0
    exactly for the addresses outside the window; and two addresses inside
    the window with the same translation are the same address. *)
Theorem X7_virt_to_phys_window :
  forall (c : hal_context) (base total : Z) (ops : list mem_op) (v v' : Z),
    0 <= base -> 0 <= total -> base + total < 2 ^ SIZE_BITS ->
    HAL_ACCEL_MEM_BASE + total <= 2 ^ SIZE_BITS ->
    let ctx := fst (run_ops ops (fresh_ctx c base total)) in
    (base <= v < base + total ->
     hal_virt_to_phys ctx v = HAL_ACCEL_MEM_BASE + (v - base) /\
     HAL_ACCEL_MEM_BASE <= hal_virt_to_phys ctx v
     < HAL_ACCEL_MEM_BASE + total) /\
    (hal_virt_to_phys ctx v = 0 <-> ~ (base <= v < base + total)) /\
    (base <= v < base + total -> base <= v' < base + total ->
     hal_virt_to_phys ctx v = hal_virt_to_phys ctx v' -> v = v').
Proof.
  intros c base total ops v v' Hb Ht Hw Hd ctx. subst ctx.
  rewrite run_ops_fresh.
  set (m := fold_left mem_step_core ops (fresh_mem base total)).
  destruct (run_core_fields ops (fresh_mem base total)) as [Hf1 Hf2].
  fold m in Hf1, Hf2. simpl in Hf1, Hf2.
  cbn [hal_virt_to_phys mem_ctx set_mem_ctx].
  assert (Hcases : forall x,
             (base <= x < base + total ->
              mem_virt_to_phys m x = HAL_ACCEL_MEM_BASE + (x - base)) /\
             (x < base \/ base + total <= x -> mem_virt_to_phys m x = 0)).
  { intros x. rewrite <- Hf1, <- Hf2.
    apply mem_virt_to_phys_cases; rewrite ?Hf1, ?Hf2; auto. }
  assert (Hpos : 0 < HAL_ACCEL_MEM_BASE) by reflexivity.
  split; [| split].
  - intros Hin. destruct (Hcases v) as [H1 _]. rewrite (H1 Hin).
    split; [reflexivity | lia].
  - destruct (Hcases v) as [H1 H2]. split.
    + intros Hz Hin. rewrite (H1 Hin) in Hz. lia.
    + intros Hout. apply H2. lia.
  - intros Hin Hin' Heq.
    destruct (Hcases v) as [H1 _]. destruct (Hcases v') as [H1' _].
    rewrite (H1 Hin), (H1' Hin') in Heq. lia.
Qed.

(** A run of X7 on the reference window; [0xDEADBEEF] is outside it. *)
Lemma X7_virt_to_phys_window_witness :
  let c := sample_context HAL_STATUS_READY idle_device in
  let ctx := fst (run_ops [Alloc 64 true]
                          (fresh_ctx c 4096 HAL_ACCEL_MEM_SIZE)) in
  hal_virt_to_phys ctx 4160 = HAL_ACCEL_MEM_BASE + 64 /\
  hal_virt_to_phys ctx 3735928559 = 0.
Proof.
  intros c ctx.
  assert (H1 : 0 <= 4096) by lia.
  assert (H2 : 0 <= HAL_ACCEL_MEM_SIZE) by (unfold HAL_ACCEL_MEM_SIZE; lia).
  assert (H3 : 4096 + HAL_ACCEL_MEM_SIZE < 2 ^ SIZE_BITS) by reflexivity.
  assert (H4 : HAL_ACCEL_MEM_BASE + HAL_ACCEL_MEM_SIZE <= 2 ^ SIZE_BITS)
    by (vm_compute; discriminate).
  split.
  - destruct (X7_virt_to_phys_window c 4096 HAL_ACCEL_MEM_SIZE
                [Alloc 64 true] 4160 4160 H1 H2 H3 H4) as (H & _ & _).
    apply H. unfold HAL_ACCEL_MEM_SIZE. lia.
  - destruct (X7_virt_to_phys_window c 4096 HAL_ACCEL_MEM_SIZE
                [Alloc 64 true] 3735928559 0 H1 H2 H3 H4) as (_ & H & _).
    apply H. unfold HAL_ACCEL_MEM_SIZE. lia.
Defined.

(** X6.  Over such a window at a non-NULL base, the translation of any
    pointer that [hal_mem_alloc] returns for a request of at least one
    byte whose rounding stays inside [size_t] is not 0 and lies in the
    device range: it is the device base plus the offset of the pointer in
    the window. *)
Theorem X6_virt_to_phys_of_alloc :
  forall (c : hal_context) (base total : Z) (ops : list mem_op)
         (sz : Z) (ok : bool),
    0 < base -> 0 <= total -> base + total < 2 ^ SIZE_BITS ->
    HAL_ACCEL_MEM_BASE + total <= 2 ^ SIZE_BITS ->
    0 < sz -> sz + (HAL_MEM_ALIGN - 1) < 2 ^ SIZE_BITS ->
    let ctx := fst (run_ops ops (fresh_ctx c base total)) in
    let r := hal_mem_alloc ctx sz ok in
    fst r <> NULL ->
    hal_virt_to_phys (snd r) (fst r) = HAL_ACCEL_MEM_BASE + (fst r - base) /\
    HAL_ACCEL_MEM_BASE <= hal_virt_to_phys (snd r) (fst r)
    < HAL_ACCEL_MEM_BASE + total /\
    hal_virt_to_phys (snd r) (fst r) <> 0.
Proof.
  intros c base total ops sz ok Hb Ht Hw Hd Hsz Hno ctx r. subst r ctx.
  rewrite run_ops_fresh.
  set (m := fold_left mem_step_core ops (fresh_mem base total)).
  assert (Hb0 : 0 <= base) by lia.
  assert (Hc : contiguous base (blocks m) (base + total))
    by (apply run_core_tiled; auto).
  destruct (run_core_fields ops (fresh_mem base total)) as [Hf1 Hf2].
  fold m in Hf1, Hf2. simpl in Hf1, Hf2.
  assert (Hnz : sz <> 0) by lia.
  destruct (mem_alloc m sz ok) as [p m'] eqn:He.
  rewrite (hal_mem_alloc_core c m m' sz p ok Hnz He).
  cbn [fst snd hal_virt_to_phys mem_ctx set_mem_ctx]. intros Hp.
  destruct (mem_alloc_fields m sz ok) as [Hg1 Hg2].
  rewrite He in Hg1, Hg2. cbn [snd] in Hg1, Hg2.
  assert (Hin : base <= p < base + total).
  { destruct (mem_alloc_cases m sz ok)
      as [[_ He'] | (pre & best & post & Hbs & [Hu Hle] & _ & _ & Hcase)].
    { rewrite He' in He. injection He as Hp' _. congruence. }
    rewrite align_size_round_up in Hle by word_lia.
    pose proof (round_up_bounds sz).
    apply contiguous_sizes in Hc. rewrite Forall_forall in Hc.
    assert (Hinb : In best (blocks m)) by (rewrite Hbs; apply in_elt).
    specialize (Hc best Hinb).
    destruct Hcase as [(_ & _ & He') | [(_ & _ & He') | (_ & He')]];
      rewrite He' in He; injection He as Hp' _; try congruence; lia. }
  destruct (mem_virt_to_phys_cases m' p) as [H1 _];
    rewrite ?Hg1, ?Hg2, ?Hf1, ?Hf2; auto.
  rewrite Hg1, Hg2, Hf1, Hf2 in H1. rewrite (H1 Hin).
  assert (Hpos : 0 < HAL_ACCEL_MEM_BASE) by reflexivity.
  repeat split; lia.
Qed.

(** A run of X6: the second block of the reference window. *)
Lemma X6_virt_to_phys_of_alloc_witness :
  let c := sample_context HAL_STATUS_READY idle_device in
  let ctx := fst (run_ops [Alloc 1024 true]
                          (fresh_ctx c 4096 HAL_ACCEL_MEM_SIZE)) in
  let r := hal_mem_alloc ctx 1024 true in
  fst r = 5120 /\
  hal_virt_to_phys (snd r) (fst r) = HAL_ACCEL_MEM_BASE + (fst r - 4096).
Proof.
  intros c ctx r. split; [reflexivity |].
  assert (H1 : 0 < 4096) by lia.
  assert (H2 : 0 <= HAL_ACCEL_MEM_SIZE) by (unfold HAL_ACCEL_MEM_SIZE; lia).
  assert (H3 : 4096 + HAL_ACCEL_MEM_SIZE < 2 ^ SIZE_BITS) by reflexivity.
  assert (H4 : HAL_ACCEL_MEM_BASE + HAL_ACCEL_MEM_SIZE <= 2 ^ SIZE_BITS)
    by (vm_compute; discriminate).
  assert (H5 : 0 < 1024) by lia.
  assert (H6 : 1024 + (HAL_MEM_ALIGN - 1) < 2 ^ SIZE_BITS) by reflexivity.
  assert (H7 : fst r <> NULL) by (vm_compute; discriminate).
  destruct (X6_virt_to_phys_of_alloc c 4096 HAL_ACCEL_MEM_SIZE
              [Alloc 1024 true] 1024 true H1 H2 H3 H4 H5 H6 H7)
    as (H & _ & _).
  exact H.
Defined.

(* ================================================================== *)
(** * Further properties of the HAL *)

(** ** Status bits *)

Lemma land_bit (s k : Z) :
  0 <= k -> (Z.land s (2 ^ k) =? 0) = negb (Z.testbit s k).
Proof.
  intros Hk. destruct (Z.testbit s k) eqn:E; cbn [negb].
  - apply Z.eqb_neq. intros H0.
    assert (Hb : Z.testbit (Z.land s (2 ^ k)) k = true).
    { rewrite Z.land_spec, E, Z.pow2_bits_true by exact Hk. reflexivity. }
    rewrite H0, Z.bits_0 in Hb. discriminate.
  - apply Z.eqb_eq. apply Z.bits_inj'. intros n Hn.
    rewrite Z.land_spec, Z.bits_0, Z.pow2_bits_eqb by exact Hk.
    destruct (Z.eqb_spec k n) as [-> | _].
    + rewrite E. reflexivity.
    + apply andb_false_r.
Qed.

Lemma ready_bit (s : Z) : ready_word s = Z.testbit s 0.
Proof.
  unfold ready_word. change HAL_STATUS_READY with (2 ^ 0).
  rewrite land_bit by lia. apply negb_involutive.
Qed.

Lemma convert_hal_status_bits (s : Z) :
  convert_hal_status s =
  if Z.testbit s 3 then ACCEL_STATUS_ERROR
  else if Z.testbit s 1 then ACCEL_STATUS_BUSY
  else ACCEL_STATUS_OK.
Proof.
  unfold convert_hal_status.
  change HAL_STATUS_ERROR with (2 ^ 3). change HAL_STATUS_BUSY with (2 ^ 1).
  rewrite !land_bit by lia. rewrite !negb_involutive. reflexivity.
Qed.

(** X8.  [hal_get_status] reads back the [uint32_t] that
    [hal_set_status] stored: the argument reduced modulo 2^32, which is
    the argument itself when it lies in the range of [uint32_t];
    [hal_is_ready], [hal_is_busy] and [hal_is_error] are bit 0, bit 1 and
    bit 3 of that word, each whatever the other bits are, so they do not
    exclude one another and bit 2 (COMPLETE) is read by none of them;
    storing a status touches neither the register window nor the
    allocator nor the event trace.  On a NULL context the predicates are
    false, the status reads 0 and storing does nothing. *)
Theorem X8_status_bits :
  forall (c : hal_context) (s : Z),
    let ctx := hal_set_status (Some c) s in
    hal_get_status ctx = s mod 2 ^ 32 /\
    0 <= hal_get_status ctx < 2 ^ 32 /\
    (0 <= s < 2 ^ 32 -> hal_get_status ctx = s) /\
    hal_is_ready ctx = Z.testbit s 0 /\
    hal_is_busy ctx = Z.testbit s 1 /\
    hal_is_error ctx = Z.testbit s 3 /\
    reg_window ctx = mapped_memory c /\
    ctx_mem ctx = mem_ctx c /\
    ctx_trace ctx = trace c /\
    hal_set_status None s = None /\
    hal_get_status None = 0 /\
    hal_is_ready None = false /\
    hal_is_busy None = false /\
    hal_is_error None = false.
Proof.
  intros c s ctx. subst ctx.
  unfold hal_set_status, hal_get_status, hal_is_ready, hal_is_busy,
    hal_is_error, set_status.
  cbn [status reg_window ctx_mem ctx_trace mapped_memory mem_ctx trace].
  change HAL_STATUS_READY with (2 ^ 0).
  change HAL_STATUS_BUSY with (2 ^ 1).
  change HAL_STATUS_ERROR with (2 ^ 3).
  rewrite !land_bit by lia. rewrite !negb_involutive.
  rewrite !Z.mod_pow2_bits_low by lia.
  pose proof (Z.mod_pos_bound s (2 ^ 32) ltac:(lia)) as Hr.
  repeat split; try reflexivity; try lia.
  intros Hs. apply Z.mod_small. exact Hs.
Qed.

(** A run of X8: READY and ERROR stored together. *)
Lemma X8_status_bits_witness :
  hal_get_status
    (hal_set_status (Some (sample_context HAL_STATUS_READY idle_device)) 9)
  = 9.
Proof.
  destruct (X8_status_bits (sample_context HAL_STATUS_READY idle_device) 9)
    as (_ & _ & H & _).
  apply H. lia.
Defined.

(** ** What a wait leaves alone, and what it has seen when it succeeds *)

Lemma wait_loop_mem (n : nat) :
  forall c, mem_ctx (snd (wait_loop n c)) = mem_ctx c.
Proof.
  induction n as [| n IH]; intros c; simpl.
  - reflexivity.
  - destruct (negb (Z.land (status c) HAL_STATUS_READY =? 0)).
    + reflexivity.
    + rewrite IH. reflexivity.
Qed.

Lemma wait_loop_true (n : nat) :
  forall c c', wait_loop n c = (true, c') -> ready_word (status c') = true.
Proof.
  induction n as [| n IH]; intros c c' H; simpl in H.
  - discriminate.
  - destruct (negb (Z.land (status c) HAL_STATUS_READY =? 0)) eqn:E.
    + injection H as <-. exact E.
    + eapply IH. exact H.
Qed.

Lemma wait_for_ready_mem (ctx : option hal_context) :
  ctx_mem (snd (hal_wait_for_ready ctx)) = ctx_mem ctx.
Proof.
  destruct ctx as [c |]; [| reflexivity].
  unfold hal_wait_for_ready.
  pose proof (wait_loop_mem MAX_RETRIES c) as H.
  destruct (wait_loop MAX_RETRIES c) as [r c']. exact H.
Qed.

Lemma wait_for_ready_true (ctx ctx' : option hal_context) :
  hal_wait_for_ready ctx = (true, ctx') ->
  hal_is_ready ctx' = true /\ exists c c', ctx = Some c /\ ctx' = Some c'.
Proof.
  destruct ctx as [c |]; [| discriminate].
  unfold hal_wait_for_ready.
  destruct (wait_loop MAX_RETRIES c) as [r c'] eqn:E.
  intros H. injection H as -> <-. split.
  - apply (wait_loop_true _ _ _ E).
  - exists c, c'. auto.
Qed.

Lemma wait_ready_now (c : hal_context) :
  ready_word (status c) = true ->
  hal_wait_for_ready (Some c) =
  (true, Some (log_event c (EvPoll (status c)))).
Proof.
  intros H. unfold hal_wait_for_ready.
  rewrite (wait_loop_ready MAX_RETRIES c 0).
  - rewrite slept_zero. reflexivity.
  - unfold MAX_RETRIES. lia.
  - exact H.
  - intros j Hj. lia.
Qed.

(** ** The register programmer when the device is ready *)

Lemma write_config_done (ctx : option hal_context) (c1 : hal_context)
      (ir : hal_controller_ir_t) :
  hal_wait_for_ready ctx = (true, Some c1) ->
  reg_window ctx <> None ->
  write_config ctx (Some ir) =
  (true, Some (log_event (set_mapped_memory c1 (Some ir)) (EvRegWrite ir))).
Proof.
  intros Hw Hm.
  pose proof (wait_for_ready_window ctx) as [Hwin _].
  rewrite Hw in Hwin. cbn [snd reg_window] in Hwin.
  destruct ctx as [c |]; [| discriminate].
  unfold write_config. rewrite Hw.
  destruct (mapped_memory c1) as [old |].
  - reflexivity.
  - exfalso. apply Hm. symmetry. exact Hwin.
Qed.

Lemma write_config_programmed (ctx : option hal_context)
      (ir : hal_controller_ir_t) :
  fst (hal_wait_for_ready ctx) = true ->
  reg_window ctx <> None ->
  programmed ctx (write_config ctx (Some ir)) ir.
Proof.
  intros Hw Hm.
  destruct (hal_wait_for_ready ctx) as [r ctx1] eqn:E.
  cbn [fst] in Hw. subst r.
  destruct (wait_for_ready_true _ _ E) as (_ & c & c1 & -> & ->).
  pose proof (wait_for_ready_window (Some c)) as [_ Hwr].
  pose proof (wait_for_ready_mem (Some c)) as Hmem.
  rewrite (write_config_done _ _ ir E Hm).
  unfold programmed. rewrite E in *. cbn [fst snd] in *.
  unfold reg_writes in *. cbn [ctx_trace reg_window ctx_mem hal_get_status] in *.
  unfold log_event, set_mapped_memory.
  cbn [trace mapped_memory mem_ctx status].
  rewrite filter_app, Hwr. cbn [filter is_reg_write].
  repeat split; auto.
Qed.

Lemma write_config_unmapped (ctx : option hal_context)
      (cfg : option hal_controller_ir_t) :
  reg_window ctx = None ->
  turned_down ctx (write_config ctx cfg).
Proof.
  intros Hm. unfold turned_down.
  destruct ctx as [c |]; [| repeat split; reflexivity].
  destruct cfg as [ir |]; [| repeat split; reflexivity].
  pose proof (wait_for_ready_window (Some c)) as [Hwin Hwr].
  pose proof (wait_for_ready_mem (Some c)) as Hmem.
  unfold write_config.
  destruct (hal_wait_for_ready (Some c)) as [[|] [c1 |]];
    cbn [fst snd] in *.
  - cbn [reg_window] in Hwin, Hm. rewrite Hm in Hwin. rewrite Hwin.
    cbn [fst snd reg_window]. rewrite Hwin. auto.
  - auto.
  - auto.
  - auto.
Qed.

Lemma write_config_mem (ctx : option hal_context)
      (cfg : option hal_controller_ir_t) :
  ctx_mem (snd (write_config ctx cfg)) = ctx_mem ctx.
Proof.
  destruct ctx as [c |]; [| reflexivity].
  destruct cfg as [ir |]; [| reflexivity].
  pose proof (wait_for_ready_mem (Some c)) as Hmem.
  unfold write_config.
  destruct (hal_wait_for_ready (Some c)) as [[|] [c1 |]];
    cbn [fst snd] in *; auto.
  destruct (mapped_memory c1); exact Hmem.
Qed.

(** X9.  When the wait on a context with a mapped register window
    succeeds, each of [hal_configure_lsu], [hal_configure_systolic] and
    [hal_configure_img2col] returns true, replaces the whole window by a
    record whose header fields are zero and whose payload is the given
    configuration, appends exactly one register write to what the wait
    left, and touches neither the status word nor the allocator.  On a
    context whose window pointer is NULL each of them returns false
    without a write, whatever the device shows. *)
Theorem X9_configure_stores_record :
  forall (ctx : option hal_context) (lsu : hal_lsu_config_t)
         (sa : hal_systolic_config_t) (i2c : hal_img2col_config_t),
    (fst (hal_wait_for_ready ctx) = true -> reg_window ctx <> None ->
     programmed ctx (hal_configure_lsu ctx lsu)
                (mk_ir 0 0 0 0 0 0 (IrLsu lsu)) /\
     programmed ctx (hal_configure_systolic ctx sa)
                (mk_ir 0 0 0 0 0 0 (IrSystolic sa)) /\
     programmed ctx (hal_configure_img2col ctx i2c)
                (mk_ir 0 0 0 0 0 0 (IrImg2col i2c))) /\
    (reg_window ctx = None ->
     turned_down ctx (hal_configure_lsu ctx lsu) /\
     turned_down ctx (hal_configure_systolic ctx sa) /\
     turned_down ctx (hal_configure_img2col ctx i2c)).
Proof.
  intros ctx lsu sa i2c. split.
  - intros Hw Hm.
    repeat split; apply (write_config_programmed ctx _ Hw Hm).
  - intros Hm.
    unfold hal_configure_lsu, hal_configure_systolic, hal_configure_img2col.
    repeat split; apply (write_config_unmapped ctx _ Hm).
Qed.

(** A run of X9: a context that shows READY, with a mapped window. *)
Lemma X9_configure_stores_record_witness :
  programmed (Some (sample_context HAL_STATUS_READY idle_device))
    (hal_configure_lsu (Some (sample_context HAL_STATUS_READY idle_device))
                       (lsu_cfg_of 4096 8192 64))
    (mk_ir 0 0 0 0 0 0 (IrLsu (lsu_cfg_of 4096 8192 64))).
Proof.
  destruct (X9_configure_stores_record
              (Some (sample_context HAL_STATUS_READY idle_device))
              (lsu_cfg_of 4096 8192 64) (systolic_cfg_of 1 0)
              (mk_img2col 0 0 0 0 0 0 0 0 0)) as [H _].
  destruct H as (H & _ & _).
  - vm_compute. reflexivity.
  - cbn. discriminate.
  - exact H.
Defined.

(* ================================================================== *)
(** * Further properties of the driver facade *)

(** ** Submitting an operation *)

Lemma configure_ready (c : hal_context) (ir : hal_controller_ir_t) :
  ready_word (status c) = true ->
  mapped_memory c <> None ->
  write_config (Some c) (Some ir) =
  (true,
   Some (mk_hal (fd c) (status c) (Some ir) (accel_memory_base c)
                (accel_memory_size c) (mem_ctx c) (device c) (clock c)
                (trace c ++ [EvPoll (status c); EvRegWrite ir]))).
Proof.
  intros Hr Hm.
  rewrite (write_config_done (Some c) (log_event c (EvPoll (status c))) ir
                             (wait_ready_now c Hr) Hm).
  unfold log_event, set_mapped_memory.
  cbn [fd status mapped_memory accel_memory_base accel_memory_size mem_ctx
       device clock trace].
  rewrite <- app_assoc. reflexivity.
Qed.

Lemma accel_submit_op_ready :
  forall (g : g_ctx_t) (c : hal_context) (p : accel_op_params_t),
    initialized g = true ->
    hal g = Some c ->
    ready_word (status c) = true ->
    mapped_memory c <> None ->
    op_type p <> ACCEL_OP_NONE ->
    accel_submit_op g (Some p) =
    (ACCEL_STATUS_OK,
     set_hal g
       (Some (mk_hal (fd c) (status c) (Some (lsu_ir_of p))
                     (accel_memory_base c) (accel_memory_size c)
                     (mem_ctx c) (device c) (clock c)
                     (trace c ++ [EvPoll (status c);
                                  EvRegWrite (systolic_ir_of p);
                                  EvPoll (status c);
                                  EvRegWrite (lsu_ir_of p)])))).
Proof.
  intros g c p Hi Hh Hr Hm Hop.
  assert (Hm2 : forall ir : hal_controller_ir_t,
             Some ir <> (None : option hal_controller_ir_t))
    by (intros ir; discriminate).
  unfold accel_submit_op. rewrite Hi. cbn [negb].
  unfold systolic_ir_of, lsu_ir_of.
  destruct (op_type p) eqn:E; [congruence | |];
    unfold hal_configure_systolic; rewrite Hh;
    rewrite (configure_ready c _ Hr Hm);
    unfold submit_lsu, hal_configure_lsu; cbn [hal set_hal];
    (rewrite configure_ready;
     [ | cbn [status]; exact Hr | cbn [mapped_memory]; apply Hm2 ]);
    unfold set_hal;
    cbn [hal config last_error initialized fd status mapped_memory
         accel_memory_base accel_memory_size mem_ctx device clock trace];
    rewrite <- app_assoc; reflexivity.
Qed.

(** X10.  On an initialised session whose device shows READY and whose
    register window is mapped, [accel_submit_op] for MATMUL or CONV2D
    returns OK after exactly two register stores, each preceded by one
    status poll and no sleep: first the systolic-array record (opcode 1
    for MATMUL, 2 for CONV2D, control = the flags of the request), then
    the load/store record (source = device address of the input,
    destination = device address of the output, length = size of the
    input).  The window ends up holding the load/store record; status
    word, clock, allocator, configuration and error message are as
    before. *)
Theorem X10_submit_programs_two_records :
  forall (g : g_ctx_t) (c : hal_context) (p : accel_op_params_t),
    initialized g = true ->
    hal g = Some c ->
    ready_word (status c) = true ->
    mapped_memory c <> None ->
    op_type p <> ACCEL_OP_NONE ->
    accel_submit_op g (Some p) =
    (ACCEL_STATUS_OK,
     set_hal g
       (Some (mk_hal (fd c) (status c) (Some (lsu_ir_of p))
                     (accel_memory_base c) (accel_memory_size c)
                     (mem_ctx c) (device c) (clock c)
                     (trace c ++ [EvPoll (status c);
                                  EvRegWrite (systolic_ir_of p);
                                  EvPoll (status c);
                                  EvRegWrite (lsu_ir_of p)])))).
Proof.
  intros g c p Hi Hh Hr Hm Hop.
  apply accel_submit_op_ready; assumption.
Qed.

(** A run of X10: a matrix multiplication on the sample session. *)
Lemma X10_submit_programs_two_records_witness :
  fst (accel_submit_op
         (sample_session (sample_context HAL_STATUS_READY idle_device))
         (Some {| op_type := ACCEL_OP_MATMUL;
                  input := mk_buffer 4096 805306368 1024;
                  output := mk_buffer 6144 805308416 1024;
                  weights := mk_buffer 5120 805307392 1024;
                  flags := 0 |}))
  = ACCEL_STATUS_OK.
Proof.
  rewrite (X10_submit_programs_two_records
             (sample_session (sample_context HAL_STATUS_READY idle_device))
             (sample_context HAL_STATUS_READY idle_device)).
  - reflexivity.
  - reflexivity.
  - reflexivity.
  - reflexivity.
  - cbn. discriminate.
  - cbn. discriminate.
Defined.


Lemma submit_lsu_fields (g : g_ctx_t) (p : accel_op_params_t) :
  let r := submit_lsu g p in
  config (snd r) = config g /\
  last_error (snd r) = last_error g /\
  initialized (snd r) = initialized g /\
  ctx_mem (hal (snd r)) = ctx_mem (hal g) /\
  (fst r = ACCEL_STATUS_OK \/ fst r = ACCEL_STATUS_ERROR).
Proof.
  unfold submit_lsu, hal_configure_lsu.
  pose proof (write_config_mem (hal g)
                (Some (ir_with (IrLsu (lsu_cfg_of (dev_addr (input p))
                                                  (dev_addr (output p))
                                                  (buf_size (input p)))))))
    as Hm.
  destruct (write_config _ _) as [[|] h']; cbn [fst snd] in *;
    unfold set_hal; cbn [hal config last_error initialized];
    repeat split; auto.
Qed.

Lemma accel_submit_op_fields (g : g_ctx_t)
      (params : option accel_op_params_t) :
  let r := accel_submit_op g params in
  config (snd r) = config g /\
  last_error (snd r) = last_error g /\
  initialized (snd r) = initialized g /\
  ctx_mem (hal (snd r)) = ctx_mem (hal g) /\
  (fst r = ACCEL_STATUS_OK \/ fst r = ACCEL_STATUS_ERROR \/
   fst r = ACCEL_STATUS_INVALID_PARAM \/
   fst r = ACCEL_STATUS_NOT_INITIALIZED).
Proof.
  unfold accel_submit_op.
  destruct (initialized g) eqn:Hi; cbn [negb];
    [| cbn [fst snd]; repeat split; auto].
  destruct params as [p |]; [| cbn [fst snd]; repeat split; auto].
  destruct (op_type p); [cbn [fst snd]; repeat split; auto | |];
    unfold hal_configure_systolic;
    match goal with
    | |- context [write_config (hal g) ?cfg] =>
        pose proof (write_config_mem (hal g) cfg) as Hm;
        destruct (write_config (hal g) cfg) as [[|] h']
    end; cbn [fst snd] in *.
  - destruct (submit_lsu_fields (set_hal g h') p) as (H1 & H2 & H3 & H4 & H5).
    cbn [set_hal hal config last_error initialized] in *.
    rewrite H1, H2, H3, H4, Hm. repeat split; auto.
    destruct H5; auto.
  - unfold set_hal; cbn [hal config last_error initialized].
    repeat split; auto.
  - destruct (submit_lsu_fields (set_hal g h') p) as (H1 & H2 & H3 & H4 & H5).
    cbn [set_hal hal config last_error initialized] in *.
    rewrite H1, H2, H3, H4, Hm. repeat split; auto.
    destruct H5; auto.
  - unfold set_hal; cbn [hal config last_error initialized].
    repeat split; auto.
Qed.

(** X11.  Whatever the session and the request, [accel_submit_op] leaves
    the configuration, the error message, the initialised flag and the
    allocator as they were, and its status is one of OK, ERROR,
    INVALID_PARAM and NOT_INITIALIZED.  As a failed submission stores no
    message, the exception [SubmitAndWait] then throws carries whatever
    message the session held before the call. *)
Theorem X11_submit_stores_no_message :
  forall (g : g_ctx_t) (p : accel_op_params_t)
         (params : option accel_op_params_t),
    let r := accel_submit_op g params in
    config (snd r) = config g /\
    last_error (snd r) = last_error g /\
    initialized (snd r) = initialized g /\
    ctx_mem (hal (snd r)) = ctx_mem (hal g) /\
    (fst r = ACCEL_STATUS_OK \/ fst r = ACCEL_STATUS_ERROR \/
     fst r = ACCEL_STATUS_INVALID_PARAM \/
     fst r = ACCEL_STATUS_NOT_INITIALIZED) /\
    (fst (accel_submit_op g (Some p)) <> ACCEL_STATUS_OK ->
     fst (SubmitAndWait g p) =
     Thrown (String.append "Failed to submit operation: " (last_error g))).
Proof.
  intros g p params r. subst r.
  destruct (accel_submit_op_fields g params) as (H1 & H2 & H3 & H4 & H5).
  repeat split; auto.
  intros Hne. unfold SubmitAndWait.
  destruct (accel_submit_op_fields g (Some p)) as (_ & E & _).
  destruct (accel_submit_op g (Some p)) as [st g1]. cbn [fst snd] in *.
  unfold accel_get_error. rewrite E.
  destruct st; try reflexivity. congruence.
Qed.

(** A run of X11: a submission before [accel_init]. *)
Lemma X11_submit_stores_no_message_witness :
  fst (SubmitAndWait g_ctx_zero
         {| op_type := ACCEL_OP_MATMUL;
            input := mk_buffer 4096 805306368 1024;
            output := mk_buffer 6144 805308416 1024;
            weights := mk_buffer 5120 805307392 1024;
            flags := 0 |}) =
  Thrown (String.append "Failed to submit operation: "
                        (last_error g_ctx_zero)).
Proof.
  destruct (X11_submit_stores_no_message g_ctx_zero
              {| op_type := ACCEL_OP_MATMUL;
                 input := mk_buffer 4096 805306368 1024;
                 output := mk_buffer 6144 805308416 1024;
                 weights := mk_buffer 5120 805307392 1024;
                 flags := 0 |} None) as (_ & _ & _ & _ & _ & H).
  apply H. cbn. discriminate.
Defined.

(** X12.  On an initialised session whose device does not show READY at
    any of 100 successive polls, [accel_submit_op] for MATMUL or CONV2D
    returns ERROR after exactly those 100 polls and 100 sleeps, without a
    register store: the context is the one the polling left. *)
Theorem X12_submit_gives_up_after_100_polls :
  forall (g : g_ctx_t) (c : hal_context) (p : accel_op_params_t),
    initialized g = true ->
    hal g = Some c ->
    op_type p <> ACCEL_OP_NONE ->
    (forall k, (k < MAX_RETRIES)%nat ->
       ready_word (status_at (device c) (clock c) (status c) k) = false) ->
    accel_submit_op g (Some p) =
      (ACCEL_STATUS_ERROR, set_hal g (Some (slept c MAX_RETRIES))) /\
    reg_window (Some (slept c MAX_RETRIES)) = mapped_memory c /\
    reg_writes (Some (slept c MAX_RETRIES)) = reg_writes (Some c) /\
    polls (Some (slept c MAX_RETRIES)) = (polls (Some c) + MAX_RETRIES)%nat.
Proof.
  intros g c p Hi Hh Hop Hn.
  assert (Hw : hal_wait_for_ready (Some c) = (false, Some (slept c MAX_RETRIES))).
  { unfold hal_wait_for_ready. rewrite (wait_loop_timeout _ c Hn).
    reflexivity. }
  assert (Hf : fst (hal_wait_for_ready (Some c)) = false)
    by (rewrite Hw; reflexivity).
  split; [| split; [| split]].
  - unfold accel_submit_op. rewrite Hi. cbn [negb].
    destruct (op_type p); [congruence | |];
      unfold hal_configure_systolic; rewrite Hh;
      rewrite (write_config_timeout _ _ Hf), Hw; reflexivity.
  - reflexivity.
  - pose proof (wait_for_ready_window (Some c)) as [_ H].
    rewrite Hw in H. exact H.
  - unfold polls, slept. cbn [ctx_trace trace].
    rewrite filter_app, length_app. f_equal.
Qed.

(** A run of X12: a device that stays BUSY. *)
Lemma X12_submit_gives_up_after_100_polls_witness :
  accel_submit_op
    (sample_session (sample_context HAL_STATUS_BUSY idle_device))
    (Some {| op_type := ACCEL_OP_CONV2D;
             input := mk_buffer 4096 805306368 1024;
             output := mk_buffer 6144 805308416 1024;
             weights := mk_buffer 5120 805307392 1024;
             flags := 0 |}) =
  (ACCEL_STATUS_ERROR,
   set_hal (sample_session (sample_context HAL_STATUS_BUSY idle_device))
           (Some (slept (sample_context HAL_STATUS_BUSY idle_device)
                        MAX_RETRIES))).
Proof.
  apply (X12_submit_gives_up_after_100_polls
           (sample_session (sample_context HAL_STATUS_BUSY idle_device))
           (sample_context HAL_STATUS_BUSY idle_device)).
  - reflexivity.
  - reflexivity.
  - cbn. discriminate.
  - intros k _. cbn [sample_context device clock status].
    rewrite status_at_idle. reflexivity.
Defined.

(** ** Waiting for completion *)

(** X13.  On an initialised session [accel_wait_complete] does what
    [hal_wait_for_ready] does to the context and nothing else: no register
    store, window, allocator and configuration untouched.  When the wait
    gives up the status is TIMEOUT and the message is set; when the wait
    succeeds the last word polled has bit 0 (READY) set, the status is
    ERROR if bit 3 of that word is set, else BUSY if bit 1 is set, else
    OK, and the message is left as it was. *)
Theorem X13_wait_complete_outcomes :
  forall (g : g_ctx_t) (timeout : Z),
    initialized g = true ->
    let w := hal_wait_for_ready (hal g) in
    let r := accel_wait_complete g timeout in
    hal (snd r) = snd w /\
    config (snd r) = config g /\
    initialized (snd r) = true /\
    reg_window (hal (snd r)) = reg_window (hal g) /\
    reg_writes (hal (snd r)) = reg_writes (hal g) /\
    ctx_mem (hal (snd r)) = ctx_mem (hal g) /\
    (fst w = false ->
     fst r = ACCEL_STATUS_TIMEOUT /\
     last_error (snd r) = "Operation timed out"%string) /\
    (fst w = true ->
     Z.testbit (hal_get_status (snd w)) 0 = true /\
     fst r = (if Z.testbit (hal_get_status (snd w)) 3
              then ACCEL_STATUS_ERROR
              else if Z.testbit (hal_get_status (snd w)) 1
                   then ACCEL_STATUS_BUSY
                   else ACCEL_STATUS_OK) /\
     last_error (snd r) = last_error g).
Proof.
  intros g timeout Hi w r. subst w r.
  pose proof (wait_for_ready_window (hal g)) as [Hwin Hwr].
  pose proof (wait_for_ready_mem (hal g)) as Hmem.
  unfold accel_wait_complete. rewrite Hi. cbn [negb].
  destruct (hal_wait_for_ready (hal g)) as [[|] h'] eqn:E;
    cbn [fst snd] in *; unfold set_last_error, set_hal;
    cbn [hal config last_error initialized].
  - repeat split; auto; try discriminate.
    + destruct (wait_for_ready_true _ _ E) as (Hr & c & c' & _ & ->).
      cbn [hal_get_status]. rewrite <- ready_bit. exact Hr.
    + apply convert_hal_status_bits.
  - repeat split; auto; discriminate.
Qed.

(** A run of X13: a wait on the sample session, whose device shows
    READY. *)
Lemma X13_wait_complete_outcomes_witness :
  config (snd (accel_wait_complete
                 (sample_session (sample_context HAL_STATUS_READY idle_device))
                 0))
  = config (sample_session (sample_context HAL_STATUS_READY idle_device)).
Proof.
  destruct (X13_wait_complete_outcomes
              (sample_session (sample_context HAL_STATUS_READY idle_device))
              0 eq_refl) as (_ & H & _).
  exact H.
Defined.

(** ** Bringing the session up and down *)

Lemma hal_init_some (os : os_env) (path : string) (base : Z) :
  os_grants os path base ->
  exists regs,
    os_mmap_regs os = Some regs /\
    hal_init os path =
    Some {| fd := os_open os path; status := HAL_STATUS_READY;
            mapped_memory := Some regs;
            accel_memory_base := base;
            accel_memory_size := HAL_ACCEL_MEM_SIZE;
            mem_ctx := Some (fresh_mem base HAL_ACCEL_MEM_SIZE);
            device := os_device os; clock := O; trace := [] |}.
Proof.
  intros (H1 & H2 & H3 & H4 & H5 & H6).
  destruct (os_mmap_regs os) as [regs |] eqn:Er; [| congruence].
  exists regs. split; [reflexivity |].
  unfold hal_init, hal_mem_init. rewrite H1, Er, H4, H5, H6. cbn [negb].
  destruct (Z.ltb_spec (os_open os path) 0) as [Hlt | _]; [lia |].
  reflexivity.
Qed.

Lemma hal_init_none (os : os_env) (path : string) :
  (forall base, ~ os_grants os path base) ->
  hal_init os path = None.
Proof.
  intros Hn. unfold hal_init, hal_mem_init.
  destruct (os_malloc_ctx os) eqn:E1; cbn [negb]; [| reflexivity].
  destruct (Z.ltb_spec (os_open os path) 0) as [Hlt | Hge]; [reflexivity |].
  destruct (os_mmap_regs os) as [regs |] eqn:E3; [| reflexivity].
  destruct (os_mmap_mem os) as [base |] eqn:E4; [| reflexivity].
  destruct (os_malloc_mem_ctx os) eqn:E5; cbn [negb]; [| reflexivity].
  destruct (os_malloc_block os) eqn:E6; cbn [negb]; [| reflexivity].
  exfalso. apply (Hn base). unfold os_grants.
  rewrite E1, E3, E4, E5, E6. repeat split; auto. discriminate.
Qed.

Lemma hal_init_cases (os : os_env) (path : string) :
  (exists base, os_grants os path base) \/
  (forall base, ~ os_grants os path base).
Proof.
  unfold os_grants.
  destruct (os_malloc_ctx os); [| right; intros b (H & _); discriminate].
  destruct (Z.ltb_spec (os_open os path) 0) as [Hlt | Hge];
    [right; intros b (_ & H & _); lia |].
  destruct (os_mmap_regs os);
    [| right; intros b (_ & _ & H & _); congruence].
  destruct (os_mmap_mem os) as [base |];
    [| right; intros b (_ & _ & _ & H & _); discriminate].
  destruct (os_malloc_mem_ctx os);
    [| right; intros b (_ & _ & _ & _ & H & _); discriminate].
  destruct (os_malloc_block os);
    [| right; intros b (_ & _ & _ & _ & _ & H); discriminate].
  left. exists base. repeat split; auto. discriminate.
Qed.

(** X14.  On a session that is not yet initialised, [accel_init] with a
    device path returns OK exactly when every step of [hal_init] is
    granted: the context [malloc], [open], both [mmap]s and the two
    [malloc]s of [hal_mem_init].  The session then is initialised, its
    context shows READY, holds the two mappings and an allocator of one
    unused block over the whole 256 MB window, with all of it available;
    configuration and message are not touched, so the configuration is
    not yet the default one.  When any step is refused the status is
    ERROR, the context pointer is NULL, the flag stays clear and the
    message is set. *)
Theorem X14_init_all_or_nothing :
  forall (os : os_env) (g : g_ctx_t) (path : string),
    initialized g = false ->
    let r := accel_init os g (Some path) in
    ((exists base, os_grants os path base) <-> fst r = ACCEL_STATUS_OK) /\
    (forall base,
        os_grants os path base ->
        initialized (snd r) = true /\
        config (snd r) = config g /\
        last_error (snd r) = last_error g /\
        hal_get_status (hal (snd r)) = HAL_STATUS_READY /\
        reg_window (hal (snd r)) = os_mmap_regs os /\
        ctx_mem (hal (snd r)) = Some (fresh_mem base HAL_ACCEL_MEM_SIZE) /\
        hal_mem_available (hal (snd r)) = HAL_ACCEL_MEM_SIZE /\
        ctx_trace (hal (snd r)) = []) /\
    (fst r <> ACCEL_STATUS_OK ->
     r = (ACCEL_STATUS_ERROR,
          set_last_error (set_hal g None) "Failed to initialize HAL")).
Proof.
  intros os g path Hi r. subst r.
  unfold accel_init. rewrite Hi.
  destruct (hal_init_cases os path) as [[base Hg] | Hn].
  - destruct (hal_init_some os path base Hg) as (regs & Er & ->).
    cbn [fst snd]. split; [| split].
    + split; [reflexivity | intros _; exists base; exact Hg].
    + intros base' Hg'.
      assert (base' = base) as ->.
      { destruct Hg as (_ & _ & _ & E & _), Hg' as (_ & _ & _ & E' & _).
        congruence. }
      unfold set_initialized, set_hal.
      cbn [hal config last_error initialized hal_get_status reg_window
           ctx_mem ctx_trace status mapped_memory mem_ctx trace].
      repeat split; auto.
    + congruence.
  - rewrite (hal_init_none os path Hn). cbn [fst snd]. split; [| split].
    + split; [intros [base Hg]; exfalso; exact (Hn base Hg) | discriminate].
    + intros base Hg. exfalso. exact (Hn base Hg).
    + reflexivity.
Qed.

(** A run of X14: the zeroed session on the sample operating system. *)
Lemma X14_init_all_or_nothing_witness :
  hal_mem_available (hal (snd (accel_init sample_os g_ctx_zero
                                          (Some "/dev/accelerator0"%string))))
  = HAL_ACCEL_MEM_SIZE.
Proof.
  destruct (X14_init_all_or_nothing sample_os g_ctx_zero
              "/dev/accelerator0"%string eq_refl) as (_ & H & _).
  destruct (H 4096) as (_ & _ & _ & _ & _ & _ & Ha & _).
  - unfold os_grants, sample_os. cbn. repeat split; try reflexivity.
    + discriminate.
    + discriminate.
  - exact Ha.
Defined.

(** X15.  [accel_init] asked twice with the same path and the same answers
    from the operating system gives the second time what it gave the
    first; [accel_cleanup] clears the flag and doing it twice is doing it
    once; bringing the zeroed session up, down and up again gives what
    bringing it up once gives; a NULL path is INVALID_PARAM and changes
    nothing. *)
Theorem X15_init_cleanup_cycle :
  forall (os : os_env) (g : g_ctx_t) (path : string),
    accel_init os (snd (accel_init os g (Some path))) (Some path)
      = accel_init os g (Some path) /\
    initialized (accel_cleanup g) = false /\
    accel_cleanup (accel_cleanup g) = accel_cleanup g /\
    accel_init os (accel_cleanup (snd (accel_init os g_ctx_zero (Some path))))
               (Some path)
      = accel_init os g_ctx_zero (Some path) /\
    accel_init os g None = (ACCEL_STATUS_INVALID_PARAM, g).
Proof.
  intros os g path. split; [| split; [| split; [| split]]].
  - unfold accel_init.
    destruct (initialized g) eqn:Hi.
    + cbn [snd]. rewrite Hi. reflexivity.
    + destruct (hal_init os path) as [h |] eqn:Eh; cbn [snd];
        unfold set_initialized, set_last_error, set_hal;
        cbn [hal config last_error initialized].
      * reflexivity.
      * rewrite Hi. reflexivity.
  - unfold accel_cleanup. destruct (initialized g) eqn:Hi;
      [reflexivity | exact Hi].
  - unfold accel_cleanup. destruct (initialized g) eqn:Hi.
    + reflexivity.
    + rewrite Hi. reflexivity.
  - unfold accel_init, accel_cleanup. cbn [g_ctx_zero initialized].
    destruct (hal_init os path) as [h |] eqn:Eh; cbn [snd];
      unfold set_initialized, set_last_error, set_hal;
      cbn [hal config last_error initialized g_ctx_zero].
    + reflexivity.
    + reflexivity.
  - reflexivity.
Qed.

(** ** The configuration record *)

(** X16.  On an initialised session [accel_get_config] returns exactly
    the record the last [accel_configure] stored, whatever its fields (no
    field is validated), and after [accel_reset_config] it returns the
    defaults: DMA enabled, one channel, 16 MB transfers, 1000 ms; of two
    configurations the later one wins.  None of the three touches the HAL
    context or the message, and a NULL pointer is INVALID_PARAM for both
    [accel_configure] and [accel_get_config], with nothing changed. *)
Theorem X16_config_round_trip :
  forall (g : g_ctx_t) (cfg cfg' : accel_config_t),
    initialized g = true ->
    let g1 := snd (accel_configure g (Some cfg)) in
    let g2 := snd (accel_reset_config g1) in
    fst (accel_configure g (Some cfg)) = ACCEL_STATUS_OK /\
    accel_get_config g1 true = (ACCEL_STATUS_OK, Some cfg, g1) /\
    fst (accel_reset_config g1) = ACCEL_STATUS_OK /\
    accel_get_config g2 true =
      (ACCEL_STATUS_OK,
       Some (mk_config 1 1 16777216 1000), g2) /\
    snd (accel_configure g1 (Some cfg')) = snd (accel_configure g (Some cfg')) /\
    hal g1 = hal g /\ last_error g1 = last_error g /\
    hal g2 = hal g /\ last_error g2 = last_error g /\
    accel_configure g None = (ACCEL_STATUS_INVALID_PARAM, g) /\
    accel_get_config g false = (ACCEL_STATUS_INVALID_PARAM, None, g).
Proof.
  intros g cfg cfg' Hi g1 g2. subst g1 g2.
  unfold accel_configure, accel_get_config, accel_reset_config.
  rewrite Hi. cbn [negb fst snd set_config initialized]. rewrite Hi.
  cbn [negb fst snd set_config initialized hal config last_error].
  rewrite Hi. cbn [negb fst snd].
  repeat split; reflexivity.
Qed.

(** A run of X16: the configuration of [test_basic_config]. *)
Lemma X16_config_round_trip_witness :
  accel_get_config
    (snd (accel_configure
            (sample_session (sample_context HAL_STATUS_READY idle_device))
            (Some (mk_config 3 2 16777216 5000)))) true
  = (ACCEL_STATUS_OK, Some (mk_config 3 2 16777216 5000),
     snd (accel_configure
            (sample_session (sample_context HAL_STATUS_READY idle_device))
            (Some (mk_config 3 2 16777216 5000)))).
Proof.
  destruct (X16_config_round_trip
              (sample_session (sample_context HAL_STATUS_READY idle_device))
              (mk_config 3 2 16777216 5000) (mk_config 4 4 33554432 10000)
              eq_refl) as (_ & H & _).
  exact H.
Defined.

(** ** Sessions reached through the driver API *)

Lemma mem_alloc_wf (base total : Z) (m : hal_mem_context)
      (sz : Z) (ok : bool) :
  0 < base -> base + total < 2 ^ SIZE_BITS ->
  0 < sz ->
  sz + (HAL_MEM_ALIGN - 1) + sizeof_mem_block + HAL_MEM_ALIGN < 2 ^ SIZE_BITS ->
  mem_wf base total m ->
  mem_wf base total (snd (mem_alloc m sz ok)).
Proof.
  intros Hb Hw Hsz Hno (Hf1 & Hf2 & Hc & Hn & Hnaf).
  assert (Hbal : balanced base total (m, used_addrs (blocks m))).
  { split; [| split]; cbn [fst snd]; auto. }
  pose proof (mem_alloc_balanced base total m _ sz ok Hb Hw Hsz Hno Hbal)
    as (Hc' & Hn' & _).
  cbn [fst snd] in Hc', Hn'.
  destruct (mem_alloc_fields m sz ok) as [Hg1 Hg2].
  unfold mem_wf. rewrite Hg1, Hg2.
  repeat split; auto. apply mem_alloc_naf. exact Hnaf.
Qed.

Lemma mem_free_wf (base total : Z) (m : hal_mem_context) (ptr : Z) :
  0 < base -> base + total < 2 ^ SIZE_BITS ->
  mem_wf base total m ->
  mem_wf base total (mem_free m ptr).
Proof.
  intros Hb Hw (Hf1 & Hf2 & Hc & Hn & Hnaf).
  assert (Hbal : balanced base total (m, used_addrs (blocks m))).
  { split; [| split]; cbn [fst snd]; auto. }
  pose proof (mem_free_balanced base total m _ ptr Hb Hw Hbal)
    as (Hc' & Hn' & _).
  cbn [fst snd] in Hc', Hn'.
  destruct (mem_free_fields m ptr) as [Hg1 Hg2].
  unfold mem_wf. rewrite Hg1, Hg2.
  repeat split; auto. apply mem_free_naf. exact Hnaf.
Qed.

Lemma set_mem_ctx_same (c : hal_context) (m : hal_mem_context) :
  mem_ctx c = Some m -> set_mem_ctx c (Some m) = c.
Proof. intros H. destruct c. cbn in *. subst. reflexivity. Qed.

Lemma set_hal_same (g : g_ctx_t) (h : option hal_context) :
  hal g = h -> set_hal g h = g.
Proof. intros H. destruct g. cbn in *. subst. reflexivity. Qed.

Lemma ctx_mem_some (h : option hal_context) (m : hal_mem_context) :
  ctx_mem h = Some m -> exists c, h = Some c /\ mem_ctx c = Some m.
Proof.
  destruct h as [c |]; [| discriminate]. intros H. exists c. auto.
Qed.

Lemma hal_mem_alloc_live (c : hal_context) (m : hal_mem_context)
      (sz : Z) (ok : bool) :
  mem_ctx c = Some m ->
  hal_mem_alloc (Some c) sz ok =
  if sz =? 0 then (NULL, Some c)
  else (fst (mem_alloc m sz ok),
        Some (set_mem_ctx c (Some (snd (mem_alloc m sz ok))))).
Proof.
  intros Hm. unfold hal_mem_alloc. rewrite Hm.
  destruct (sz =? 0); [reflexivity |].
  destruct (mem_alloc m sz ok). reflexivity.
Qed.

Lemma hal_mem_free_live (c : hal_context) (m : hal_mem_context) (ptr : Z) :
  mem_ctx c = Some m ->
  hal_mem_free (Some c) ptr =
  if ptr =? NULL then Some c
  else Some (set_mem_ctx c (Some (mem_free m ptr))).
Proof.
  intros Hm. unfold hal_mem_free. rewrite Hm. reflexivity.
Qed.

Lemma mem_alloc_in_window (base total : Z) (m m' : hal_mem_context)
      (sz p : Z) (ok : bool) :
  0 <= base -> base + total < 2 ^ SIZE_BITS ->
  contiguous base (blocks m) (base + total) ->
  Forall (fun b => aligned (addr b)) (blocks m) ->
  0 < sz -> sz + (HAL_MEM_ALIGN - 1) < 2 ^ SIZE_BITS ->
  mem_alloc m sz ok = (p, m') -> p <> NULL ->
  aligned p /\ base <= p /\ p + sz <= base + total.
Proof.
  intros Hb Hw Hc Ha Hsz Hno He Hp.
  destruct (mem_alloc_cases m sz ok)
    as [[_ He'] | (pre & best & post & Hbs & [Hu Hle] & _ & _ & Hcase)].
  { rewrite He' in He. injection He as Hp' _. congruence. }
  rewrite align_size_round_up in Hle by word_lia.
  pose proof (round_up_bounds sz) as Hr.
  apply contiguous_sizes in Hc. rewrite Forall_forall in Hc, Ha.
  assert (Hinb : In best (blocks m)) by (rewrite Hbs; apply in_elt).
  specialize (Hc best Hinb). specialize (Ha best Hinb). cbv beta in Ha.
  destruct Hcase as [(_ & _ & He') | [(_ & _ & He') | (_ & He')]];
    rewrite He' in He; injection He as Hp' _; try congruence;
    subst p; repeat split; auto; lia.
Qed.

Section Session.

Variable base : Z.
Hypothesis base_pos : 0 < base.
Hypothesis base_aligned : aligned base.
Hypothesis window_fits : base + HAL_ACCEL_MEM_SIZE < 2 ^ SIZE_BITS.

Lemma session_alloc_wf (g : g_ctx_t) (sz : Z) (md mn : bool) :
  0 <= sz <= UINT32_MAX ->
  session_wf base g ->
  session_wf base (snd (accel_alloc_buffer g sz md mn)).
Proof.
  intros Hsz (Hi & m & Hm & Hwf & Hal).
  destruct (ctx_mem_some _ _ Hm) as (c & Hh & Hmc).
  unfold accel_alloc_buffer. rewrite Hi. cbn [negb].
  destruct md; cbn [negb].
  2:{ cbn [snd]. split; [exact Hi |]. exists m. auto. }
  rewrite Hh, (hal_mem_alloc_live c m sz mn Hmc).
  destruct (Z.eqb_spec sz 0) as [-> | Hnz].
  - cbn [snd Z.eqb NULL]. split; [exact Hi |]. exists m.
    cbn [hal set_last_error set_hal ctx_mem]. auto.
  - assert (Hwf' : mem_wf base HAL_ACCEL_MEM_SIZE (snd (mem_alloc m sz mn))).
    { apply mem_alloc_wf; auto; unfold UINT32_MAX in Hsz; word_lia. }
    assert (Hal' : Forall (fun b => aligned (addr b))
                          (blocks (snd (mem_alloc m sz mn)))).
    { destruct Hwf as (_ & _ & Hc & _).
      apply (mem_alloc_aligned m sz mn base (base + HAL_ACCEL_MEM_SIZE));
        auto; lia. }
    destruct (fst (mem_alloc m sz mn) =? NULL); cbn [snd];
      (split; [exact Hi |]); exists (snd (mem_alloc m sz mn));
      cbn [hal set_last_error set_hal ctx_mem set_mem_ctx mem_ctx]; auto.
Qed.

Lemma session_free_wf (g : g_ctx_t) (b : option accel_buffer_t) :
  session_wf base g ->
  session_wf base (accel_free_buffer g b).
Proof.
  intros (Hi & m & Hm & Hwf & Hal).
  destruct (ctx_mem_some _ _ Hm) as (c & Hh & Hmc).
  unfold accel_free_buffer.
  destruct b as [b |]; [| split; [exact Hi | exists m; auto]].
  rewrite Hi.
  destruct (Z.eqb_spec (host_addr b) NULL) as [E | E]; cbn [negb];
    [split; [exact Hi | exists m; auto] |].
  rewrite Hh, (hal_mem_free_live c m _ Hmc).
  rewrite (proj2 (Z.eqb_neq _ _) E).
  split; [exact Hi |]. exists (mem_free m (host_addr b)).
  cbn [hal set_hal ctx_mem set_mem_ctx mem_ctx].
  split; [reflexivity |]. split.
  - apply mem_free_wf; auto.
  - apply mem_free_aligned. exact Hal.
Qed.

Lemma session_wf_transfer (g g' : g_ctx_t) :
  initialized g' = initialized g ->
  ctx_mem (hal g') = ctx_mem (hal g) ->
  session_wf base g -> session_wf base g'.
Proof.
  intros H1 H2 (Hi & m & Hm & Hwf & Hal).
  split; [congruence |]. exists m. rewrite H2. auto.
Qed.

Lemma accel_wait_complete_fields (g : g_ctx_t) (timeout : Z) :
  initialized (snd (accel_wait_complete g timeout)) = initialized g /\
  ctx_mem (hal (snd (accel_wait_complete g timeout))) = ctx_mem (hal g).
Proof.
  unfold accel_wait_complete.
  destruct (initialized g) eqn:Hi; cbn [negb]; [| auto].
  pose proof (wait_for_ready_mem (hal g)) as Hmem.
  destruct (hal_wait_for_ready (hal g)) as [[|] h'];
    cbn [fst snd] in *; unfold set_last_error, set_hal;
    cbn [hal initialized]; auto.
Qed.

Lemma init_session_wf (os : os_env) (g : g_ctx_t) (path : string) :
  initialized g = false ->
  os_grants os path base ->
  session_wf base (snd (accel_init os g (Some path))).
Proof.
  intros Hi Hg. unfold accel_init. rewrite Hi.
  destruct (hal_init_some os path base Hg) as (regs & _ & ->).
  cbn [snd]. split; [reflexivity |].
  exists (fresh_mem base HAL_ACCEL_MEM_SIZE).
  cbn [hal set_initialized set_hal ctx_mem mem_ctx].
  split; [reflexivity |]. split.
  - apply (run_core_wf base HAL_ACCEL_MEM_SIZE []); auto.
    unfold HAL_ACCEL_MEM_SIZE. lia.
  - repeat constructor. exact base_aligned.
Qed.

Lemma accel_init_ok (os : os_env) (g : g_ctx_t) (path : option string) :
  os_mmap_mem os = Some base ->
  session_ok base g ->
  session_ok base (snd (accel_init os g path)).
Proof.
  intros Hm Hs. destruct path as [path |]; [| exact Hs].
  destruct (initialized g) eqn:Hi.
  - unfold accel_init. rewrite Hi. exact Hs.
  - destruct (hal_init_cases os path) as [[b Hg] | Hn].
    + assert (b = base) as ->.
      { destruct Hg as (_ & _ & _ & E & _). congruence. }
      intros _. apply init_session_wf; assumption.
    + unfold accel_init. rewrite Hi, (hal_init_none os path Hn).
      cbn [snd]. intros H. cbn in H. congruence.
Qed.

Lemma accel_step_ok (os : os_env) (g : g_ctx_t) (call : accel_call) :
  os_mmap_mem os = Some base ->
  call_ok call ->
  session_ok base g ->
  session_ok base (accel_step os g call).
Proof.
  intros Hm Hok Hs. destruct call; cbn [accel_step call_ok] in *.
  - apply accel_init_ok; assumption.
  - unfold accel_cleanup, session_ok.
    destruct (initialized g) eqn:Hi.
    + cbn. discriminate.
    + rewrite Hi. discriminate.
  - destruct (initialized g) eqn:Hi.
    + intros _. apply session_alloc_wf; auto.
    + unfold accel_alloc_buffer. rewrite Hi. exact Hs.
  - destruct (initialized g) eqn:Hi.
    + intros _. apply session_free_wf; auto.
    + unfold accel_free_buffer. rewrite Hi.
      destruct buffer; exact Hs.
  - destruct (accel_submit_op_fields g params) as (_ & _ & H3 & H4 & _).
    intros Hi. rewrite H3 in Hi.
    apply (session_wf_transfer g); auto.
  - destruct (accel_wait_complete_fields g timeout) as (H3 & H4).
    intros Hi. rewrite H3 in Hi.
    apply (session_wf_transfer g); auto.
  - destruct (initialized g) eqn:Hi.
    + intros _. apply (session_wf_transfer g); auto;
        unfold accel_configure; destruct (negb (initialized g));
        destruct cfg; reflexivity.
    + unfold accel_configure. rewrite Hi. exact Hs.
  - destruct (initialized g) eqn:Hi.
    + intros _. apply (session_wf_transfer g); auto;
        unfold accel_get_config; destruct (negb (initialized g));
        destruct out; reflexivity.
    + unfold accel_get_config. rewrite Hi. exact Hs.
  - destruct (initialized g) eqn:Hi.
    + intros _. apply (session_wf_transfer g); auto;
        unfold accel_reset_config; destruct (negb (initialized g));
        reflexivity.
    + unfold accel_reset_config. rewrite Hi. exact Hs.
Qed.

Lemma run_accel_ok (os : os_env) (calls : list accel_call) :
  forall g,
    os_mmap_mem os = Some base ->
    Forall call_ok calls ->
    session_ok base g ->
    session_ok base (run_accel os calls g).
Proof.
  unfold run_accel.
  induction calls as [| call calls IH]; intros g Hm Hok Hs; cbn [fold_left].
  - exact Hs.
  - inversion Hok; subst. apply IH; auto. apply accel_step_ok; auto.
Qed.

(** What a session brought up by [accel_init] and then driven by driver
    calls is. *)
Lemma driven_session_ok (os : os_env) (g0 : g_ctx_t) (path : string)
      (calls : list accel_call) :
  initialized g0 = false ->
  os_grants os path base ->
  Forall call_ok calls ->
  session_ok base (run_accel os calls (snd (accel_init os g0 (Some path)))).
Proof.
  intros Hi Hg Hok.
  apply run_accel_ok; auto.
  - destruct Hg as (_ & _ & _ & E & _). exact E.
  - intros _. apply init_session_wf; assumption.
Qed.

(** What [accel_alloc_buffer] gives on a well-formed session. *)
Lemma accel_alloc_buffer_wf (g : g_ctx_t) (sz : Z) (md mn : bool) :
  0 <= sz <= UINT32_MAX ->
  session_wf base g ->
  match fst (accel_alloc_buffer g sz md mn) with
  | Some b =>
      0 < sz /\ buf_size b = sz /\
      host_addr b <> NULL /\ aligned (host_addr b) /\
      base <= host_addr b /\
      host_addr b + sz <= base + HAL_ACCEL_MEM_SIZE /\
      dev_addr b = HAL_ACCEL_MEM_BASE + (host_addr b - base) /\
      last_error (snd (accel_alloc_buffer g sz md mn)) = last_error g /\
      accel_free_buffer (snd (accel_alloc_buffer g sz md mn)) (Some b) = g
  | None =>
      hal (snd (accel_alloc_buffer g sz md mn)) = hal g /\
      last_error (snd (accel_alloc_buffer g sz md mn)) =
        (if md then "Failed to allocate device memory"
         else "Failed to allocate buffer descriptor")%string
  end.
Proof.
  intros Hsz (Hi & m & Hm & Hwf & Hal).
  destruct (ctx_mem_some _ _ Hm) as (c & Hh & Hmc).
  unfold accel_alloc_buffer. rewrite Hi. cbn [negb].
  destruct md; cbn [negb]; [| cbn [fst snd]; auto].
  rewrite Hh, (hal_mem_alloc_live c m sz mn Hmc).
  destruct (Z.eqb_spec sz 0) as [-> | Hnz].
  { cbn [fst snd Z.eqb NULL hal set_last_error set_hal last_error]. auto. }
  destruct (mem_alloc m sz mn) as [p m'] eqn:He. cbn [fst snd].
  destruct (Z.eqb_spec p NULL) as [Ep | Ep]; cbn [fst snd].
  - cbn [hal set_last_error set_hal last_error]. split; [| reflexivity].
    destruct Hwf as (_ & _ & Hc & _).
    destruct (mem_alloc_used base HAL_ACCEL_MEM_SIZE m sz mn
                             base_pos window_fits Hc) as [_ Hsame].
    rewrite He in Hsame. cbn [fst snd] in Hsame.
    rewrite (Hsame Ep), (set_mem_ctx_same c m Hmc). reflexivity.
  - assert (Hsz' : 0 < sz) by lia.
    assert (Hwf0 := Hwf).
    destruct Hwf as (Hf1 & Hf2 & Hc & _).
    destruct (mem_alloc_in_window base HAL_ACCEL_MEM_SIZE m m' sz p mn)
      as (Hap & Hlo & Hhi); auto; try lia.
    { unfold UINT32_MAX in Hsz. word_lia. }
    destruct (mem_alloc_fields m sz mn) as [Hg1 Hg2].
    rewrite He in Hg1, Hg2. cbn [snd] in Hg1, Hg2.
    cbn [host_addr dev_addr buf_size hal set_hal last_error
         hal_virt_to_phys set_mem_ctx mem_ctx].
    repeat split; auto.
    + destruct (mem_virt_to_phys_cases m' p) as [H1 _];
        rewrite ?Hg1, ?Hg2, ?Hf1, ?Hf2; try lia;
        try (unfold HAL_ACCEL_MEM_SIZE; lia);
        try (vm_compute; discriminate).
    + unfold accel_free_buffer.
      cbn [initialized set_hal host_addr hal].
      rewrite Hi, (proj2 (Z.eqb_neq _ _) Ep). cbn [negb].
      rewrite (hal_mem_free_live (set_mem_ctx c (Some m')) m' p eq_refl).
      rewrite (proj2 (Z.eqb_neq _ _) Ep).
      rewrite (mem_alloc_free_core base HAL_ACCEL_MEM_SIZE m m' sz p mn
                                   base_pos window_fits Hwf0 He Ep).
      unfold set_hal, set_mem_ctx.
      cbn [hal config last_error initialized fd status mapped_memory
           accel_memory_base accel_memory_size mem_ctx device clock trace].
      destruct g as [h cf le ini]. cbn [hal config last_error initialized] in *.
      subst h. destruct c. cbn in *. subst. reflexivity.
Qed.

End Session.

(** ** Buffers handed out by the driver *)

(** X17.  Take a session brought up by [accel_init] over a window at an
    aligned non-NULL base and then driven by any sequence of driver
    calls, [accel_cleanup] and further [accel_init] included, the
    operating system answering every [accel_init] alike.  A buffer that
    [accel_alloc_buffer] returns for a [uint32_t] size has that size,
    which is not 0; its host address is not NULL, is a multiple of 64 and
    the buffer lies inside the window; its device address is the device
    base plus the offset of the host address, so the buffer lies inside
    the device range; the message is left as it was.  When no buffer is
    returned on a live session, the HAL context is as before and the
    message says which allocation failed.  On a session that is torn down
    no buffer is returned and nothing changes, the message included. *)
Theorem X17_alloc_buffer_descriptor :
  forall (os : os_env) (g0 : g_ctx_t) (path : string) (base : Z)
         (calls : list accel_call) (sz : Z) (md mn : bool),
    initialized g0 = false ->
    os_grants os path base ->
    0 < base -> aligned base ->
    base + HAL_ACCEL_MEM_SIZE < 2 ^ SIZE_BITS ->
    Forall call_ok calls ->
    0 <= sz <= UINT32_MAX ->
    let g := run_accel os calls (snd (accel_init os g0 (Some path))) in
    let r := accel_alloc_buffer g sz md mn in
    (forall b,
        fst r = Some b ->
        initialized g = true /\
        0 < sz /\ buf_size b = sz /\
        host_addr b <> NULL /\ aligned (host_addr b) /\
        base <= host_addr b /\
        host_addr b + sz <= base + HAL_ACCEL_MEM_SIZE /\
        dev_addr b = HAL_ACCEL_MEM_BASE + (host_addr b - base) /\
        HAL_ACCEL_MEM_BASE <= dev_addr b /\
        dev_addr b + sz <= HAL_ACCEL_MEM_BASE + HAL_ACCEL_MEM_SIZE /\
        last_error (snd r) = last_error g) /\
    (fst r = None -> initialized g = true ->
     hal (snd r) = hal g /\
     last_error (snd r) =
       (if md then "Failed to allocate device memory"
        else "Failed to allocate buffer descriptor")%string) /\
    (initialized g = false -> r = (None, g)).
Proof.
  intros os g0 path base calls sz md mn Hi Hg Hb Hal Hw Hok Hsz g r.
  subst r.
  assert (Hs : session_ok base g).
  { apply driven_session_ok; auto. }
  split; [| split].
  - intros b Hb'. destruct (initialized g) eqn:Hig.
    + pose proof (accel_alloc_buffer_wf base Hb Hal Hw g sz md mn Hsz
                                        (Hs Hig)) as H.
      rewrite Hb' in H.
      destruct H as (H1 & H2 & H3 & H4 & H5 & H6 & H7 & H8 & _).
      repeat split; auto; lia.
    + exfalso. unfold accel_alloc_buffer in Hb'. rewrite Hig in Hb'.
      discriminate.
  - intros Hn Hig.
    pose proof (accel_alloc_buffer_wf base Hb Hal Hw g sz md mn Hsz
                                      (Hs Hig)) as H.
    rewrite Hn in H. exact H.
  - intros Hig. unfold accel_alloc_buffer. rewrite Hig. reflexivity.
Qed.

(** A run of X17: an allocation, a tear-down and a second bring-up, one
    more allocation and a rejected submission, then a 1024-byte buffer. *)
Lemma X17_alloc_buffer_descriptor_witness :
  dev_addr (mk_buffer 5120 805307392 1024) =
  HAL_ACCEL_MEM_BASE + (host_addr (mk_buffer 5120 805307392 1024) - 4096).
Proof.
  destruct (X17_alloc_buffer_descriptor
              sample_os g_ctx_zero "/dev/accelerator0"%string 4096
              [CallAllocBuffer 4096 true true; CallCleanup;
               CallInit (Some "/dev/accelerator0"%string);
               CallAllocBuffer 1024 true true; CallSubmitOp None]
              1024 true true) as [H _].
  - reflexivity.
  - unfold os_grants, sample_os. cbn. repeat split; discriminate.
  - lia.
  - reflexivity.
  - reflexivity.
  - repeat constructor; cbn; unfold UINT32_MAX; lia.
  - unfold UINT32_MAX. lia.
  - destruct (H (mk_buffer 5120 805307392 1024))
      as (_ & _ & _ & _ & _ & _ & _ & Hd & _).
    + vm_compute. reflexivity.
    + exact Hd.
Defined.

(** X18.  On such a session, [accel_free_buffer] of the buffer that
    [accel_alloc_buffer] has just returned gives back the session exactly
    as it was before the allocation; [accel_free_buffer] of a NULL buffer,
    or of a buffer whose host address is NULL, changes nothing. *)
Theorem X18_free_buffer_undoes_alloc :
  forall (os : os_env) (g0 : g_ctx_t) (path : string) (base : Z)
         (calls : list accel_call) (sz : Z) (md mn : bool),
    initialized g0 = false ->
    os_grants os path base ->
    0 < base -> aligned base ->
    base + HAL_ACCEL_MEM_SIZE < 2 ^ SIZE_BITS ->
    Forall call_ok calls ->
    0 <= sz <= UINT32_MAX ->
    let g := run_accel os calls (snd (accel_init os g0 (Some path))) in
    let r := accel_alloc_buffer g sz md mn in
    (forall b, fst r = Some b -> accel_free_buffer (snd r) (Some b) = g) /\
    accel_free_buffer g None = g /\
    (forall b, host_addr b = NULL -> accel_free_buffer g (Some b) = g).
Proof.
  intros os g0 path base calls sz md mn Hi Hg Hb Hal Hw Hok Hsz g r.
  subst r.
  assert (Hs : session_ok base g).
  { apply driven_session_ok; auto. }
  split; [| split].
  - intros b Hb'. destruct (initialized g) eqn:Hig.
    + pose proof (accel_alloc_buffer_wf base Hb Hal Hw g sz md mn Hsz
                                        (Hs Hig)) as H.
      rewrite Hb' in H.
      destruct H as (_ & _ & _ & _ & _ & _ & _ & _ & H). exact H.
    + exfalso. unfold accel_alloc_buffer in Hb'. rewrite Hig in Hb'.
      discriminate.
  - reflexivity.
  - intros b Hn. unfold accel_free_buffer. rewrite Hn.
    destruct (initialized g); reflexivity.
Qed.

(** A run of X18: after a tear-down and a second bring-up, allocate 1024
    bytes behind an earlier allocation, then release them. *)
Lemma X18_free_buffer_undoes_alloc_witness :
  let g := run_accel sample_os
             [CallCleanup; CallInit (Some "/dev/accelerator0"%string);
              CallAllocBuffer 1024 true true; CallSubmitOp None]
             (snd (accel_init sample_os g_ctx_zero
                              (Some "/dev/accelerator0"%string))) in
  accel_free_buffer (snd (accel_alloc_buffer g 1024 true true))
                    (Some (mk_buffer 5120 805307392 1024)) = g.
Proof.
  intros g.
  destruct (X18_free_buffer_undoes_alloc
              sample_os g_ctx_zero "/dev/accelerator0"%string 4096
              [CallCleanup; CallInit (Some "/dev/accelerator0"%string);
               CallAllocBuffer 1024 true true; CallSubmitOp None]
              1024 true true) as [H _].
  - reflexivity.
  - unfold os_grants, sample_os. cbn. repeat split; discriminate.
  - lia.
  - reflexivity.
  - reflexivity.
  - repeat constructor; cbn; unfold UINT32_MAX; lia.
  - unfold UINT32_MAX. lia.
  - apply (H (mk_buffer 5120 805307392 1024)).
    vm_compute. reflexivity.
Defined.

(* ================================================================== *)
(** * Further properties of the C++ wrappers *)

(** ** Buffer *)

(** X19.  On a session brought up by [accel_init] and then driven by any
    sequence of driver calls, [accel_cleanup] and further [accel_init]
    included, for a [size_t] argument [size]: when the constructor of
    [Buffer] returns, the handle is not NULL, [size()] reports [size]
    reduced modulo 2^32 (the argument is narrowed to the [uint32_t]
    parameter of [accel_alloc_buffer]), which is not 0, and the
    destructor gives back the session exactly as it was before the
    construction.  When it throws, the handle is NULL, the HAL context is
    as before and the destructor does nothing; the text is the prefix
    followed, on a live session, by the message of the allocation that
    failed, and on a session that is torn down by whatever message the
    session holds (none after [accel_cleanup]).  It always throws when
    [size] is a multiple of 2^32. *)
Theorem X19_buffer_raii :
  forall (os : os_env) (g0 : g_ctx_t) (path : string) (base : Z)
         (calls : list accel_call) (size : Z) (md mn : bool),
    initialized g0 = false ->
    os_grants os path base ->
    0 < base -> aligned base ->
    base + HAL_ACCEL_MEM_SIZE < 2 ^ SIZE_BITS ->
    Forall call_ok calls ->
    0 <= size < 2 ^ SIZE_BITS ->
    let g := run_accel os calls (snd (accel_init os g0 (Some path))) in
    let r := Buffer_ctor g size md mn in
    (snd (fst r) = Returned ->
     exists b,
       fst (fst r) = Some b /\
       Buffer_size b = size mod 2 ^ 32 /\ 0 < size mod 2 ^ 32 /\
       Buffer_dtor (snd r) (fst (fst r)) = g) /\
    (snd (fst r) <> Returned ->
     fst (fst r) = None /\
     hal (snd r) = hal g /\
     snd (fst r) =
       Thrown (if initialized g
               then if md
                    then "Failed to allocate buffer: Failed to allocate device memory"
                    else "Failed to allocate buffer: Failed to allocate buffer descriptor"
               else String.append "Failed to allocate buffer: "
                                  (last_error g)) /\
     Buffer_dtor (snd r) (fst (fst r)) = snd r) /\
    (size mod 2 ^ 32 = 0 -> snd (fst r) <> Returned).
Proof.
  intros os g0 path base calls size md mn Hi Hg Hb Hal Hw Hok Hsz g r.
  subst r.
  assert (Hs : session_ok base g).
  { apply driven_session_ok; auto. }
  assert (Hn : 0 <= size mod 2 ^ 32 <= UINT32_MAX).
  { unfold UINT32_MAX. pose proof (Z.mod_pos_bound size (2 ^ 32)). lia. }
  destruct (initialized g) eqn:Hig.
  - pose proof (accel_alloc_buffer_wf base Hb Hal Hw g (size mod 2 ^ 32)
                                      md mn Hn (Hs Hig)) as H.
    unfold Buffer_ctor.
    destruct (accel_alloc_buffer g (size mod 2 ^ 32) md mn) as [[b |] g1];
      cbn [fst snd] in *.
    + destruct H as (H1 & H2 & _ & _ & _ & _ & _ & _ & H9).
      split; [| split].
      * intros _. exists b. unfold Buffer_size, Buffer_dtor. auto.
      * congruence.
      * lia.
    + destruct H as (H1 & H2). split; [| split].
      * discriminate.
      * intros _. unfold accel_get_error. rewrite H2.
        destruct md; repeat split; auto.
      * discriminate.
  - unfold Buffer_ctor, accel_alloc_buffer. rewrite Hig.
    cbn [negb fst snd]. split; [| split].
    + discriminate.
    + intros _. repeat split; reflexivity.
    + discriminate.
Qed.

(** A run of X19: after a tear-down and a second bring-up, a request of
    2^32 + 1024 bytes yields a buffer whose [size()] is 1024. *)
Lemma X19_buffer_raii_witness :
  let g := run_accel sample_os
             [CallAllocBuffer 1024 true true; CallCleanup;
              CallInit (Some "/dev/accelerator0"%string)]
             (snd (accel_init sample_os g_ctx_zero
                              (Some "/dev/accelerator0"%string))) in
  exists b,
    fst (fst (Buffer_ctor g 4294968320 true true)) = Some b /\
    Buffer_size b = 4294968320 mod 2 ^ 32 /\ 0 < 4294968320 mod 2 ^ 32 /\
    Buffer_dtor (snd (Buffer_ctor g 4294968320 true true))
                (fst (fst (Buffer_ctor g 4294968320 true true))) = g.
Proof.
  intros g.
  destruct (X19_buffer_raii
              sample_os g_ctx_zero "/dev/accelerator0"%string 4096
              [CallAllocBuffer 1024 true true; CallCleanup;
               CallInit (Some "/dev/accelerator0"%string)]
              4294968320 true true) as [H _].
  - reflexivity.
  - unfold os_grants, sample_os. cbn. repeat split; discriminate.
  - lia.
  - reflexivity.
  - reflexivity.
  - repeat constructor; cbn; unfold UINT32_MAX; lia.
  - unfold SIZE_BITS. lia.
  - apply H. vm_compute. reflexivity.
Defined.

(** ** Runtime *)

(** X20.  On a session that is not yet initialised, the constructor of
    [Runtime] returns exactly when every step of [hal_init] is granted.
    The session then is initialised and holds the default configuration,
    [Configure] stores any four values without throwing, and the
    destructor zeroes the session.  Otherwise the constructor throws the
    initialisation text followed by the message of [accel_init], the
    session stays uninitialised and the destructor does nothing; the
    reset of the configuration never is what throws. *)
Theorem X20_runtime_ctor :
  forall (os : os_env) (g : g_ctx_t) (path : string),
    initialized g = false ->
    let r := Runtime_ctor os g path in
    ((exists base, os_grants os path base) <-> fst r = Returned) /\
    (fst r = Returned ->
     initialized (snd r) = true /\
     config (snd r) = mk_config 1 1 16777216 1000 /\
     last_error (snd r) = last_error g /\
     Runtime_dtor (snd r) = g_ctx_zero /\
     forall fl nch maxt tmo,
       Configure (snd r) fl nch maxt tmo =
       (Returned, set_config (snd r) (mk_config fl nch maxt tmo))) /\
    (fst r <> Returned ->
     r = (Thrown "Failed to initialize runtime: Failed to initialize HAL",
          set_last_error (set_hal g None) "Failed to initialize HAL") /\
     Runtime_dtor (snd r) = snd r).
Proof.
  intros os g path Hi r. subst r.
  unfold Runtime_ctor, accel_init. rewrite Hi.
  destruct (hal_init_cases os path) as [[base Hg] | Hn].
  - destruct (hal_init_some os path base Hg) as (regs & _ & ->).
    unfold accel_reset_config, set_initialized, set_hal, set_config.
    cbn [initialized negb fst snd hal config last_error].
    split; [| split].
    + split; [reflexivity | intros _; exists base; exact Hg].
    + intros _. repeat split.
    + congruence.
  - rewrite (hal_init_none os path Hn).
    unfold set_last_error, set_hal, accel_get_error, Runtime_dtor,
      accel_cleanup.
    cbn [initialized negb fst snd hal config last_error]. rewrite Hi.
    split; [| split].
    + split; [intros [base Hg]; exfalso; exact (Hn base Hg) | discriminate].
    + discriminate.
    + intros _. split; reflexivity.
Qed.

(** A run of X20: construction on the sample operating system. *)
Lemma X20_runtime_ctor_witness :
  config (snd (Runtime_ctor sample_os g_ctx_zero "/dev/accelerator0"))
  = mk_config 1 1 16777216 1000.
Proof.
  destruct (X20_runtime_ctor sample_os g_ctx_zero "/dev/accelerator0"%string
                             eq_refl) as (_ & H & _).
  destruct H as (_ & H & _).
  - reflexivity.
  - exact H.
Defined.

(** X21.  While a [Runtime] is alive (the session is initialised),
    constructing a second one always returns, whatever its device path and
    whatever the operating system would answer: the path is not opened,
    the HAL context is the one already there, and the configuration the
    first object had set is replaced by the defaults.  Destroying either
    object zeroes the session, after which [MatrixMultiply] and
    [Convolution2D] on the other throw the submission text with an empty
    message. *)
Theorem X21_runtimes_share_session :
  forall (os2 : os_env) (g : g_ctx_t) (path2 : string)
         (i w o : accel_buffer_t),
    initialized g = true ->
    let r := Runtime_ctor os2 g path2 in
    fst r = Returned /\
    hal (snd r) = hal g /\
    config (snd r) = mk_config 1 1 16777216 1000 /\
    Runtime_dtor (snd r) = g_ctx_zero /\
    Runtime_dtor g = g_ctx_zero /\
    MatrixMultiply (Runtime_dtor (snd r)) i w o =
      (Thrown "Failed to submit operation: ", g_ctx_zero) /\
    Convolution2D (Runtime_dtor (snd r)) i w o =
      (Thrown "Failed to submit operation: ", g_ctx_zero).
Proof.
  intros os2 g path2 i w o Hi r. subst r.
  assert (E : Runtime_ctor os2 g path2 =
              (Returned, set_config g (mk_config 1 1 16777216 1000))).
  { unfold Runtime_ctor, accel_init, accel_reset_config.
    rewrite Hi. cbv beta iota. rewrite Hi. reflexivity. }
  rewrite E. cbn [fst snd].
  unfold Runtime_dtor, accel_cleanup.
  cbn [set_config initialized hal config]. rewrite Hi.
  repeat split; reflexivity.
Qed.

(** A run of X21: a second runtime on the sample session. *)
Lemma X21_runtimes_share_session_witness :
  fst (Runtime_ctor sample_os
         (sample_session (sample_context HAL_STATUS_READY idle_device))
         "/dev/accelerator1") = Returned.
Proof.
  destruct (X21_runtimes_share_session sample_os
              (sample_session (sample_context HAL_STATUS_READY idle_device))
              "/dev/accelerator1"%string
              (mk_buffer 4096 805306368 1024)
              (mk_buffer 5120 805307392 1024)
              (mk_buffer 6144 805308416 1024) eq_refl) as (H & _).
  exact H.
Defined.

Lemma submit_and_wait_ready :
  forall (g : g_ctx_t) (c : hal_context) (p : accel_op_params_t),
    initialized g = true ->
    hal g = Some c ->
    ready_word (status c) = true ->
    mapped_memory c <> None ->
    op_type p <> ACCEL_OP_NONE ->
    SubmitAndWait g p =
    (if Z.testbit (status c) 3 || Z.testbit (status c) 1
     then Thrown (String.append "Operation failed: " (last_error g))
     else Returned,
     set_hal g
       (Some (mk_hal (fd c) (status c) (Some (lsu_ir_of p))
                     (accel_memory_base c) (accel_memory_size c)
                     (mem_ctx c) (device c) (clock c)
                     (trace c ++ [EvPoll (status c);
                                  EvRegWrite (systolic_ir_of p);
                                  EvPoll (status c);
                                  EvRegWrite (lsu_ir_of p);
                                  EvPoll (status c)])))).
Proof.
  intros g c p Hi Hh Hr Hm Hop.
  unfold SubmitAndWait.
  rewrite (accel_submit_op_ready g c p Hi Hh Hr Hm Hop).
  unfold accel_wait_complete.
  cbn [set_hal initialized hal]. rewrite Hi. cbn [negb].
  rewrite wait_ready_now by (cbn [status]; exact Hr).
  unfold log_event, hal_get_status, set_hal, accel_get_error.
  cbn [hal config last_error initialized fd status mapped_memory
       accel_memory_base accel_memory_size mem_ctx device clock trace].
  rewrite convert_hal_status_bits, <- app_assoc. cbn [app].
  destruct (Z.testbit (status c) 3), (Z.testbit (status c) 1);
    reflexivity.
Qed.

(** X22.  On an initialised session whose device shows READY and whose
    register window is mapped, [SubmitAndWait] for MATMUL or CONV2D makes
    exactly three status polls, two register stores and no sleep; it
    returns when the status word has neither bit 3 (ERROR) nor bit 1
    (BUSY) set, and otherwise throws the failure text followed by the
    message the session held before the call, since a completed wait
    stores no message. *)
Theorem X22_submit_and_wait_outcome :
  forall (g : g_ctx_t) (c : hal_context) (p : accel_op_params_t),
    initialized g = true ->
    hal g = Some c ->
    ready_word (status c) = true ->
    mapped_memory c <> None ->
    op_type p <> ACCEL_OP_NONE ->
    SubmitAndWait g p =
    (if Z.testbit (status c) 3 || Z.testbit (status c) 1
     then Thrown (String.append "Operation failed: " (last_error g))
     else Returned,
     set_hal g
       (Some (mk_hal (fd c) (status c) (Some (lsu_ir_of p))
                     (accel_memory_base c) (accel_memory_size c)
                     (mem_ctx c) (device c) (clock c)
                     (trace c ++ [EvPoll (status c);
                                  EvRegWrite (systolic_ir_of p);
                                  EvPoll (status c);
                                  EvRegWrite (lsu_ir_of p);
                                  EvPoll (status c)])))).
Proof.
  intros g c p Hi Hh Hr Hm Hop.
  apply submit_and_wait_ready; assumption.
Qed.

(** A run of X22: a matrix multiplication on the sample session. *)
Lemma X22_submit_and_wait_outcome_witness :
  fst (SubmitAndWait
         (sample_session (sample_context HAL_STATUS_READY idle_device))
         {| op_type := ACCEL_OP_MATMUL;
            input := mk_buffer 4096 805306368 1024;
            output := mk_buffer 6144 805308416 1024;
            weights := mk_buffer 5120 805307392 1024;
            flags := 0 |})
  = Returned.
Proof.
  rewrite (X22_submit_and_wait_outcome
             (sample_session (sample_context HAL_STATUS_READY idle_device))
             (sample_context HAL_STATUS_READY idle_device)).
  - reflexivity.
  - reflexivity.
  - reflexivity.
  - reflexivity.
  - cbn. discriminate.
  - cbn. discriminate.
Defined.

(* ================================================================== *)
(** * Further properties of allocation sequences *)

(** ** Everything released *)

Lemma all_unused_single (bs : list mem_block) :
  no_adjacent_free bs = true ->
  Forall (fun x => used x = false) bs ->
  (length bs <= 1)%nat.
Proof.
  intros Hn Ha. destruct bs as [| b1 [| b2 rest]]; cbn [length]; try lia.
  cbn [no_adjacent_free] in Hn.
  inversion Ha as [| ? ? H1 Ha']; subst.
  inversion Ha' as [| ? ? H2 _]; subst.
  rewrite H1, H2 in Hn. discriminate.
Qed.

(** X23.  Over a non-empty window at a non-NULL base, whenever a sequence
    of non-overflowing requests leaves the client with no pointer in hand
    (everything it was given it has released, in whatever order), the
    context is exactly the one [hal_mem_init] produced: a single unused
    block spanning the whole window. *)
Theorem X23_all_released_is_fresh :
  forall (c : hal_context) (base total : Z) (ops : list mem_op),
    0 < base -> 0 < total -> base + total < 2 ^ SIZE_BITS ->
    Forall request_ok ops ->
    let st := run_ops ops (fresh_ctx c base total) in
    snd st = [] ->
    fst st = fst (fresh_ctx c base total).
Proof.
  intros c base total ops Hb Ht Hw Hops st. subst st.
  unfold fresh_ctx.
  change (snd (hal_mem_init c base total true true))
    with (set_mem_ctx c (Some (fresh_mem base total))).
  rewrite run_ops_live. cbn [fst snd].
  assert (H : balanced base total
                (fold_left step_core ops (fresh_mem base total, []))).
  { apply run_core_balanced; auto.
    split; [| split]; cbn [fst snd].
    - apply fresh_contiguous. lia.
    - simpl. repeat constructor. intros [].
    - reflexivity. }
  assert (Hnaf : no_adjacent_free
                   (blocks (fst (fold_left step_core ops
                                           (fresh_mem base total, [])))) = true).
  { rewrite fold_step_core_fst. apply run_core_naf. reflexivity. }
  assert (Hf : base_addr (fst (fold_left step_core ops
                                         (fresh_mem base total, []))) = base /\
               total_size (fst (fold_left step_core ops
                                          (fresh_mem base total, []))) = total).
  { rewrite fold_step_core_fst.
    apply (run_core_fields ops (fresh_mem base total)). }
  destruct (fold_left step_core ops (fresh_mem base total, []))
    as [m live]. destruct H as (Hc & _ & Hp). cbn [fst snd] in *.
  intros Hl. subst live.
  apply Permutation_nil in Hp. apply used_addrs_nil in Hp.
  pose proof (all_unused_single _ Hnaf Hp) as Hlen.
  destruct Hf as [Hf1 Hf2].
  destruct m as [ba ts bs]. cbn [blocks base_addr total_size] in *.
  subst ba ts.
  destruct bs as [| b [| b2 rest]]; cbn [length] in Hlen; try lia.
  - cbn [contiguous] in Hc. lia.
  - cbn [contiguous] in Hc. destruct Hc as (Ha & _ & He).
    inversion Hp as [| ? ? Hu _]; subst.
    destruct b as [ab sb ub]. cbn [addr size used] in *. subst.
    assert (sb = total) by lia. subst sb. reflexivity.
Qed.

(** A run of X23: two allocations released in the order they were made. *)
Lemma X23_all_released_is_fresh_witness :
  let c := sample_context HAL_STATUS_READY idle_device in
  let ops := [Alloc 100 true; Alloc 200 true; Free 4096; Free 4224] in
  fst (run_ops ops (fresh_ctx c 4096 HAL_ACCEL_MEM_SIZE))
  = fst (fresh_ctx c 4096 HAL_ACCEL_MEM_SIZE).
Proof.
  intros c ops.
  apply (X23_all_released_is_fresh c 4096 HAL_ACCEL_MEM_SIZE ops).
  - lia.
  - unfold HAL_ACCEL_MEM_SIZE. lia.
  - reflexivity.
  - repeat constructor; try (simpl; lia); reflexivity.
  - reflexivity.
Defined.

(** ** Allocations on a fresh window *)

Lemma only_unused_is_tail (prefix pre post : list mem_block)
      (best tail : mem_block) :
  Forall (fun b => used b = true) prefix ->
  used best = false ->
  pre ++ best :: post = prefix ++ [tail] ->
  pre = prefix /\ best = tail /\ post = [].
Proof.
  revert pre. induction prefix as [| x prefix IH]; intros pre Hu Hb He.
  - destruct pre as [| y pre].
    + cbn in He. injection He as -> <-. auto.
    + cbn in He. injection He as _ He.
      destruct pre; discriminate.
  - inversion Hu as [| ? ? Hx Hu']; subst.
    destruct pre as [| y pre].
    + cbn in He. injection He as -> _. congruence.
    + cbn in He. injection He as -> He.
      destruct (IH pre Hu' Hb He) as (-> & -> & ->). auto.
Qed.

Lemma mem_alloc_tail (m : hal_mem_context) (prefix : list mem_block)
      (a r s : Z) :
  blocks m = prefix ++ [mk_block a r false] ->
  Forall (fun b => used b = true) prefix ->
  0 < s -> s + (HAL_MEM_ALIGN - 1) < 2 ^ SIZE_BITS ->
  0 < a -> a + r < 2 ^ SIZE_BITS ->
  align_size s + sizeof_mem_block + HAL_MEM_ALIGN < r ->
  mem_alloc m s true =
  (a, set_blocks m ((prefix ++ [mk_block a (align_size s) true])
                    ++ [mk_block (a + align_size s) (r - align_size s)
                                 false])).
Proof.
  intros Hbs Hu Hs Hno Ha Hw Hr.
  pose proof (align_size_round_up s ltac:(lia) ltac:(lia)) as Hal.
  pose proof (round_up_bounds s) as Hrb.
  assert (Hsz : 0 <= align_size s) by lia.
  destruct (mem_alloc_cases m s true)
    as [[Hnone _] | (pre & best & post & Hbs' & [Hub Hle] & _ & _ & Hcase)].
  - exfalso.
    assert (Hin : In (mk_block a r false) (blocks m)).
    { rewrite Hbs. apply in_or_app. right. left. reflexivity. }
    specialize (Hnone _ Hin). unfold fits in Hnone. cbn [used size] in Hnone.
    assert (SIZE_MAX <= r) by (apply Hnone; split; [reflexivity | word_lia]).
    word_lia.
  - rewrite Hbs in Hbs'. symmetry in Hbs'.
    destruct (only_unused_is_tail _ _ _ _ _ Hu Hub Hbs') as (-> & -> & ->).
    cbn [size addr] in *.
    assert (Hwr : wrap (align_size s + sizeof_mem_block + HAL_MEM_ALIGN)
                  = align_size s + sizeof_mem_block + HAL_MEM_ALIGN).
    { apply wrap_small. word_lia. }
    rewrite Hwr in Hcase.
    destruct Hcase as [(_ & _ & He) | [(_ & Hf & _) | (Hge & _)]];
      [| discriminate | lia].
    rewrite He. unfold split_block. cbn [addr size].
    rewrite (wrap_small (a + align_size s)) by word_lia.
    rewrite (wrap_small (r - align_size s)) by word_lia.
    rewrite <- app_assoc. reflexivity.
Qed.





(* ================================================================== *)
(** * The tutorial program *)

Lemma accel_alloc_buffer_eval (g : g_ctx_t) (c : hal_context)
      (m m' : hal_mem_context) (s p : Z) :
  initialized g = true -> hal g = Some c -> mem_ctx c = Some m ->
  s <> 0 -> mem_alloc m s true = (p, m') -> p <> NULL ->
  accel_alloc_buffer g s true true =
  (Some (mk_buffer p (mem_virt_to_phys m' p) s),
   set_hal g (Some (set_mem_ctx c (Some m')))).
Proof.
  intros Hi Hh Hm Hs He Hp.
  unfold accel_alloc_buffer. rewrite Hi, Hh. cbn [negb].
  rewrite (hal_mem_alloc_live c m s true Hm).
  rewrite (proj2 (Z.eqb_neq s 0) Hs), He. cbn [fst snd].
  rewrite (proj2 (Z.eqb_neq p NULL) Hp).
  reflexivity.
Qed.

Lemma accel_free_buffer_eval (g : g_ctx_t) (c : hal_context)
      (m : hal_mem_context) (b : accel_buffer_t) :
  initialized g = true -> hal g = Some c -> mem_ctx c = Some m ->
  host_addr b <> NULL ->
  accel_free_buffer g (Some b) =
  set_hal g (Some (set_mem_ctx c (Some (mem_free m (host_addr b))))).
Proof.
  intros Hi Hh Hm Hp.
  unfold accel_free_buffer. rewrite Hi, Hh.
  rewrite (proj2 (Z.eqb_neq _ _) Hp). cbn [negb].
  rewrite (hal_mem_free_live c m _ Hm), (proj2 (Z.eqb_neq _ _) Hp).
  reflexivity.
Qed.

Lemma virt_to_phys_at (m : hal_mem_context) (base off : Z) :
  base_addr m = base -> total_size m = HAL_ACCEL_MEM_SIZE ->
  0 < base -> base + HAL_ACCEL_MEM_SIZE < 2 ^ SIZE_BITS ->
  0 <= off < HAL_ACCEL_MEM_SIZE ->
  mem_virt_to_phys m (base + off) = HAL_ACCEL_MEM_BASE + off.
Proof.
  intros H1 H2 Hb Hw Ho.
  destruct (mem_virt_to_phys_cases m (base + off)) as [H _];
    rewrite ?H1, ?H2; try lia; try (vm_compute; discriminate).
Qed.

Lemma demo_alloc (base a r : Z) (prefix : list mem_block) :
  Forall (fun b => used b = true) prefix ->
  0 < a -> a + r < 2 ^ SIZE_BITS -> 1024 + 32 + 64 < r ->
  mem_alloc (mk_mem base HAL_ACCEL_MEM_SIZE
                    (prefix ++ [mk_block a r false])) 1024 true =
  (a, mk_mem base HAL_ACCEL_MEM_SIZE
             ((prefix ++ [mk_block a 1024 true])
              ++ [mk_block (a + 1024) (r - 1024) false])).
Proof.
  intros Hu Ha Hw Hr.
  assert (Hal : align_size 1024 = 1024) by reflexivity.
  rewrite (mem_alloc_tail
             (mk_mem base HAL_ACCEL_MEM_SIZE
                     (prefix ++ [mk_block a r false]))
             prefix a r 1024 eq_refl Hu).
  - rewrite Hal. reflexivity.
  - lia.
  - reflexivity.
  - exact Ha.
  - exact Hw.
  - rewrite Hal. word_lia.
Qed.

(** X25.  The tutorial [main] of demo.cc, statement by statement, on any
    operating system that grants every step of [hal_init] for
    "/dev/accelerator" and maps the accelerator memory at a non-NULL base,
    with every host [malloc] succeeding: the runtime is constructed and
    configured without an exception; the three 1024-byte buffers sit back
    to back at offsets 0, 1024 and 2048 of the window, with device
    addresses at the same offsets from the device base;
    [MatrixMultiply] returns after three status polls and two register
    stores, the systolic-array record with opcode 1 and the load/store
    record from the input's device address to the output's with length
    1024; the destructors of the three buffers, in reverse order of
    construction, give the allocator back as one unused block over the
    whole window, and the destructor of the runtime zeroes the session. *)
Theorem X25_demo_main :
  forall (os : os_env) (base : Z),
    os_grants os "/dev/accelerator" base ->
    0 < base ->
    base + HAL_ACCEL_MEM_SIZE < 2 ^ SIZE_BITS ->
    let r0 := Runtime_ctor os g_ctx_zero "/dev/accelerator" in
    let r1 := Configure (snd r0) ACCEL_CONFIG_ENABLE_DMA 1 16777216 1000 in
    let b1 := Buffer_ctor (snd r1) 1024 true true in
    let b2 := Buffer_ctor (snd b1) 1024 true true in
    let b3 := Buffer_ctor (snd b2) 1024 true true in
    let i := mk_buffer base HAL_ACCEL_MEM_BASE 1024 in
    let w := mk_buffer (base + 1024) (HAL_ACCEL_MEM_BASE + 1024) 1024 in
    let o := mk_buffer (base + 2048) (HAL_ACCEL_MEM_BASE + 2048) 1024 in
    let r := MatrixMultiply (snd b3) i w o in
    let d3 := Buffer_dtor (snd r) (Some o) in
    let d2 := Buffer_dtor d3 (Some w) in
    let d1 := Buffer_dtor d2 (Some i) in
    fst r0 = Returned /\ fst r1 = Returned /\
    fst b1 = (Some i, Returned) /\
    fst b2 = (Some w, Returned) /\
    fst b3 = (Some o, Returned) /\
    fst r = Returned /\
    ctx_trace (hal (snd r)) =
      [EvPoll HAL_STATUS_READY;
       EvRegWrite (ir_with (IrSystolic (systolic_cfg_of HAL_OP_MATMUL 0)));
       EvPoll HAL_STATUS_READY;
       EvRegWrite (ir_with (IrLsu (lsu_cfg_of HAL_ACCEL_MEM_BASE
                                              (HAL_ACCEL_MEM_BASE + 2048)
                                              1024)));
       EvPoll HAL_STATUS_READY] /\
    config (snd r) = mk_config 1 1 16777216 1000 /\
    ctx_mem (hal d1) = Some (fresh_mem base HAL_ACCEL_MEM_SIZE) /\
    Runtime_dtor d1 = g_ctx_zero.
Proof.
  intros os base Hg Hb Hw r0 r1 b1 b2 b3 i w o r d3 d2 d1.
  destruct (hal_init_some os _ base Hg) as (regs & Er & Hinit).
  set (m0 := fresh_mem base HAL_ACCEL_MEM_SIZE).
  set (m1 := mk_mem base HAL_ACCEL_MEM_SIZE
               [mk_block base 1024 true;
                mk_block (base + 1024) (HAL_ACCEL_MEM_SIZE - 1024) false]).
  set (m2 := mk_mem base HAL_ACCEL_MEM_SIZE
               [mk_block base 1024 true;
                mk_block (base + 1024) 1024 true;
                mk_block (base + 2048) (HAL_ACCEL_MEM_SIZE - 2048) false]).
  set (m3 := mk_mem base HAL_ACCEL_MEM_SIZE
               [mk_block base 1024 true;
                mk_block (base + 1024) 1024 true;
                mk_block (base + 2048) 1024 true;
                mk_block (base + 3072) (HAL_ACCEL_MEM_SIZE - 3072) false]).
  assert (Hsize : HAL_ACCEL_MEM_SIZE = 268435456) by reflexivity.
  (* the three allocations on the allocator state *)
  assert (A1 : mem_alloc m0 1024 true = (base, m1)).
  { pose proof (demo_alloc base base HAL_ACCEL_MEM_SIZE []
                           ltac:(constructor) Hb Hw ltac:(lia)) as H.
    cbn [app] in H. exact H. }
  assert (A2 : mem_alloc m1 1024 true = (base + 1024, m2)).
  { pose proof (demo_alloc base (base + 1024) (HAL_ACCEL_MEM_SIZE - 1024)
                           [mk_block base 1024 true]
                           ltac:(repeat constructor) ltac:(lia) ltac:(lia)
                           ltac:(lia)) as H.
    cbn [app] in H.
    replace (base + 1024 + 1024) with (base + 2048) in H by lia.
    replace (HAL_ACCEL_MEM_SIZE - 1024 - 1024)
      with (HAL_ACCEL_MEM_SIZE - 2048) in H by lia.
    exact H. }
  assert (A3 : mem_alloc m2 1024 true = (base + 2048, m3)).
  { pose proof (demo_alloc base (base + 2048) (HAL_ACCEL_MEM_SIZE - 2048)
                           [mk_block base 1024 true;
                            mk_block (base + 1024) 1024 true]
                           ltac:(repeat constructor) ltac:(lia) ltac:(lia)
                           ltac:(lia)) as H.
    cbn [app] in H.
    replace (base + 2048 + 1024) with (base + 3072) in H by lia.
    replace (HAL_ACCEL_MEM_SIZE - 2048 - 1024)
      with (HAL_ACCEL_MEM_SIZE - 3072) in H by lia.
    exact H. }
  (* the allocator states are well formed, so each release undoes the
     allocation before it *)
  assert (W0 : mem_wf base HAL_ACCEL_MEM_SIZE m0).
  { apply (run_core_wf base HAL_ACCEL_MEM_SIZE []); auto; lia. }
  assert (W1 : mem_wf base HAL_ACCEL_MEM_SIZE m1).
  { pose proof (mem_alloc_wf base HAL_ACCEL_MEM_SIZE m0 1024 true) as H.
    rewrite A1 in H. apply H; auto; try lia. reflexivity. }
  assert (W2 : mem_wf base HAL_ACCEL_MEM_SIZE m2).
  { pose proof (mem_alloc_wf base HAL_ACCEL_MEM_SIZE m1 1024 true) as H.
    rewrite A2 in H. apply H; auto; try lia. reflexivity. }
  assert (F3 : mem_free m3 (base + 2048) = m2).
  { apply (mem_alloc_free_core base HAL_ACCEL_MEM_SIZE m2 m3 1024
                               (base + 2048) true); auto.
    unfold NULL. lia. }
  assert (F2 : mem_free m2 (base + 1024) = m1).
  { apply (mem_alloc_free_core base HAL_ACCEL_MEM_SIZE m1 m2 1024
                               (base + 1024) true); auto.
    unfold NULL. lia. }
  assert (F1 : mem_free m1 base = m0).
  { apply (mem_alloc_free_core base HAL_ACCEL_MEM_SIZE m0 m1 1024
                               base true); auto.
    unfold NULL. lia. }
  (* device addresses *)
  assert (V1 : mem_virt_to_phys m1 base = HAL_ACCEL_MEM_BASE).
  { pose proof (virt_to_phys_at m1 base 0 eq_refl eq_refl Hb Hw) as H.
    rewrite !Z.add_0_r in H. apply H. lia. }
  assert (V2 : mem_virt_to_phys m2 (base + 1024) = HAL_ACCEL_MEM_BASE + 1024).
  { apply (virt_to_phys_at m2 base 1024 eq_refl eq_refl Hb Hw). lia. }
  assert (V3 : mem_virt_to_phys m3 (base + 2048) = HAL_ACCEL_MEM_BASE + 2048).
  { apply (virt_to_phys_at m3 base 2048 eq_refl eq_refl Hb Hw). lia. }
  (* the statements of main *)
  set (c0 := mk_hal (os_open os "/dev/accelerator") HAL_STATUS_READY
                    (Some regs) base HAL_ACCEL_MEM_SIZE (Some m0)
                    (os_device os) O []) in *.
  set (G := mk_g (Some c0) (mk_config 1 1 16777216 1000) EmptyString true).
  set (tr := [EvPoll HAL_STATUS_READY;
              EvRegWrite (ir_with (IrSystolic (systolic_cfg_of HAL_OP_MATMUL 0)));
              EvPoll HAL_STATUS_READY;
              EvRegWrite (ir_with (IrLsu (lsu_cfg_of HAL_ACCEL_MEM_BASE
                                            (HAL_ACCEL_MEM_BASE + 2048)
                                            1024)));
              EvPoll HAL_STATUS_READY]).
  set (c4 := mk_hal (os_open os "/dev/accelerator") HAL_STATUS_READY
                    (Some (ir_with (IrLsu (lsu_cfg_of HAL_ACCEL_MEM_BASE
                                             (HAL_ACCEL_MEM_BASE + 2048)
                                             1024))))
                    base HAL_ACCEL_MEM_SIZE (Some m3) (os_device os) O tr).
  assert (E0 : Runtime_ctor os g_ctx_zero "/dev/accelerator"
               = (Returned, G)).
  { unfold Runtime_ctor, accel_init. cbn [initialized g_ctx_zero].
    rewrite Hinit. reflexivity. }
  assert (E1 : Configure G ACCEL_CONFIG_ENABLE_DMA 1 16777216 1000
               = (Returned, G)) by reflexivity.
  assert (B1 : Buffer_ctor G 1024 true true =
               (Some i, Returned,
                set_hal G (Some (set_mem_ctx c0 (Some m1))))).
  { unfold Buffer_ctor. change (1024 mod 2 ^ 32) with 1024.
    rewrite (accel_alloc_buffer_eval G c0 m0 m1 1024 base
               eq_refl eq_refl eq_refl ltac:(lia) A1 ltac:(unfold NULL; lia)).
    rewrite V1. reflexivity. }
  assert (B2 : Buffer_ctor (set_hal G (Some (set_mem_ctx c0 (Some m1))))
                           1024 true true =
               (Some w, Returned,
                set_hal G (Some (set_mem_ctx c0 (Some m2))))).
  { unfold Buffer_ctor. change (1024 mod 2 ^ 32) with 1024.
    rewrite (accel_alloc_buffer_eval
               (set_hal G (Some (set_mem_ctx c0 (Some m1))))
               (set_mem_ctx c0 (Some m1)) m1 m2 1024
               (base + 1024)
               eq_refl eq_refl eq_refl ltac:(lia) A2 ltac:(unfold NULL; lia)).
    rewrite V2. reflexivity. }
  assert (B3 : Buffer_ctor (set_hal G (Some (set_mem_ctx c0 (Some m2))))
                           1024 true true =
               (Some o, Returned,
                set_hal G (Some (set_mem_ctx c0 (Some m3))))).
  { unfold Buffer_ctor. change (1024 mod 2 ^ 32) with 1024.
    rewrite (accel_alloc_buffer_eval
               (set_hal G (Some (set_mem_ctx c0 (Some m2))))
               (set_mem_ctx c0 (Some m2)) m2 m3 1024
               (base + 2048)
               eq_refl eq_refl eq_refl ltac:(lia) A3 ltac:(unfold NULL; lia)).
    rewrite V3. reflexivity. }
  assert (R : MatrixMultiply (set_hal G (Some (set_mem_ctx c0 (Some m3))))
                             i w o
              = (Returned, set_hal G (Some c4))).
  { unfold MatrixMultiply.
    rewrite (submit_and_wait_ready
               (set_hal G (Some (set_mem_ctx c0 (Some m3))))
               (set_mem_ctx c0 (Some m3))).
    - reflexivity.
    - reflexivity.
    - reflexivity.
    - reflexivity.
    - cbn. discriminate.
    - cbn. discriminate. }
  assert (D3 : Buffer_dtor (set_hal G (Some c4)) (Some o)
               = set_hal G (Some (set_mem_ctx c4 (Some m2)))).
  { unfold Buffer_dtor.
    rewrite (accel_free_buffer_eval (set_hal G (Some c4)) c4 m3 o eq_refl eq_refl eq_refl)
      by (cbn; unfold NULL; lia).
    unfold o. cbn [host_addr]. rewrite F3. reflexivity. }
  assert (D2 : Buffer_dtor (set_hal G (Some (set_mem_ctx c4 (Some m2))))
                           (Some w)
               = set_hal G (Some (set_mem_ctx c4 (Some m1)))).
  { unfold Buffer_dtor.
    rewrite (accel_free_buffer_eval
               (set_hal G (Some (set_mem_ctx c4 (Some m2))))
               (set_mem_ctx c4 (Some m2)) m2 w
                                    eq_refl eq_refl eq_refl)
      by (cbn; unfold NULL; lia).
    unfold w. cbn [host_addr]. rewrite F2. reflexivity. }
  assert (D1 : Buffer_dtor (set_hal G (Some (set_mem_ctx c4 (Some m1))))
                           (Some i)
               = set_hal G (Some (set_mem_ctx c4 (Some m0)))).
  { unfold Buffer_dtor.
    rewrite (accel_free_buffer_eval
               (set_hal G (Some (set_mem_ctx c4 (Some m1))))
               (set_mem_ctx c4 (Some m1)) m1 i
                                    eq_refl eq_refl eq_refl)
      by (cbn; unfold NULL; lia).
    unfold i. cbn [host_addr]. rewrite F1. reflexivity. }
  assert (H0 : r0 = (Returned, G)) by exact E0.
  assert (H1 : r1 = (Returned, G)).
  { unfold r1. rewrite H0. exact E1. }
  assert (H2 : b1 = (Some i, Returned,
                     set_hal G (Some (set_mem_ctx c0 (Some m1))))).
  { unfold b1. rewrite H1. exact B1. }
  assert (H3 : b2 = (Some w, Returned,
                     set_hal G (Some (set_mem_ctx c0 (Some m2))))).
  { unfold b2. rewrite H2. exact B2. }
  assert (H4 : b3 = (Some o, Returned,
                     set_hal G (Some (set_mem_ctx c0 (Some m3))))).
  { unfold b3. rewrite H3. exact B3. }
  assert (H5 : r = (Returned, set_hal G (Some c4))).
  { unfold r. rewrite H4. exact R. }
  assert (H6 : d1 = set_hal G (Some (set_mem_ctx c4 (Some m0)))).
  { unfold d1, d2, d3. rewrite H5. cbn [snd]. rewrite D3, D2, D1.
    reflexivity. }
  rewrite H0, H1, H2, H3, H4, H5, H6.
  repeat split; reflexivity.
Qed.

(** A run of X25: the tutorial on the sample operating system. *)
Lemma X25_demo_main_witness :
  fst (MatrixMultiply
         (snd (Buffer_ctor
                 (snd (Buffer_ctor
                         (snd (Buffer_ctor
                                 (snd (Configure
                                         (snd (Runtime_ctor sample_os
                                                 g_ctx_zero
                                                 "/dev/accelerator"))
                                         ACCEL_CONFIG_ENABLE_DMA 1 16777216
                                         1000))
                                 1024 true true))
                         1024 true true))
                 1024 true true))
         (mk_buffer 4096 HAL_ACCEL_MEM_BASE 1024)
         (mk_buffer (4096 + 1024) (HAL_ACCEL_MEM_BASE + 1024) 1024)
         (mk_buffer (4096 + 2048) (HAL_ACCEL_MEM_BASE + 2048) 1024))
  = Returned.
Proof.
  destruct (X25_demo_main sample_os 4096) as (_ & _ & _ & _ & _ & H & _).
  - unfold os_grants, sample_os. cbn. repeat split; discriminate.
  - lia.
  - reflexivity.
  - exact H.
Defined.

(* ================================================================== *)
(** * The status word of the sessions the driver reaches *)

(** The status word is written by [hal_init], which stores READY, and by
    [hal_set_status], which no function of the driver calls; the device
    of the model touches it during a sleep only, and a wait that sees
    READY at its first poll does not sleep. *)









